(** * YouTube Music playlist merger: preview plan and publish pipeline

    A shallow embedding of the two worker routines of
    [ytmusic_merge_gui.py], [PreviewWorker.run] and [PublishWorker.run],
    with the helpers they call ([track_video_id], [get_artist_text],
    [get_duration_text], [format_duration]), followed by the properties
    of the merge plan and of the batched publish.

    Modelling conventions.
    - A Python [str] is a [string], the bytes of its UTF-8 encoding.
      [str.lower] and [str.strip] are built into the interpreter and
      follow its Unicode tables, which are not part of the program: they
      are parameters of the development ([Py.Text]), and every property
      of the program is proved for any pair of such functions.  The
      concrete runs at the end use ASCII text, on which the two methods
      are [Py.ascii_lower] and [Py.ascii_strip].
    - A track or playlist dictionary is a record of optional fields, one
      per key the program reads; the values are strings (an integer for
      [lengthSeconds], a list of dictionaries for [artists]), as the
      remote library client delivers them.  [None] stands for an absent
      key and, for the keys read without a default, also for a key that
      holds Python's [None].
    - A Python [set] of identifiers is a [gset string].
    - The remote client is an arbitrary state machine over a world [W];
      a call either returns or raises, and [str(e)] of the exception is
      the string carried by [Raise].
    - Qt signals and remote calls are appended to two logs kept in the
      worker's environment; the logger has no influence on either worker
      and is left out. *)

From stdpp Require Import base option list strings pretty gmap.
From Stdlib Require Import ZArith Lia.

Local Open Scope string_scope.
Local Open Scope list_scope.

(** ** Python strings *)

Module Py.

(** [str.lower] and [str.strip], as the interpreter provides them. *)
Class Text := mkText {
  lower : string → string;
  strip : string → string
}.

(** [str.isspace] on the ASCII range: TAB, LF, VT, FF, CR, FS, GS, RS,
    US and the blank. *)
Definition isspace (c : Ascii.ascii) : bool :=
  let n := Ascii.nat_of_ascii c in
  ((9 <=? n)%nat && (n <=? 13)%nat) || ((28 <=? n)%nat && (n <=? 32)%nat).

Fixpoint lstrip (s : string) : string :=
  match s with
  | EmptyString => EmptyString
  | String c s' => if isspace c then lstrip s' else s
  end.

Fixpoint rstrip (s : string) : string :=
  match s with
  | EmptyString => EmptyString
  | String c s' =>
      match rstrip s' with
      | EmptyString => if isspace c then EmptyString else String c EmptyString
      | r => String c r
      end
  end.

(** [str.strip] on ASCII text. *)
Definition ascii_strip (s : string) : string := rstrip (lstrip s).

Definition lower_char (c : Ascii.ascii) : Ascii.ascii :=
  let n := Ascii.nat_of_ascii c in
  if ((65 <=? n)%nat && (n <=? 90)%nat)%bool
  then Ascii.ascii_of_nat (n + 32) else c.

(** [str.lower] on ASCII text. *)
Fixpoint ascii_lower (s : string) : string :=
  match s with
  | EmptyString => EmptyString
  | String c s' => String (lower_char c) (ascii_lower s')
  end.

(** The two methods on ASCII text. *)
Definition ascii : Text := mkText ascii_lower ascii_strip.

(** Truth value of an optional string: [None] and [""] are false. *)
Definition truthy (v : option string) : bool :=
  match v with
  | Some s => negb (String.eqb s "")
  | None => false
  end.

(** [a or b] *)
Definition or (a b : option string) : option string :=
  if truthy a then a else b.

(** [d.get(key, default)] on an optional field. *)
Definition get_default (v : option string) (d : string) : string :=
  match v with Some s => s | None => d end.

(** [f"{n:02d}"] *)
Definition fmt_02d (z : Z) : string :=
  let s := pretty z in
  if (String.length s <? 2)%nat then "0" +:+ s else s.

(** [range(0, stop, step)] for a positive step: [0, step, 2*step, ...]
    below [stop]. *)
Definition range0 (stop step : nat) : list nat :=
  (λ k, k * step)%nat <$> seq 0 ((stop + step - 1) / step).

(** [l[i:j]] for [0 <= i <= j]; slicing never raises and is cut at the
    end of the list. *)
Definition slice {A} (l : list A) (i j : nat) : list A :=
  take (j - i) (drop i l).

End Py.

(** ** Data model *)

Record artist := mkArtist { ar_name : option string }.

(** A track dictionary as delivered by the remote client, with the keys
    the program reads. *)
Record track := mkTrack {
  tr_videoId : option string;
  tr_setVideoId : option string;
  tr_title : option string;
  tr_artists : option (list artist);
  tr_author : option string;
  tr_artistsText : option string;
  tr_duration : option string;
  tr_length : option string;
  tr_lengthText : option string;
  tr_lengthSeconds : option Z
}.

(** An entry of the library listing. *)
Record playlist := mkPlaylist {
  pl_title : option string;
  pl_playlistId : option string
}.

(** A selected source, [{"title": ..., "playlistId": ...}]. *)
Record source := mkSource {
  src_title : string;
  src_playlistId : string
}.

(** The [track_info] dictionary built for every fetched track; the key
    ["reason"] is present on skipped entries only. *)
Record track_info := mkInfo {
  ti_title : string;
  ti_artists : string;
  ti_duration : string;
  ti_source : string;
  ti_video_id : option string;
  ti_reason : option string
}.

Definition set_reason (ti : track_info) (r : string) : track_info :=
  mkInfo (ti_title ti) (ti_artists ti) (ti_duration ti) (ti_source ti)
         (ti_video_id ti) (Some r).

Inductive stat_value :=
| SInt (n : nat)
| SStr (s : string).

(** The payload of a successful preview, [{"to_add", "skipped", "stats"}];
    the statistics keep their insertion order. *)
Record preview_data := mkData {
  pd_to_add : list track_info;
  pd_skipped : list track_info;
  pd_stats : list (string * stat_value)
}.

Fixpoint stat (label : string) (stats : list (string * stat_value))
  : option stat_value :=
  match stats with
  | [] => None
  | (k, v) :: rest => if String.eqb k label then Some v else stat label rest
  end.

#[global] Instance track_info_eq_dec : EqDecision track_info.
Proof. solve_decision. Defined.

(** ** Helper functions *)

(** The dash shown for a missing duration, byte for byte as in the file. *)
Definition DASH : string := "â€”".

Definition format_duration (seconds : option Z) : string :=
  match seconds with
  | None => DASH
  | Some sec =>
      let m := (sec / 60)%Z in
      let s := (sec mod 60)%Z in
      let h := (m / 60)%Z in
      let m := (m mod 60)%Z in
      if (h =? 0)%Z
      then pretty m +:+ ":" +:+ Py.fmt_02d s
      else pretty h +:+ ":" +:+ Py.fmt_02d m +:+ ":" +:+ Py.fmt_02d s
  end.

Definition track_video_id (t : track) : option string :=
  Py.or (tr_videoId t) (tr_setVideoId t).

Definition get_artist_text (t : track) : string :=
  match tr_artists t with
  | Some ((_ :: _) as l) =>
      let names :=
        omap (λ a, if Py.truthy (ar_name a) then ar_name a else None) l in
      match names with
      | [] => ""
      | _ => String.concat ", " names
      end
  | _ =>
      match tr_author t with
      | Some s => s
      | None => Py.get_default (tr_artistsText t) ""
      end
  end.

Definition get_duration_text (t : track) : string :=
  if Py.truthy (tr_duration t) then Py.get_default (tr_duration t) ""
  else if Py.truthy (tr_length t) then Py.get_default (tr_length t) ""
  else if Py.truthy (tr_lengthText t) then Py.get_default (tr_lengthText t) ""
  else match tr_lengthSeconds t with
       | Some sec => format_duration (Some sec)
       | None => DASH
       end.

(** ** The remote client and the worker monad *)

(** Result of a call that may raise; [Raise e] carries [str(e)]. *)
Inductive res (A : Type) : Type :=
| Ok (a : A)
| Raise (e : string).
Arguments Ok {A} a.
Arguments Raise {A} e.

(** The remote library client over a world [W].  [yt_open] is the
    constructor [YTMusic(auth_path)]; the two track fetches return the
    value under the key ["tracks"] of the answer, [None] when the key is
    missing. *)
Record remote (W : Type) := mkRemote {
  yt_open : string → W → res () * W;
  yt_get_library_playlists : N → W → res (list playlist) * W;
  yt_get_liked_songs : N → W → res (option (list track)) * W;
  yt_get_watch_playlist : string → N → W → res (option (list track)) * W;
  yt_create_playlist : string → string → string → W → res string * W;
  yt_add_playlist_items : string → list string → bool → W → res () * W
}.
Arguments yt_open {W}.
Arguments yt_get_library_playlists {W}.
Arguments yt_get_liked_songs {W}.
Arguments yt_get_watch_playlist {W}.
Arguments yt_create_playlist {W}.
Arguments yt_add_playlist_items {W}.

(** The calls a worker issues, in the order it issues them. *)
Inductive call :=
| CallOpen (auth_path : string)
| CallLibraryPlaylists (limit : N)
| CallLikedSongs (limit : N)
| CallWatchPlaylist (playlistId : string) (limit : N)
| CallCreatePlaylist (title description privacy_status : string)
| CallAddPlaylistItems (playlistId : string) (videoIds : list string)
                       (duplicates : bool).

(** The Qt signals of the two workers. *)
Inductive signal :=
| Status (msg : string)
| Progress (percent : nat)
| PreviewDone (ok : bool) (msg : string) (data : option preview_data)
| PublishDone (ok : bool) (msg : string) (playlist_url : string).

Record env (W : Type) := mkEnv {
  world : W;
  calls : list call;
  signals : list signal
}.
Arguments mkEnv {W}.
Arguments world {W}.
Arguments calls {W}.
Arguments signals {W}.

Definition M (W A : Type) : Type := env W → res A * env W.

Section Monad.
Context {W : Type}.

Definition ret {A} (a : A) : M W A := λ σ, (Ok a, σ).

Definition bind {A B} (m : M W A) (k : A → M W B) : M W B :=
  λ σ, match m σ with
       | (Ok a, σ') => k a σ'
       | (Raise e, σ') => (Raise e, σ')
       end.

(** [try: m except Exception as e: h e]; what [m] did to the
    environment before raising stays done. *)
Definition try_except {A} (m : M W A) (h : string → M W A) : M W A :=
  λ σ, match m σ with
       | (Ok a, σ') => (Ok a, σ')
       | (Raise e, σ') => h e σ'
       end.

Definition emit (s : signal) : M W () :=
  λ σ, (Ok (), mkEnv (world σ) (calls σ) (signals σ ++ [s])).

(** Issue a remote call: log it, then let the remote answer. *)
Definition remote_call {A} (c : call) (f : W → res A * W) : M W A :=
  λ σ, let '(r, w') := f (world σ) in
       (r, mkEnv w' (calls σ ++ [c]) (signals σ)).

(** [for x in l: s = body x s] *)
Fixpoint for_each {A S} (body : A → S → M W S) (l : list A) (s : S)
  : M W S :=
  match l with
  | [] => ret s
  | x :: l' => bind (body x s) (for_each body l')
  end.

End Monad.

Declare Scope worker_scope.
Delimit Scope worker_scope with worker.
Notation "x ← m ; k" := (bind m (λ x, k))
  (at level 20, m at level 100, k at level 200, only parsing) : worker_scope.
Notation "m ;; k" := (bind m (λ _, k))
  (at level 100, k at level 200, only parsing, right associativity)
  : worker_scope.
Local Open Scope worker_scope.

Section Client.
Context {W : Type} (yt : remote W).

Definition YTMusic (auth_path : string) : M W () :=
  remote_call (CallOpen auth_path) (yt_open yt auth_path).

Definition get_library_playlists (limit : N) : M W (list playlist) :=
  remote_call (CallLibraryPlaylists limit) (yt_get_library_playlists yt limit).

(** [yt.get_liked_songs(limit=...).get("tracks", [])] *)
Definition get_liked_songs_tracks (limit : N) : M W (list track) :=
  r ← remote_call (CallLikedSongs limit) (yt_get_liked_songs yt limit);
  ret (default [] r).

(** [yt.get_watch_playlist(playlistId=..., limit=...).get("tracks", [])] *)
Definition get_watch_playlist_tracks (playlistId : string) (limit : N)
  : M W (list track) :=
  r ← remote_call (CallWatchPlaylist playlistId limit)
                  (yt_get_watch_playlist yt playlistId limit);
  ret (default [] r).

Definition create_playlist (title description privacy_status : string)
  : M W string :=
  remote_call (CallCreatePlaylist title description privacy_status)
              (yt_create_playlist yt title description privacy_status).

Definition add_playlist_items (playlistId : string) (videoIds : list string)
                              (duplicates : bool) : M W () :=
  remote_call (CallAddPlaylistItems playlistId videoIds duplicates)
              (yt_add_playlist_items yt playlistId videoIds duplicates).

End Client.

(** ** The preview worker *)

Module PreviewWorker.

(** The attributes set by [__init__]. *)
Record t := mk {
  auth_path : string;
  sources : list source;
  dest_title : string;
  include_liked : bool
}.

(** The variables the collection loops update. *)
Record locals := mkLocals {
  to_add : list track_info;
  skipped : list track_info;
  seen_ids : gset string;
  total_tracks : nat
}.

Definition init_locals : locals := mkLocals [] [] ∅ 0.

(** [vid in ids] *)
Definition mem (vid : option string) (ids : gset string) : bool :=
  match vid with
  | Some v => bool_decide (v ∈ ids)
  | None => false
  end.

(** [ids.add(vid)] *)
Definition add (vid : option string) (ids : gset string) : gset string :=
  match vid with
  | Some v => ids ∪ {[ v ]}
  | None => ids
  end.

(** The search loop for the destination: on the first playlist whose
    title matches, [dest_id = p.get("playlistId")] and [break]. *)
Fixpoint find_dest `{Py.Text} (dest_title : string)
                   (playlists : list playlist) : option string :=
  match playlists with
  | [] => None
  | p :: rest =>
      if String.eqb (Py.lower (Py.strip (Py.get_default (pl_title p) "")))
                    (Py.lower (Py.strip dest_title))
      then pl_playlistId p
      else find_dest dest_title rest
  end.

(** [{track_video_id(t) for t in dest_tracks if track_video_id(t)}] *)
Definition existing_ids (dest_tracks : list track) : gset string :=
  list_to_set
    (omap (λ t, if Py.truthy (track_video_id t) then track_video_id t
                else None) dest_tracks).

(** The body of [for track in tracks] of the source loop. *)
Definition process_track (dest_existing_ids : gset string) (src : source)
                         (tr : track) (loc : locals) : locals :=
  let total := S (total_tracks loc) in
  let vid := track_video_id tr in
  let track_info :=
    mkInfo (Py.get_default (tr_title tr) "Unknown") (get_artist_text tr)
           (get_duration_text tr) (src_title src) vid None in
  if negb (Py.truthy vid) then
    mkLocals (to_add loc)
             (skipped loc ++ [set_reason track_info "No video ID"])
             (seen_ids loc) total
  else if mem vid dest_existing_ids then
    mkLocals (to_add loc)
             (skipped loc ++ [set_reason track_info "Already in destination"])
             (seen_ids loc) total
  else if mem vid (seen_ids loc) then
    mkLocals (to_add loc)
             (skipped loc ++ [set_reason track_info "Duplicate"])
             (seen_ids loc) total
  else
    mkLocals (to_add loc ++ [track_info]) (skipped loc)
             (add vid (seen_ids loc)) total.

(** The body of [for track in tracks] of the liked-songs pass. *)
Definition process_liked_track (dest_existing_ids : gset string)
                               (tr : track) (loc : locals) : locals :=
  let total := S (total_tracks loc) in
  let vid := track_video_id tr in
  let track_info :=
    mkInfo (Py.get_default (tr_title tr) "Unknown") (get_artist_text tr)
           (get_duration_text tr) "Liked Songs" vid None in
  if negb (Py.truthy vid) then
    mkLocals (to_add loc)
             (skipped loc ++ [set_reason track_info "No video ID"])
             (seen_ids loc) total
  else if mem vid dest_existing_ids then
    mkLocals (to_add loc)
             (skipped loc ++ [set_reason track_info "Already in destination"])
             (seen_ids loc) total
  else if mem vid (seen_ids loc) then
    mkLocals (to_add loc)
             (skipped loc ++ [set_reason track_info "Duplicate"])
             (seen_ids loc) total
  else
    mkLocals (to_add loc ++ [track_info]) (skipped loc)
             (add vid (seen_ids loc)) total.

(** [sum(1 for t in skipped if t["reason"] == reason)]; the subscript
    raises [KeyError] on an entry without the key. *)
Fixpoint count_reason (reason : string) (l : list track_info) : res nat :=
  match l with
  | [] => Ok 0
  | ti :: l' =>
      match ti_reason ti with
      | None => Raise "'reason'"
      | Some r =>
          match count_reason reason l' with
          | Ok n => Ok ((if String.eqb r reason then 1 else 0) + n)
          | Raise e => Raise e
          end
      end
  end.

Section Run.
Context `{Py.Text} {W : Type} (yt : remote W).

Definition lift {A} (r : res A) : M W A := λ σ, (r, σ).

(** [if dest_id: ...]: read the tracks already in the destination. *)
Definition read_destination (dest_id : option string) : M W (gset string) :=
  if Py.truthy dest_id then
    let id := default "" dest_id in
    emit (Status "Reading existing tracks in destination...");;
    try_except
      (dest_tracks ← (if String.eqb id "LM"
                      then get_liked_songs_tracks yt 100000
                      else get_watch_playlist_tracks yt id 10000);
       ret (existing_ids dest_tracks))
      (λ _, ret ∅)
  else ret ∅.

(** The body of [for source in self.sources]. *)
Definition process_source (dest_existing_ids : gset string)
                          (src : source) (loc : locals) : M W locals :=
  emit (Status ("Processing: " +:+ src_title src));;
  try_except
    (tracks ← (if String.eqb (src_playlistId src) "LM"
               then get_liked_songs_tracks yt 100000
               else get_watch_playlist_tracks yt (src_playlistId src) 10000);
     ret (fold_left (λ loc tr, process_track dest_existing_ids src tr loc)
                    tracks loc))
    (λ _, ret loc).

(** The block under [if self.include_liked]. *)
Definition process_liked (dest_existing_ids : gset string) (loc : locals)
  : M W locals :=
  emit (Status "Processing liked songs...");;
  try_except
    (tracks ← get_liked_songs_tracks yt 100000;
     ret (fold_left (λ loc tr, process_liked_track dest_existing_ids tr loc)
                    tracks loc))
    (λ _, ret loc).

Definition make_stats (loc : locals) (dest_id : option string)
  : M W (list (string * stat_value)) :=
  n_dest ← lift (count_reason "Already in destination" (skipped loc));
  n_dup ← lift (count_reason "Duplicate" (skipped loc));
  n_novid ← lift (count_reason "No video ID" (skipped loc));
  ret [ ("Total tracks processed", SInt (total_tracks loc));
        ("Tracks to add", SInt (length (to_add loc)));
        ("Tracks skipped", SInt (length (skipped loc)));
        ("Already in destination", SInt n_dest);
        ("Duplicates removed", SInt n_dup);
        ("No video ID", SInt n_novid);
        ("Destination exists",
         SStr (if Py.truthy dest_id then "Yes"
               else "No (will be created)")) ].

Definition run (self : t) : M W () :=
  try_except
    (YTMusic yt (auth_path self);;
     emit (Status "Checking destination playlist...");;
     playlists ← get_library_playlists yt 10000;
     let dest_id := find_dest (dest_title self) playlists in
     dest_existing_ids ← read_destination dest_id;
     loc ← for_each (process_source dest_existing_ids) (sources self)
                    init_locals;
     loc ← (if include_liked self
            then process_liked dest_existing_ids loc else ret loc);
     stats ← make_stats loc dest_id;
     let result := mkData (to_add loc) (skipped loc) stats in
     emit (PreviewDone true "Preview generated successfully" (Some result)))
    (λ e, emit (PreviewDone false ("Failed to generate preview: " +:+ e)
                            None)).

End Run.

End PreviewWorker.

(** ** The publish worker *)

Module PublishWorker.

Record t := mk {
  auth_path : string;
  video_ids : list string;
  dest_title : string;
  privacy : string;
  description : string
}.

(** [__init__]: an empty description is replaced by the default text. *)
Definition init (auth_path : string) (video_ids : list string)
                (dest_title privacy description : string) : t :=
  mk auth_path video_ids dest_title privacy
     (if String.eqb description "" then "Auto-merged playlist from YouTube Music"
      else description).

Definition batch_size : nat := 50.

(** The search loop for the destination, as written in this worker. *)
Fixpoint find_dest `{Py.Text} (dest_title : string)
                   (playlists : list playlist) : option string :=
  match playlists with
  | [] => None
  | p :: rest =>
      if String.eqb (Py.lower (Py.strip (Py.get_default (pl_title p) "")))
                    (Py.lower (Py.strip dest_title))
      then pl_playlistId p
      else find_dest dest_title rest
  end.

Section Run.
Context `{Py.Text} {W : Type} (yt : remote W).

(** The body of [for i in range(0, len(self.video_ids), batch_size)].
    The percentage is [int(x * 100 / n)]: the quotient of two integers
    far below [2^47] truncated, that is the integer quotient. *)
Definition add_batch (self : t) (dest_id : string) (total_batches : nat)
                     (i : nat) (_ : ()) : M W () :=
  let batch := Py.slice (video_ids self) i (i + batch_size) in
  let batch_num := (i / batch_size + 1)%nat in
  emit (Status ("Adding batch " +:+ pretty batch_num +:+ "/"
                +:+ pretty total_batches +:+ "..."));;
  add_playlist_items yt dest_id batch false;;
  let progress :=
    (((i + length batch) * 100) / length (video_ids self))%nat in
  emit (Progress progress).

Definition run (self : t) : M W () :=
  try_except
    (YTMusic yt (auth_path self);;
     emit (Status "Finding destination playlist...");;
     playlists ← get_library_playlists yt 10000;
     let dest_id := find_dest (dest_title self) playlists in
     dest_id ← (if negb (Py.truthy dest_id) then
                  emit (Status ("Creating new playlist: "
                                +:+ dest_title self));;
                  create_playlist yt (dest_title self) (description self)
                                  (privacy self)
                else ret (default "" dest_id));
     (match video_ids self with
      | [] => ret ()
      | _ :: _ =>
          let total_batches :=
            ((length (video_ids self) + batch_size - 1) / batch_size)%nat in
          for_each (add_batch self dest_id total_batches)
                   (Py.range0 (length (video_ids self)) batch_size) ()
      end);;
     let playlist_url :=
       "https://music.youtube.com/playlist?list=" +:+ dest_id in
     emit (PublishDone true
             ("Successfully added " +:+ pretty (length (video_ids self))
              +:+ " tracks!") playlist_url))
    (λ e, emit (PublishDone false ("Publishing failed: " +:+ e) "")).

End Run.

End PublishWorker.

(** ** A table-driven remote for concrete runs *)

Module Fake.

(** A remote whose answers are read off a table.  [fk_add_ok] add-items
    calls succeed, the next one raises; [fk_items] records what the
    successful ones wrote. *)
Record state := mkState {
  fk_open : res ();
  fk_library : res (list playlist);
  fk_liked : res (option (list track));
  fk_watch : list (string * res (option (list track)));
  fk_create : res string;
  fk_add_ok : nat;
  fk_items : list (string * list string)
}.

Fixpoint lookup_watch (id : string)
                      (tbl : list (string * res (option (list track))))
  : res (option (list track)) :=
  match tbl with
  | [] => Raise "playlist not found"
  | (k, r) :: rest => if String.eqb k id then r else lookup_watch id rest
  end.

Definition add_items (id : string) (vids : list string) (dup : bool)
                     (w : state) : res () * state :=
  match fk_add_ok w with
  | O => (Raise "quota exceeded", w)
  | S k => (Ok (), mkState (fk_open w) (fk_library w) (fk_liked w)
                           (fk_watch w) (fk_create w) k
                           (fk_items w ++ [(id, vids)]))
  end.

Definition client : remote state :=
  mkRemote state
    (λ _ w, (fk_open w, w))
    (λ _ w, (fk_library w, w))
    (λ _ w, (fk_liked w, w))
    (λ id _ w, (lookup_watch id (fk_watch w), w))
    (λ _ _ _ w, (fk_create w, w))
    add_items.

Definition start (w : state) : env state := mkEnv w [] [].

(** A track that only has an identifier and a title. *)
Definition song (vid title : string) : track :=
  mkTrack (Some vid) None (Some title) None None None None None None None.

(** A track without any identifier. *)
Definition unplayable (title : string) : track :=
  mkTrack None None (Some title) None None None None None None None.

(** [n] distinct identifiers ["0"], ["1"], ... *)
Definition ids (n : nat) : list string := (λ k : nat, pretty k) <$> seq 0 n.

End Fake.

(** ** Vocabulary of the statements *)

(** The entry built for a fetched track, before any reason is attached. *)
Definition info_of (x : string * track) : track_info :=
  mkInfo (Py.get_default (tr_title x.2) "Unknown") (get_artist_text x.2)
         (get_duration_text x.2) x.1 (track_video_id x.2) None.

Definition clear_reason (ti : track_info) : track_info :=
  mkInfo (ti_title ti) (ti_artists ti) (ti_duration ti) (ti_source ti)
         (ti_video_id ti) None.

(** [interleave a b l]: every position of [l] goes to exactly one of [a]
    and [b], and both keep the order of [l]. *)
Inductive interleave {A : Type} : list A → list A → list A → Prop :=
| interleave_nil : interleave [] [] []
| interleave_left x a b l : interleave a b l → interleave (x :: a) b (x :: l)
| interleave_right x a b l : interleave a b l → interleave a (x :: b) (x :: l).

(** The skip reasons and the classification rule in the words of the
    specification. *)
Inductive verdict :=
| NoVideoId
| AlreadyInDestination
| Duplicate
| Accept.

Definition reason_text (v : verdict) : option string :=
  match v with
  | NoVideoId => Some "No video ID"
  | AlreadyInDestination => Some "Already in destination"
  | Duplicate => Some "Duplicate"
  | Accept => None
  end.

Definition classify (dest_existing_ids seen_ids : gset string)
                    (vid : option string) : verdict :=
  match vid with
  | None => NoVideoId
  | Some v =>
      if decide (v = "") then NoVideoId
      else if decide (v ∈ dest_existing_ids) then AlreadyInDestination
      else if decide (v ∈ seen_ids) then Duplicate
      else Accept
  end.

(** What a verdict does to the plan under construction, in the words of
    the specification: an accepted track is appended to [to_add] and its
    identifier is inserted into the seen set; a skipped track is appended
    to [skipped] with its reason and the seen set stays as it is. *)
Definition apply_verdict (v : verdict) (x : string * track)
                         (loc : PreviewWorker.locals) : PreviewWorker.locals :=
  match v with
  | Accept =>
      PreviewWorker.mkLocals
        (PreviewWorker.to_add loc ++ [info_of x])
        (PreviewWorker.skipped loc)
        (match track_video_id x.2 with
         | Some vid => {[ vid ]} ∪ PreviewWorker.seen_ids loc
         | None => PreviewWorker.seen_ids loc
         end)
        (S (PreviewWorker.total_tracks loc))
  | _ =>
      PreviewWorker.mkLocals
        (PreviewWorker.to_add loc)
        (PreviewWorker.skipped loc
           ++ [mkInfo (ti_title (info_of x)) (ti_artists (info_of x))
                      (ti_duration (info_of x)) (ti_source (info_of x))
                      (ti_video_id (info_of x)) (reason_text v)])
        (PreviewWorker.seen_ids loc)
        (S (PreviewWorker.total_tracks loc))
  end.

(** One step of either collection loop on a labelled track, and the two
    loops in sequence over everything fetched. *)
Definition plan_step (D : gset string) (loc : PreviewWorker.locals)
                     (x : string * track) : PreviewWorker.locals :=
  PreviewWorker.process_track D (mkSource x.1 "") x.2 loc.

Definition plan (D : gset string) (fetched : list (string * track))
                (loc : PreviewWorker.locals) : PreviewWorker.locals :=
  fold_left (plan_step D) fetched loc.

(** First-seen selection in the words of the specification, by position:
    a fetched track is kept when it has an identifier that is not in the
    destination and that no track fetched earlier carries. *)
Definition fresh (D : gset string) (earlier : list (string * track))
                 (x : string * track) : bool :=
  Py.truthy (track_video_id x.2)
  && negb (PreviewWorker.mem (track_video_id x.2) D)
  && bool_decide (track_video_id x.2 ∉ (track_video_id ∘ snd) <$> earlier).

Fixpoint first_seen (D : gset string) (earlier l : list (string * track))
  : list (string * track) :=
  match l with
  | [] => []
  | x :: l' =>
      (if fresh D earlier x then [x] else [])
        ++ first_seen D (earlier ++ [x]) l'
  end.

(** Title matching and the first match of a listing, in the words of the
    specification. *)
Definition title_matches `{Py.Text} (dest_title : string) (p : playlist)
  : Prop :=
  Py.lower (Py.strip (Py.get_default (pl_title p) ""))
  = Py.lower (Py.strip dest_title).

#[global] Instance title_matches_dec `{Py.Text} t p :
  Decision (title_matches t p).
Proof. unfold title_matches. apply _. Defined.



(** The batches of a publish: [video_ids[i:i + 50]] for the indices of
    the loop. *)
Definition batches (video_ids : list string) : list (list string) :=
  (λ i, Py.slice video_ids i (i + PublishWorker.batch_size))
    <$> Py.range0 (length video_ids) PublishWorker.batch_size.

(** Percentage reported once [k + 1] batches are written, in the words
    of the specification: [floor(items_added_so_far * 100 / total)]. *)
Definition progress_after (video_ids : list string) (k : nat) : nat :=
  (length (concat (take (S k) (batches video_ids))) * 100)
    / length video_ids.

(** ** What a preview run fetches and reports *)

Section PreviewObservers.
Context `{Py.Text} {W : Type} (yt : remote W).
Import PreviewWorker.

(** The run up to the collection loops: the resolved destination
    identifier and the identifiers already in the destination. *)
Definition prologue (self : t) : M W (option string * gset string) :=
  YTMusic yt (auth_path self);;
  emit (Status "Checking destination playlist...");;
  playlists ← get_library_playlists yt 10000;
  let dest_id := find_dest (dest_title self) playlists in
  D ← read_destination yt dest_id;
  ret (dest_id, D).

(** The fetch of one source as the source loop performs it. *)
Definition fetch_of (src : source) : M W (list track) :=
  if String.eqb (src_playlistId src) "LM"
  then get_liked_songs_tracks yt 100000
  else get_watch_playlist_tracks yt (src_playlistId src) 10000.

(** The labelled tracks one source hands to the loop body. *)
Definition fetch_source (src : source) : M W (list (string * track)) :=
  emit (Status ("Processing: " +:+ src_title src));;
  try_except (tracks ← fetch_of src; ret (pair (src_title src) <$> tracks))
             (λ _, ret []).

Fixpoint fetch_sources (srcs : list source) : M W (list (string * track)) :=
  match srcs with
  | [] => ret []
  | src :: rest =>
      a ← fetch_source src;
      b ← fetch_sources rest;
      ret (a ++ b)%list
  end.

Definition fetch_liked (include_liked : bool) : M W (list (string * track)) :=
  if include_liked then
    emit (Status "Processing liked songs...");;
    try_except (tracks ← get_liked_songs_tracks yt 100000;
                ret (pair "Liked Songs" <$> tracks))
               (λ _, ret [])
  else ret [].

(** Everything a run gathers before it classifies: destination
    identifier, destination set, tracks of the playlist sources, tracks
    of the liked-songs pass. *)
Definition gather (self : t)
  : M W (option string * gset string
         * list (string * track) * list (string * track)) :=
  p ← prologue self;
  fs ← fetch_sources (sources self);
  fl ← fetch_liked (include_liked self);
  ret (p.1, p.2, fs, fl).

Definition value_of {A} (d : A) (m : M W A) (σ : env W) : A :=
  match m σ with
  | (Ok a, _) => a
  | (Raise _, _) => d
  end.

Definition dest_ids (self : t) (σ : env W) : gset string :=
  (value_of (None, ∅, [], []) (gather self) σ).1.1.2.

Definition fetched_sources (self : t) (σ : env W) : list (string * track) :=
  (value_of (None, ∅, [], []) (gather self) σ).1.2.

Definition fetched_liked (self : t) (σ : env W) : list (string * track) :=
  (value_of (None, ∅, [], []) (gather self) σ).2.

(** The terminal signal of a run. *)
Definition outcome (self : t) (σ : env W) : option signal :=
  last (signals (run yt self σ).2).

(** The plan a run reports, when it reports one. *)
Definition plan_of (self : t) (σ : env W) : option preview_data :=
  match outcome self σ with
  | Some (PreviewDone true _ (Some data)) => Some data
  | _ => None
  end.

End PreviewObservers.

(** ** Environments and reports *)

(** The environment after one more signal, after one more remote call. *)
Definition add_signal {W} (σ : env W) (s : signal) : env W :=
  mkEnv (world σ) (calls σ) (signals σ ++ [s]).

Definition add_call {W} (σ : env W) (c : call) (w : W) : env W :=
  mkEnv w (calls σ ++ [c]) (signals σ).

(** The progress percentages and the add-items calls found in a log. *)
Definition progress_of (sigs : list signal) : list nat :=
  omap (λ s, match s with Progress p => Some p | _ => None end) sigs.

Definition add_calls_of (cs : list call) : list (string * list string * bool) :=
  omap (λ c, match c with
             | CallAddPlaylistItems id vids dup => Some (id, vids, dup)
             | _ => None
             end) cs.

(** The statistics of a plan, with the counts per reason taken over the
    skipped entries. *)
Definition count_skipped (reason : string) (l : list track_info) : nat :=
  length (filter (λ ti, ti_reason ti = Some reason) l).

Definition stats_of (loc : PreviewWorker.locals) (dest_id : option string)
  : list (string * stat_value) :=
  [ ("Total tracks processed", SInt (PreviewWorker.total_tracks loc));
    ("Tracks to add", SInt (length (PreviewWorker.to_add loc)));
    ("Tracks skipped", SInt (length (PreviewWorker.skipped loc)));
    ("Already in destination",
     SInt (count_skipped "Already in destination" (PreviewWorker.skipped loc)));
    ("Duplicates removed",
     SInt (count_skipped "Duplicate" (PreviewWorker.skipped loc)));
    ("No video ID", SInt (count_skipped "No video ID" (PreviewWorker.skipped loc)));
    ("Destination exists",
     SStr (if Py.truthy dest_id then "Yes" else "No (will be created)")) ].

Definition report (dest_id : option string) (loc : PreviewWorker.locals)
  : preview_data :=
  mkData (PreviewWorker.to_add loc) (PreviewWorker.skipped loc)
         (stats_of loc dest_id).

(** What the loops maintain about a skipped entry and about the plan. *)
Definition skip_ok (D : gset string) (ti : track_info) : Prop :=
  (ti_reason ti = Some "No video ID" ∧ Py.truthy (ti_video_id ti) = false)
  ∨ (ti_reason ti = Some "Already in destination"
     ∧ Py.truthy (ti_video_id ti) = true
     ∧ PreviewWorker.mem (ti_video_id ti) D = true)
  ∨ (ti_reason ti = Some "Duplicate"
     ∧ Py.truthy (ti_video_id ti) = true
     ∧ PreviewWorker.mem (ti_video_id ti) D = false).

Record plan_inv (D : gset string) (fetched : list (string * track))
                (loc : PreviewWorker.locals) : Prop := {
  inv_interleave :
    interleave (PreviewWorker.to_add loc)
               (clear_reason <$> PreviewWorker.skipped loc)
               (info_of <$> fetched);
  inv_total : PreviewWorker.total_tracks loc = length fetched;
  inv_first_seen :
    PreviewWorker.to_add loc = info_of <$> first_seen D [] fetched;
  inv_seen :
    ∀ v, v ∈ PreviewWorker.seen_ids loc ↔
         v ≠ "" ∧ (v ∉ D) ∧ Some v ∈ ((track_video_id ∘ snd) <$> fetched);
  inv_skipped : Forall (skip_ok D) (PreviewWorker.skipped loc)
}.

(** ** What a publish run writes and reports *)

Section PublishObservers.
Context `{Py.Text} {W : Type} (yt : remote W).
Import PublishWorker.

(** Writing batches one after the other until an add-items call raises:
  the number of batches written, the text of the exception if any, and
  the world that is left.  Nothing is undone and nothing is tried
  again. *)
Fixpoint write_batches (id : string) (bs : list (list string)) (w : W)
  : nat * option string * W :=
  match bs with
  | [] => (0, None, w)
  | b :: rest =>
      match yt_add_playlist_items yt id b false w with
      | (Ok _, w') =>
          let '(k, err, w'') := write_batches id rest w' in (S k, err, w'')
      | (Raise e, w') => (0, Some e, w')
      end
  end.

(** The run up to the batch loop: the destination found in the listing,
  or the playlist created when the listing has none. *)
Definition resolve (self : t) : M W string :=
  YTMusic yt (auth_path self);;
  emit (Status "Finding destination playlist...");;
  playlists ← get_library_playlists yt 10000;
  let dest_id := find_dest (dest_title self) playlists in
  if negb (Py.truthy dest_id) then
    emit (Status ("Creating new playlist: " +:+ dest_title self));;
    create_playlist yt (dest_title self) (description self) (privacy self)
  else ret (default "" dest_id).

(** The terminal signal of a publish run. *)
Definition publish_outcome (self : t) (σ : env W) : option signal :=
  last (signals (run yt self σ).2).

End PublishObservers.

(** The signals of batch number [k], counted from 0, and of the first
    [k] batches. *)
Definition batch_status (video_ids : list string) (k : nat) : signal :=
  Status ("Adding batch " +:+ pretty (k + 1)%nat +:+ "/"
          +:+ pretty (length (batches video_ids)) +:+ "...").

Definition batch_signals (video_ids : list string) (k : nat) : list signal :=
  concat ((λ j, [ batch_status video_ids j;
                  Progress (progress_after video_ids j) ]) <$> seq 0 k).

Definition playlist_url (id : string) : string :=
  "https://music.youtube.com/playlist?list=" +:+ id.

(** The environment a publish run ends in, once the destination [id] is
    known in [σ1] and [k] batches were written before the error [err]. *)
Definition publish_final {W} (self : PublishWorker.t) (id : string)
    (σ1 : env W) (k : nat) (err : option string) (w' : W) : env W :=
  let vids := PublishWorker.video_ids self in
  match err with
  | None =>
      mkEnv w'
        (calls σ1 ++ ((λ b, CallAddPlaylistItems id b false) <$> take k (batches vids)))
        (signals σ1 ++ batch_signals vids k
           ++ [PublishDone true
                 ("Successfully added " +:+ pretty (length vids) +:+ " tracks!")
                 (playlist_url id)])
  | Some e =>
      mkEnv w'
        (calls σ1 ++ ((λ b, CallAddPlaylistItems id b false)
                        <$> take (S k) (batches vids)))
        (signals σ1 ++ batch_signals vids k
           ++ [batch_status vids k;
               PublishDone false ("Publishing failed: " +:+ e) ""])
  end.


(** ** Calls of the track fetches *)

(** The liked-songs collection has the identifier ["LM"]; both workers
    read it through its own call. *)
Definition tracks_call (id : string) : call :=
  if String.eqb id "LM" then CallLikedSongs 100000
  else CallWatchPlaylist id 10000.

Definition tracks_answer {W} (yt : remote W) (id : string) (w : W)
  : res (option (list track)) * W :=
  if String.eqb id "LM" then yt_get_liked_songs yt 100000 w
  else yt_get_watch_playlist yt id 10000 w.

(** A preview run fails on the library listing: the client was opened and
    the listing raised. *)
Definition library_listing_failed {W} (yt : remote W)
    (self : PreviewWorker.t) (σ : env W) : Prop :=
  ∃ w1 e w2,
    yt_open yt (PreviewWorker.auth_path self) (world σ) = (Ok (), w1)
    ∧ yt_get_library_playlists yt 10000 w1 = (Raise e, w2).

(** ** Concrete runs *)

Module Scenario.
Import Fake.

(** The listing: two sources and two playlists whose titles match
    ["Merged"]. *)
Definition playlists : list playlist :=
  [ mkPlaylist (Some "Road trip") (Some "PLX");
    mkPlaylist (Some "Gym") (Some "PLY");
    mkPlaylist (Some " merged ") (Some "PLD");
    mkPlaylist (Some "Merged") (Some "PLE") ].

(** A library whose destination already holds [v1]; the liked songs
    repeat [v3]. *)
Definition library : state :=
  mkState (Ok ()) (Ok playlists)
    (Ok (Some [song "v3" "c"; song "v9" "z"]))
    [ ("PLX", Ok (Some [song "v1" "a"; song "v2" "b"]));
      ("PLY", Ok (Some [song "v2" "b"; song "v3" "c"; unplayable "u";
                        song "v1" "a"]));
      ("PLD", Ok (Some [song "v1" "a"])) ]
    (Ok "PLNEW") 3 [].

(** The same library when the credential file is rejected. *)
Definition bad_credentials : state :=
  mkState (Raise "bad credentials") (fk_library library) (fk_liked library)
          (fk_watch library) (fk_create library) 3 [].

(** The same library when the destination cannot be read. *)
Definition unreadable_destination : state :=
  mkState (Ok ()) (fk_library library) (fk_liked library)
    [ ("PLX", Ok (Some [song "v1" "a"; song "v2" "b"]));
      ("PLY", Ok (Some [song "v2" "b"; song "v3" "c"])) ]
    (fk_create library) 3 [].

(** The same library when the second add-items call fails. *)
Definition second_batch_fails : state :=
  mkState (Ok ()) (fk_library library) (fk_liked library)
          (fk_watch library) (fk_create library) 1 [].


Definition preview : PreviewWorker.t :=
  PreviewWorker.mk "browser.json"
    [mkSource "Road trip" "PLX"; mkSource "Gym" "PLY"; mkSource "Gone" "PLZ"]
    "Merged" true.

Definition preview_new : PreviewWorker.t :=
  PreviewWorker.mk "browser.json" [mkSource "Road trip" "PLX"] "Fresh" false.

Definition publish : PublishWorker.t :=
  PublishWorker.init "browser.json" (ids 120) "Merged" "PRIVATE" "".

Definition publish_new : PublishWorker.t :=
  PublishWorker.init "browser.json" (ids 120) "Fresh" "PRIVATE" "".

Definition publish_nothing : PublishWorker.t :=
  PublishWorker.init "browser.json" [] "Merged" "PRIVATE" "".

End Scenario.

(** ** The main window: playlist list, selection and the two actions *)

Module Window.

(** The type of the payload, under a name the attribute
    [preview_data] does not hide. *)
Abbreviation preview_dict := preview_data (only parsing).

(** [needle in hay] on strings. *)
Fixpoint contains (needle hay : string) : bool :=
  String.prefix needle hay
  || match hay with
     | EmptyString => false
     | String _ hay' => contains needle hay'
     end.

(** A row of the playlist list widget: its text, the playlist
    identifier stored under [Qt.UserRole], its check state and whether
    the filter hides it. *)
Record list_item := mkItem {
  it_text : string;
  it_data : string;
  it_checked : bool;
  it_hidden : bool
}.

(** The widgets and attributes the two actions read. *)
Record t := mk {
  browser_file_path : string;
  playlist_list : list list_item;
  dest_input : string;
  include_liked : bool;
  privacy_combo : string;
  preview_data : option preview_dict
}.

(** [on_playlists_loaded], the list it leaves: on success one unchecked,
    visible row per playlist that has an identifier; on failure the list
    is not touched. *)
Definition on_playlists_loaded (success : bool) (playlists : list playlist)
                               (items : list list_item) : list list_item :=
  if success then
    omap (λ p,
            let title := Py.get_default (pl_title p) "Untitled" in
            let playlist_id := pl_playlistId p in
            if Py.truthy playlist_id
            then Some (mkItem title (default "" playlist_id) false false)
            else None) playlists
  else items.

(** [filter_playlists] with the text of the filter box. *)
Definition filter_playlists `{Py.Text} (filter_input : string)
                            (items : list list_item) : list list_item :=
  let search_text := Py.lower filter_input in
  (λ it, mkItem (it_text it) (it_data it) (it_checked it)
                (negb (contains search_text (Py.lower (it_text it)))))
    <$> items.

Definition set_all_selected (selected : bool) (items : list list_item)
  : list list_item :=
  (λ it, if it_hidden it then it
         else mkItem (it_text it) (it_data it) selected (it_hidden it))
    <$> items.

Definition get_selected_playlists `{Py.Text} (dest_input : string)
                                  (items : list list_item) : list source :=
  let dest_title := Py.lower (Py.strip dest_input) in
  omap (λ it,
          if it_checked it then
            if negb (String.eqb (Py.lower (it_text it)) dest_title)
            then Some (mkSource (it_text it) (it_data it))
            else None
          else None) items.

(** [preview_merge]: the worker it starts, if any. *)
Definition preview_merge `{Py.Text} (w : t) : option PreviewWorker.t :=
  let selected := get_selected_playlists (dest_input w) (playlist_list w) in
  match selected, include_liked w with
  | [], false => None
  | _, _ =>
      Some (PreviewWorker.mk (browser_file_path w) selected (dest_input w)
                             (include_liked w))
  end.

(** [on_preview_done], the attribute it sets: the plan is kept on
    success only.  [None] is the empty dictionary. *)
Definition on_preview_done (success : bool) (message : string)
                           (data : option preview_dict) (w : t) : t :=
  if success
  then mk (browser_file_path w) (playlist_list w) (dest_input w)
          (include_liked w) (privacy_combo w) data
  else w.

(** [[t["video_id"] for t in to_add if t.get("video_id")]] *)
Definition video_ids_of (to_add : list track_info) : list string :=
  omap (λ ti, if Py.truthy (ti_video_id ti) then ti_video_id ti else None)
       to_add.

(** [publish_playlist]: the worker it starts, if any. *)
Definition publish_playlist (w : t) : option PublishWorker.t :=
  match preview_data w with
  | None => None
  | Some data =>
      match video_ids_of (pd_to_add data) with
      | [] => None
      | video_ids =>
          Some (PublishWorker.init (browser_file_path w) video_ids
                                   (dest_input w) (privacy_combo w) "")
      end
  end.

End Window.

(** ** Shapes of the logs *)

(** The calls that only read the library. *)
Definition is_read_call (c : call) : bool :=
  match c with
  | CallOpen _ | CallLibraryPlaylists _ | CallLikedSongs _
  | CallWatchPlaylist _ _ => true
  | CallCreatePlaylist _ _ _ | CallAddPlaylistItems _ _ _ => false
  end.

Definition is_done (s : signal) : bool :=
  match s with
  | PreviewDone _ _ _ | PublishDone _ _ _ => true
  | Status _ | Progress _ => false
  end.

Definition is_status (s : signal) : bool :=
  match s with
  | Status _ => true
  | _ => false
  end.

(** [σ'] continues [σ] with at most [n] calls, all of them reads, and
    with status signals only. *)
Definition reads_on {W} (n : nat) (σ σ' : env W) : Prop :=
  ∃ cs ss,
    calls σ' = calls σ ++ cs
    ∧ signals σ' = signals σ ++ ss
    ∧ (length cs ≤ n)%nat
    ∧ Forall (λ c, is_read_call c = true) cs
    ∧ Forall (λ s, is_status s = true) ss.

(** The playlists a list widget shows: text and identifier of each row. *)
Definition rows (items : list Window.list_item) : list (string * string) :=
  (λ it, (Window.it_text it, Window.it_data it)) <$> items.

Section Colon.
Import Stdlib.Strings.Ascii.

(** A string without the colon. *)
Fixpoint colon_free (s : string) : Prop :=
  match s with
  | EmptyString => True
  | String c s' => c ≠ ":"%char ∧ colon_free s'
  end.

End Colon.
(** ** A session of the main window *)

Module Session.
Import Fake Scenario.

(** The library of the scenario once the plan of its preview has been
    published: the destination holds [v1], [v2], [v3] and [v9]. *)
Definition published : state :=
  mkState (Ok ()) (Ok playlists) (fk_liked library)
    [ ("PLX", Ok (Some [song "v1" "a"; song "v2" "b"]));
      ("PLY", Ok (Some [song "v2" "b"; song "v3" "c"; unplayable "u";
                        song "v1" "a"]));
      ("PLD", Ok (Some [song "v1" "a"; song "v2" "b"; song "v3" "c";
                        song "v9" "z"])) ]
    (Ok "PLNEW") 3 [].

(** The list after the library is loaded, ["Road trip"], ["Gym"] and
    ["Merged"] are checked and the filter ["r"] hides ["Gym"]. *)
Definition checked : list Window.list_item :=
  [ Window.mkItem "Road trip" "PLX" true false;
    Window.mkItem "Gym" "PLY" true true;
    Window.mkItem " merged " "PLD" false false;
    Window.mkItem "Merged" "PLE" true false ].

(** A list in which the row of the destination, titled with blanks
    around, is checked. *)
Definition padded : list Window.list_item :=
  [ Window.mkItem " merged " "PLD" true false;
    Window.mkItem "Merged" "PLE" true false ].

Definition window : Window.t :=
  Window.mk "browser.json" checked "Merged" true "PRIVATE" None.

(** A track with two listed artists, one of them without a name, and
    an author. *)
Definition credited : track :=
  mkTrack (Some "v1") (Some "s1") (Some "a")
          (Some [mkArtist (Some "Ann"); mkArtist None; mkArtist (Some "Bo")])
          (Some "Someone else") None (Some "3:05") None None (Some 185%Z).

(** A track whose only duration is a number of seconds. *)
Definition timed : track :=
  mkTrack None (Some "s2") (Some "b") None None (Some "Cy") None (Some "")
          None (Some 3725%Z).

End Session.

(** * Properties *)

#[local] Set Warnings "-clear-no-such-hyp".

(** ** The worker monad *)

Section MonadFacts.
Context {W : Type}.
Implicit Types (σ : env W).

Lemma bind_ok {A B} (m : M W A) (k : A → M W B) σ a σ' :
  m σ = (Ok a, σ') → bind m k σ = k a σ'.
Proof. unfold bind. by intros ->. Qed.

Lemma bind_raise {A B} (m : M W A) (k : A → M W B) σ e σ' :
  m σ = (Raise e, σ') → bind m k σ = (Raise e, σ').
Proof. unfold bind. by intros ->. Qed.

Lemma bind_assoc {A B C} (m : M W A) (f : A → M W B) (g : B → M W C) σ :
  bind (bind m f) g σ = bind m (λ x, bind (f x) g) σ.
Proof. unfold bind. by destruct (m σ) as [[a|e] σ']. Qed.

Lemma bind_ret {A B} (a : A) (k : A → M W B) σ : bind (ret a) k σ = k a σ.
Proof. done. Qed.

Lemma bind_emit {B} (s : signal) (k : () → M W B) σ :
  bind (emit s) k σ = k () (add_signal σ s).
Proof. done. Qed.

Lemma try_ok {A} (m : M W A) (h : string → M W A) σ a σ' :
  m σ = (Ok a, σ') → try_except m h σ = (Ok a, σ').
Proof. unfold try_except. by intros ->. Qed.

Lemma try_raise {A} (m : M W A) (h : string → M W A) σ e σ' :
  m σ = (Raise e, σ') → try_except m h σ = h e σ'.
Proof. unfold try_except. by intros ->. Qed.

Lemma remote_call_eq {A} (c : call) (f : W → res A * W) σ r w' :
  f (world σ) = (r, w') → remote_call c f σ = (r, add_call σ c w').
Proof. unfold remote_call. by intros ->. Qed.

End MonadFacts.

Ltac mnorm :=
  repeat first [rewrite bind_assoc | rewrite bind_ret | rewrite bind_emit];
  cbv beta.

(** ** The collection loops *)

Section PlanFacts.
Import PreviewWorker.
Implicit Types (D : gset string) (loc : locals) (x : string * track).

Lemma truthy_Some v : Py.truthy (Some v) = negb (bool_decide (v = "")).
Proof.
  unfold Py.truthy. f_equal.
  destruct (String.eqb_spec v ""); [by rewrite bool_decide_true|by rewrite bool_decide_false].
Qed.

Lemma truthy_inv o : Py.truthy o = true → ∃ v, o = Some v ∧ v ≠ "".
Proof.
  destruct o as [v|]; [|done]. rewrite truthy_Some.
  intros H. exists v. split; [done|].
  apply negb_true_iff, bool_decide_eq_false in H. done.
Qed.

Lemma process_track_classify D src tr loc :
  process_track D src tr loc
  = apply_verdict (classify D (seen_ids loc) (track_video_id tr))
                  (src_title src, tr) loc.
Proof.
  assert (Hinfo : ∀ o, track_video_id tr = o →
            mkInfo (Py.get_default (tr_title tr) "Unknown") (get_artist_text tr)
                   (get_duration_text tr) (src_title src) o None
            = info_of (src_title src, tr)).
  { intros o <-. done. }
  unfold process_track, classify.
  destruct (track_video_id tr) as [v|] eqn:Hv; cbv zeta.
  2:{ simpl. rewrite (Hinfo _ eq_refl). done. }
  rewrite truthy_Some, negb_involutive, (Hinfo _ eq_refl). unfold mem.
  destruct (decide (v = "")) as [->|Hne].
  { by rewrite bool_decide_true by done. }
  rewrite bool_decide_false by done.
  destruct (decide (v ∈ D)).
  { by rewrite bool_decide_true by done. }
  rewrite bool_decide_false by done.
  destruct (decide (v ∈ seen_ids loc)).
  { by rewrite bool_decide_true by done. }
  rewrite bool_decide_false by done.
  unfold apply_verdict. simpl. rewrite Hv. f_equal.
  unfold add. apply (comm_L (∪)).
Qed.

Lemma process_liked_track_eq D pid tr loc :
  process_liked_track D tr loc
  = process_track D (mkSource "Liked Songs" pid) tr loc.
Proof. reflexivity. Qed.

Lemma plan_step_classify D loc x :
  plan_step D loc x
  = apply_verdict (classify D (seen_ids loc) (track_video_id x.2)) x loc.
Proof. unfold plan_step. rewrite process_track_classify. by destruct x. Qed.

Lemma plan_snoc D l x loc : plan D (l ++ [x]) loc = plan_step D (plan D l loc) x.
Proof. unfold plan. by rewrite fold_left_app. Qed.

Lemma plan_app D l k loc : plan D (l ++ k) loc = plan D k (plan D l loc).
Proof. unfold plan. by rewrite fold_left_app. Qed.

Lemma fold_process_track D src trs loc :
  fold_left (λ loc tr, process_track D src tr loc) trs loc
  = plan D (pair (src_title src) <$> trs) loc.
Proof.
  revert loc. induction trs as [|tr trs IH]; intros loc; [done|].
  simpl. rewrite IH. unfold plan. simpl. f_equal.
Qed.

Lemma fold_process_liked_track D trs loc :
  fold_left (λ loc tr, process_liked_track D tr loc) trs loc
  = plan D (pair "Liked Songs" <$> trs) loc.
Proof.
  revert loc. induction trs as [|tr trs IH]; intros loc; [done|].
  simpl. rewrite IH. unfold plan. simpl. f_equal.
Qed.

(** *** Interleavings *)

Lemma interleave_snoc_left {A} (a b l : list A) (y : A) :
  interleave a b l → interleave (a ++ [y]) b (l ++ [y]).
Proof.
  induction 1; simpl; try (constructor; done).
  repeat constructor.
Qed.

Lemma interleave_snoc_right {A} (a b l : list A) (y : A) :
  interleave a b l → interleave a (b ++ [y]) (l ++ [y]).
Proof.
  induction 1; simpl; try (constructor; done).
  repeat constructor.
Qed.

Lemma interleave_length {A} (a b l : list A) :
  interleave a b l → length l = (length a + length b)%nat.
Proof. induction 1; simpl; lia. Qed.

Lemma interleave_elem_of {A} (a b l : list A) (y : A) :
  interleave a b l → y ∈ l ↔ y ∈ a ∨ y ∈ b.
Proof.
  induction 1 as [|z a b l _ IH|z a b l _ IH].
  - split; [by intros ?%elem_of_nil|by intros [?%elem_of_nil|?%elem_of_nil]].
  - rewrite !elem_of_cons, IH. tauto.
  - rewrite !elem_of_cons, IH. tauto.
Qed.

Lemma interleave_sublist_left {A} (a b l : list A) :
  interleave a b l → a `sublist_of` l.
Proof. induction 1; by constructor. Qed.

(** *** First-seen selection *)

Lemma first_seen_app D e l k :
  first_seen D e (l ++ k) = first_seen D e l ++ first_seen D (e ++ l) k.
Proof.
  revert e. induction l as [|x l IH]; intros e; simpl.
  { by rewrite app_nil_r. }
  rewrite IH, <-!app_assoc. done.
Qed.

Lemma first_seen_sublist D e l : first_seen D e l `sublist_of` l.
Proof.
  revert e. induction l as [|x l IH]; intros e; simpl; [done|].
  destruct (fresh D e x); simpl; by constructor.
Qed.

Lemma first_seen_fresh D e l x :
  x ∈ first_seen D e l →
  Py.truthy (track_video_id x.2) = true
  ∧ mem (track_video_id x.2) D = false
  ∧ track_video_id x.2 ∉ (track_video_id ∘ snd) <$> e.
Proof.
  revert e. induction l as [|y l IH]; intros e; simpl; [by intros ?%elem_of_nil|].
  rewrite elem_of_app. intros [Hx|Hx].
  - destruct (fresh D e y) eqn:Hf; [|by apply elem_of_nil in Hx].
    apply list_elem_of_singleton in Hx as ->.
    unfold fresh in Hf.
    apply andb_true_iff in Hf as [[H1 H2]%andb_true_iff H3].
    apply negb_true_iff in H2. apply bool_decide_eq_true in H3. done.
  - apply IH in Hx as (H1 & H2 & H3). split_and!; [done..|].
    intros Hin. apply H3. rewrite fmap_app, elem_of_app. by left.
Qed.

Lemma first_seen_NoDup D e l :
  NoDup ((track_video_id ∘ snd) <$> first_seen D e l).
Proof.
  revert e. induction l as [|y l IH]; intros e; simpl; [constructor|].
  destruct (fresh D e y); simpl; [|apply IH].
  constructor; [|apply IH].
  intros (x & Hx1 & Hx2)%list_elem_of_fmap.
  apply first_seen_fresh in Hx2 as (_ & _ & H3). apply H3.
  rewrite fmap_app, elem_of_app. right. simpl. rewrite Hx1.
  apply list_elem_of_singleton. done.
Qed.

(** *** The invariant of the collection loops *)

Lemma fresh_classify D l x loc :
  (∀ v, v ∈ seen_ids loc ↔
     v ≠ "" ∧ (v ∉ D) ∧ Some v ∈ ((track_video_id ∘ snd) <$> l)) →
  fresh D l x = true ↔ classify D (seen_ids loc) (track_video_id x.2) = Accept.
Proof.
  intros Hseen. unfold fresh, classify, mem.
  destruct (track_video_id x.2) as [v|]; [|done].
  rewrite truthy_Some.
  destruct (decide (v = "")) as [->|Hne].
  { by rewrite bool_decide_true. }
  rewrite bool_decide_false by done.
  destruct (decide (v ∈ D)).
  { by rewrite bool_decide_true. }
  rewrite bool_decide_false by done. simpl.
  destruct (decide (v ∈ seen_ids loc)) as [Hin|Hnin].
  - apply Hseen in Hin as (_ & _ & Hin).
    rewrite bool_decide_false; [done|]. by intros [].
  - rewrite bool_decide_true; [done|].
    intros Hin. apply Hnin, Hseen. done.
Qed.

Lemma plan_inv_init D : plan_inv D [] init_locals.
Proof.
  split; simpl; try done.
  - constructor.
  - intros v. split; [by intros ?%not_elem_of_empty|].
    by intros (_ & _ & ?%elem_of_nil).
Qed.

Lemma plan_inv_step D l x loc :
  plan_inv D l loc → plan_inv D (l ++ [x]) (plan_step D loc x).
Proof.
  intros [Hil Htot Hfs Hseen Hsk].
  pose proof (fresh_classify D l x loc Hseen) as Hfresh.
  rewrite plan_step_classify.
  assert (Hfs' : first_seen D [] (l ++ [x])
                 = first_seen D [] l ++ (if fresh D l x then [x] else [])).
  { rewrite first_seen_app. simpl. by rewrite app_nil_r. }
  assert (Hvids : ∀ v, Some v ∈ (track_video_id ∘ snd) <$> (l ++ [x]) ↔
                    Some v ∈ (track_video_id ∘ snd) <$> l
                    ∨ track_video_id x.2 = Some v).
  { intros v. rewrite fmap_app, elem_of_app. simpl.
    rewrite list_elem_of_singleton. naive_solver. }
  destruct (classify D (seen_ids loc) (track_video_id x.2)) eqn:Hc.
  4:{ (* accepted *)
    assert (fresh D l x = true) as Hf by by apply Hfresh.
    split; simpl.
    - rewrite fmap_app. by apply interleave_snoc_left.
    - rewrite length_app. simpl. lia.
    - rewrite Hfs', Hf, fmap_app, Hfs. done.
    - intros v. rewrite Hvids.
      unfold classify in Hc.
      destruct (track_video_id x.2) as [u|]; [|done].
      repeat case_decide; try done. simpl.
      rewrite elem_of_union, elem_of_singleton, Hseen.
      split; [|naive_solver].
      intros [->|?]; naive_solver.
    - done. }
  all: assert (fresh D l x = false) as Hf
    by (destruct (fresh D l x); [|done];
        by assert (@eq verdict _ Accept) by (by apply Hfresh)).
  all: split; simpl;
    [ rewrite !fmap_app; by apply interleave_snoc_right
    | rewrite length_app; simpl; lia
    | by rewrite Hfs', Hf, app_nil_r
    | | ].
  all: unfold classify in Hc; unfold skip_ok.
  all: destruct (track_video_id x.2) as [u|] eqn:Hu.
  all: repeat case_decide; simplify_eq.
  all: try (intros v; rewrite Hvids, Hseen; naive_solver).
  all: apply Forall_app; split; [done|]; apply Forall_singleton.
  all: unfold skip_ok, mem; cbn [ti_reason ti_video_id info_of reason_text snd].
  all: rewrite ?Hu.
  all: first
    [ left; split; [reflexivity|];
      rewrite ?truthy_Some, ?bool_decide_true by done; reflexivity
    | right; left; split_and!; [reflexivity|..];
      rewrite ?truthy_Some, ?bool_decide_true, ?bool_decide_false by done;
      reflexivity
    | right; right; split_and!; [reflexivity|..];
      rewrite ?truthy_Some, ?bool_decide_true, ?bool_decide_false by done;
      reflexivity ].
Qed.

Lemma plan_invariant D fetched : plan_inv D fetched (plan D fetched init_locals).
Proof.
  induction fetched as [|x l IH] using rev_ind.
  - apply plan_inv_init.
  - rewrite plan_snoc. by apply plan_inv_step.
Qed.

End PlanFacts.

(** ** The preview run *)

Section PreviewRun.
Context `{Py.Text} {W : Type} (yt : remote W).
Import PreviewWorker.
Implicit Types (σ : env W) (D : gset string) (loc : locals).

Lemma fetch_source_ok src σ :
  ∃ fs σ', fetch_source yt src σ = (Ok fs, σ').
Proof.
  unfold fetch_source. mnorm. unfold try_except, bind, ret.
  destruct (fetch_of yt src _) as [[trs|e] σ1]; eauto.
Qed.

Lemma fetch_sources_ok srcs σ :
  ∃ fs σ', fetch_sources yt srcs σ = (Ok fs, σ').
Proof.
  revert σ. induction srcs as [|src rest IH]; intros σ; simpl.
  { unfold ret. eauto. }
  destruct (fetch_source_ok src σ) as (a & σ1 & E1).
  destruct (IH σ1) as (b & σ2 & E2).
  rewrite (bind_ok _ _ _ _ _ E1), (bind_ok _ _ _ _ _ E2). unfold ret. eauto.
Qed.

Lemma fetch_liked_ok b σ :
  ∃ fl σ', fetch_liked yt b σ = (Ok fl, σ').
Proof.
  unfold fetch_liked. destruct b; [|unfold ret; eauto].
  mnorm. unfold try_except, bind, ret.
  destruct (get_liked_songs_tracks yt _ _) as [[trs|e] σ1]; eauto.
Qed.

Lemma process_source_fetch D src loc σ :
  process_source yt D src loc σ
  = (fs ← fetch_source yt src; ret (plan D fs loc)) σ.
Proof.
  unfold process_source, fetch_source. fold (fetch_of yt src). mnorm.
  unfold try_except, bind, ret.
  destruct (fetch_of yt src _) as [[trs|e] σ1]; [|done].
  by rewrite fold_process_track.
Qed.

Lemma for_each_process_source D srcs loc σ :
  for_each (process_source yt D) srcs loc σ
  = (fs ← fetch_sources yt srcs; ret (plan D fs loc)) σ.
Proof.
  revert loc σ. induction srcs as [|src rest IH]; intros loc σ; simpl; [done|].
  destruct (fetch_source_ok src σ) as (a & σ1 & E1).
  destruct (fetch_sources_ok rest σ1) as (b & σ2 & E2).
  erewrite bind_ok by (rewrite process_source_fetch, (bind_ok _ _ _ _ _ E1); done).
  rewrite IH. mnorm.
  rewrite (bind_ok _ _ _ _ _ E2), (bind_ok _ _ _ _ _ E1). mnorm.
  rewrite (bind_ok _ _ _ _ _ E2). mnorm. by rewrite plan_app.
Qed.

Lemma process_liked_fetch D (b : bool) loc σ :
  (if b then process_liked yt D loc else ret loc) σ
  = (fl ← fetch_liked yt b; ret (plan D fl loc)) σ.
Proof.
  destruct b; [|done].
  unfold process_liked, fetch_liked. mnorm. unfold try_except, bind, ret.
  destruct (get_liked_songs_tracks yt _ _) as [[trs|e] σ1]; [|done].
  by rewrite fold_process_liked_track.
Qed.

Lemma count_reason_ok reason l :
  Forall (λ ti, is_Some (ti_reason ti)) l →
  count_reason reason l = Ok (count_skipped reason l).
Proof.
  unfold count_skipped. induction 1 as [|ti l [r Hr] _ IH]; [done|].
  simpl. rewrite Hr, IH. f_equal.
  rewrite filter_cons. destruct (String.eqb_spec r reason) as [->|Hne].
  - by rewrite decide_True by by rewrite Hr.
  - rewrite decide_False; [done|]. rewrite Hr. congruence.
Qed.

Lemma skip_ok_reason D ti : skip_ok D ti → is_Some (ti_reason ti).
Proof. intros [[-> _]|[[-> _]|[-> _]]]; eauto. Qed.

Lemma make_stats_ok D fetched dest_id σ :
  make_stats (W:=W) (plan D fetched init_locals) dest_id σ
  = (Ok (stats_of (plan D fetched init_locals) dest_id), σ).
Proof.
  assert (Forall (λ ti, is_Some (ti_reason ti))
                 (skipped (plan D fetched init_locals))) as Hs.
  { eapply Forall_impl; [apply (inv_skipped _ _ _ (plan_invariant D fetched))|].
    apply skip_ok_reason. }
  unfold make_stats, bind, lift, ret.
  by rewrite !count_reason_ok.
Qed.

(** The run is its gathering phase followed by the plan over what was
    gathered. *)
Lemma run_gather self σ :
  run yt self σ =
  match gather yt self σ with
  | (Ok (dest_id, D, fs, fl), σ') =>
      (Ok (), add_signal σ'
                (PreviewDone true "Preview generated successfully"
                   (Some (report dest_id (plan D (fs ++ fl) init_locals)))))
  | (Raise e, σ') =>
      (Ok (), add_signal σ'
                (PreviewDone false ("Failed to generate preview: " +:+ e) None))
  end.
Proof.
  unfold run, gather, prologue, try_except. mnorm.
  destruct (YTMusic yt (auth_path self) σ) as [[[]|e] σ1] eqn:E1.
  2:{ by rewrite !(bind_raise _ _ _ _ _ E1). }
  rewrite !(bind_ok _ _ _ _ _ E1). mnorm.
  match goal with
  | |- context [bind (get_library_playlists yt 10000) _ ?s] =>
      destruct (get_library_playlists yt 10000 s) as [[pls|e] σ2] eqn:E2
  end.
  2:{ by rewrite !(bind_raise _ _ _ _ _ E2). }
  rewrite !(bind_ok _ _ _ _ _ E2). mnorm.
  destruct (read_destination yt (find_dest (dest_title self) pls) σ2)
    as [[D|e] σ3] eqn:E3.
  2:{ by rewrite !(bind_raise _ _ _ _ _ E3). }
  rewrite !(bind_ok _ _ _ _ _ E3). mnorm.
  destruct (fetch_sources_ok (sources self) σ3) as (fs & σ4 & E4).
  destruct (fetch_liked_ok (include_liked self) σ4) as (fl & σ5 & E5).
  erewrite bind_ok
    by (rewrite for_each_process_source, (bind_ok _ _ _ _ _ E4); done).
  erewrite bind_ok
    by (rewrite process_liked_fetch, (bind_ok _ _ _ _ _ E5); done).
  rewrite <-plan_app.
  erewrite bind_ok by apply make_stats_ok.
  rewrite (bind_ok _ _ _ _ _ E4). mnorm. rewrite (bind_ok _ _ _ _ _ E5).
  done.
Qed.

End PreviewRun.

(** ** Batches *)

Section BatchFacts.
Implicit Types (l : list string).

Lemma range0_length n : length (Py.range0 n 50) = ((n + 49) / 50)%nat.
Proof.
  unfold Py.range0. rewrite length_fmap, length_seq.
  by replace (n + 50 - 1)%nat with (n + 49)%nat by lia.
Qed.

Lemma batches_length l : length (batches l) = ((length l + 49) / 50)%nat.
Proof. unfold batches. by rewrite length_fmap, range0_length. Qed.

Lemma batches_lookup l k :
  (k < length (batches l))%nat →
  batches l !! k = Some (take 50 (drop (k * 50) l)).
Proof.
  rewrite batches_length. intros Hk.
  unfold batches, Py.range0, PublishWorker.batch_size.
  replace (length l + 50 - 1)%nat with (length l + 49)%nat by lia.
  rewrite !list_lookup_fmap, lookup_seq_lt by lia. simpl.
  unfold Py.slice. do 2 f_equal. lia.
Qed.

Lemma concat_take_batches l k :
  (k ≤ length (batches l))%nat →
  concat (take k (batches l)) = take (k * 50) l.
Proof.
  induction k as [|k IH]; intros Hk; [done|].
  rewrite (take_S_r _ _ _ (batches_lookup l k ltac:(lia))).
  rewrite concat_app, IH by lia. simpl. rewrite app_nil_r.
  rewrite take_take_drop. f_equal. lia.
Qed.

Lemma div_bounds n : (50 * ((n + 49) / 50) < n + 50 ∧ n ≤ 50 * ((n + 49) / 50))%nat.
Proof.
  pose proof (Nat.div_mod_eq (n + 49) 50).
  pose proof (Nat.mod_upper_bound (n + 49) 50). lia.
Qed.

Lemma concat_batches l : concat (batches l) = l.
Proof.
  rewrite <-(firstn_all (batches l)).
  rewrite concat_take_batches by done.
  rewrite batches_length. apply take_ge.
  pose proof (div_bounds (length l)). lia.
Qed.

Lemma batch_size_bounds l k b :
  batches l !! k = Some b →
  (1 ≤ length b ≤ 50)%nat
  ∧ ((S k < length (batches l))%nat → length b = 50%nat)
  ∧ length b = (length l `min` (S k * 50) - k * 50)%nat.
Proof.
  intros Hb. pose proof (lookup_lt_Some _ _ _ Hb) as Hk.
  rewrite batches_lookup in Hb by done. injection Hb as <-.
  rewrite batches_length in *.
  rewrite length_take, length_drop.
  pose proof (div_bounds (length l)). lia.
Qed.

Lemma progress_after_eq l k :
  (k < length (batches l))%nat →
  progress_after l k
  = (((k * 50 + length (Py.slice l (k * 50) (k * 50 + 50))) * 100)
       / length l)%nat.
Proof.
  intros Hk. unfold progress_after.
  rewrite concat_take_batches by lia.
  unfold Py.slice. rewrite length_take, length_take, length_drop.
  f_equal. f_equal.
  rewrite batches_length in Hk.
  pose proof (div_bounds (length l)). lia.
Qed.

Lemma progress_after_last l :
  l ≠ [] → progress_after l (length (batches l) - 1) = 100%nat.
Proof.
  intros Hl. unfold progress_after.
  assert (0 < length l)%nat by (destruct l; simpl; [done|lia]).
  assert (0 < length (batches l))%nat.
  { rewrite batches_length. pose proof (div_bounds (length l)). lia. }
  replace (S (length (batches l) - 1)) with (length (batches l)) by lia.
  rewrite firstn_all, concat_batches.
  rewrite Nat.mul_comm. apply Nat.div_mul. lia.
Qed.

Lemma progress_after_mono l i j :
  (i ≤ j)%nat → (progress_after l i ≤ progress_after l j)%nat.
Proof.
  intros Hij. unfold progress_after.
  apply Nat.Div0.div_le_mono, Nat.mul_le_mono_r.
  rewrite <-(take_drop (S i) (take (S j) (batches l))).
  rewrite take_take, Nat.min_l by lia.
  rewrite concat_app, length_app. lia.
Qed.

Example batches_120 : length <$> batches (Fake.ids 120) = [50; 50; 20]%nat.
Proof. vm_compute. reflexivity. Qed.

End BatchFacts.

(** ** The publish run *)

Section PublishRun.
Context `{Py.Text} {W : Type} (yt : remote W).
Import PublishWorker.
Implicit Types (σ : env W).


Lemma write_batches_bound id bs w k err w' :
  write_batches yt id bs w = (k, err, w') →
  match err with
  | None => k = length bs
  | Some _ => (k < length bs)%nat
  end.
Proof.
  revert w k. induction bs as [|b bs IH]; intros w k; simpl.
  { by intros [= <- <- <-]. }
  destruct (yt_add_playlist_items yt id b false w) as [[[]|e] w1].
  - destruct (write_batches yt id bs w1) as [[k1 err1] w2] eqn:E.
    intros [= <- <- <-]. apply IH in E. destruct err1; lia.
  - intros [= <- <- <-]. lia.
Qed.

(** The batch loop from batch number [j] on. *)
Lemma add_loop self id (j m : nat) σ :
  let vids := video_ids self in
  (j + m = length (batches vids))%nat →
  ∀ k err w',
  write_batches yt id (drop j (batches vids)) (world σ) = (k, err, w') →
  for_each (add_batch yt self id
              ((length vids + batch_size - 1) / batch_size))
           ((λ k, k * batch_size)%nat <$> seq j m) () σ
  = match err with
    | None =>
        (Ok (),
         mkEnv w'
           (calls σ ++ ((λ b, CallAddPlaylistItems id b false)
                          <$> take k (drop j (batches vids))))
           (signals σ ++ concat ((λ j, [batch_status vids j;
                                        Progress (progress_after vids j)])
                                   <$> seq j k)))
    | Some e =>
        (Raise e,
         mkEnv w'
           (calls σ ++ ((λ b, CallAddPlaylistItems id b false)
                          <$> take (S k) (drop j (batches vids))))
           (signals σ ++ concat ((λ j, [batch_status vids j;
                                        Progress (progress_after vids j)])
                                   <$> seq j k)
              ++ [batch_status vids (j + k)]))
    end.
Proof.
  intros vids. revert j σ. induction m as [|m IH]; intros j σ Hjm k err w'.
  { rewrite drop_ge by lia. simpl. intros [= <- <- <-]. simpl.
    rewrite !app_nil_r. by destruct σ. }
  assert (Hj : (j < length (batches vids))%nat) by lia.
  pose proof (batches_lookup vids j Hj) as Hb.
  rewrite (drop_S _ _ _ Hb).
  cbn [fmap list_fmap seq for_each write_batches].
  unfold add_batch at 1. cbv zeta. mnorm.
  assert (Hslice : Py.slice (video_ids self) (j * batch_size)
                            (j * batch_size + batch_size)
                   = take 50 (drop (j * 50) vids)).
  { unfold Py.slice, batch_size. f_equal. lia. }
  rewrite Hslice.
  assert (Hstatus :
    Status ("Adding batch " +:+ pretty (j * batch_size / batch_size + 1)%nat
            +:+ "/" +:+ pretty ((length vids + batch_size - 1) / batch_size)%nat
            +:+ "...") = batch_status vids j).
  { unfold batch_status, batch_size. rewrite batches_length.
    rewrite Nat.div_mul by done.
    by replace (length vids + 50 - 1)%nat with (length vids + 49)%nat by lia. }
  rewrite Hstatus.
  assert (Hpct : ((j * batch_size + length (take 50 (drop (j * 50) vids))) * 100
                  / length (video_ids self))%nat = progress_after vids j).
  { rewrite progress_after_eq by done. unfold Py.slice, batch_size.
    by replace (j * 50 + 50 - j * 50)%nat with 50%nat by lia. }
  rewrite Hpct.
  unfold add_playlist_items.
  destruct (yt_add_playlist_items yt id (take 50 (drop (j * 50) vids)) false
              (world σ)) as [[[]|e] w1] eqn:Eadd.
  - destruct (write_batches yt id (drop (S j) (batches vids)) w1)
      as [[k1 err1] w2] eqn:Ew.
    intros [= <- <- <-].
    erewrite bind_ok; [|by apply remote_call_eq]. mnorm.
    erewrite (IH (S j) (add_signal (add_call (add_signal σ _) _ w1) _)
                 ltac:(lia) k1 err1 w2 Ew).
    destruct err1 as [e|]; simpl.
    + rewrite <-!app_assoc. simpl. do 3 f_equal.
      by replace (j + S k1)%nat with (S (j + k1)) by lia.
    + rewrite <-!app_assoc. simpl. done.
  - intros [= <- <- <-].
    erewrite bind_raise; [|by apply remote_call_eq].
    simpl. rewrite Nat.add_0_r. done.
Qed.

Lemma add_loop_all self id σ k err w' :
  write_batches yt id (batches (video_ids self)) (world σ) = (k, err, w') →
  (match video_ids self with
   | [] => ret ()
   | _ :: _ =>
       for_each (add_batch yt self id
                   ((length (video_ids self) + batch_size - 1) / batch_size))
                (Py.range0 (length (video_ids self)) batch_size) ()
   end) σ
  = match err with
    | None =>
        (Ok (),
         mkEnv w'
           (calls σ ++ ((λ b, CallAddPlaylistItems id b false)
                          <$> take k (batches (video_ids self))))
           (signals σ ++ batch_signals (video_ids self) k))
    | Some e =>
        (Raise e,
         mkEnv w'
           (calls σ ++ ((λ b, CallAddPlaylistItems id b false)
                          <$> take (S k) (batches (video_ids self))))
           (signals σ ++ batch_signals (video_ids self) k
              ++ [batch_status (video_ids self) k]))
    end.
Proof.
  intros Hw.
  assert (Hlen : ((length (video_ids self) + batch_size - 1) / batch_size)%nat
                 = length (batches (video_ids self))).
  { rewrite batches_length. unfold batch_size. f_equal. lia. }
  pose proof (add_loop self id 0 (length (batches (video_ids self))) σ
                eq_refl k err w' Hw) as Hloop.
  cbv zeta in Hloop. rewrite drop_0 in Hloop.
  destruct (video_ids self) as [|v vids] eqn:Hv.
  - vm_compute in Hw. injection Hw as <- <- <-.
    unfold ret, batch_signals. simpl. rewrite !app_nil_r. by destruct σ.
  - unfold Py.range0. rewrite Hlen in Hloop |- *. exact Hloop.
Qed.

Lemma run_resolve self σ :
  run yt self σ =
  match resolve yt self σ with
  | (Raise e, σ1) =>
      (Ok (), add_signal σ1 (PublishDone false ("Publishing failed: " +:+ e) ""))
  | (Ok id, σ1) =>
      let '(k, err, w') :=
        write_batches yt id (batches (video_ids self)) (world σ1) in
      (Ok (), publish_final self id σ1 k err w')
  end.
Proof.
  assert (Hsplit : run yt self σ =
    try_except
      (dest_id ← resolve yt self;
       (match video_ids self with
        | [] => ret ()
        | _ :: _ =>
            for_each (add_batch yt self dest_id
                        ((length (video_ids self) + batch_size - 1) / batch_size))
                     (Py.range0 (length (video_ids self)) batch_size) ()
        end);;
       emit (PublishDone true
               ("Successfully added " +:+ pretty (length (video_ids self))
                +:+ " tracks!") (playlist_url dest_id)))
      (λ e, emit (PublishDone false ("Publishing failed: " +:+ e) "")) σ).
  { unfold run, resolve, try_except. mnorm.
    destruct (YTMusic yt (auth_path self) σ) as [[[]|e] σ1] eqn:E1.
    2:{ by rewrite !(bind_raise _ _ _ _ _ E1). }
    rewrite !(bind_ok _ _ _ _ _ E1). mnorm.
    match goal with
    | |- context [bind (get_library_playlists yt 10000) _ ?s] =>
        destruct (get_library_playlists yt 10000 s) as [[pls|e] σ2] eqn:E2
    end.
    2:{ by rewrite !(bind_raise _ _ _ _ _ E2). }
    rewrite !(bind_ok _ _ _ _ _ E2). mnorm. done. }
  rewrite Hsplit. unfold try_except.
  destruct (resolve yt self σ) as [[id|e] σ1] eqn:Er.
  2:{ by rewrite (bind_raise _ _ _ _ _ Er). }
  rewrite (bind_ok _ _ _ _ _ Er).
  destruct (write_batches yt id (batches (video_ids self)) (world σ1))
    as [[k err] w'] eqn:Ew.
  pose proof (add_loop_all self id σ1 k err w' Ew) as Hloop.
  destruct err as [e|].
  - rewrite (bind_raise _ _ _ _ _ Hloop). unfold emit, publish_final. simpl.
    by rewrite <-!app_assoc.
  - rewrite (bind_ok _ _ _ _ _ Hloop). unfold emit, publish_final. simpl.
    by rewrite <-!app_assoc.
Qed.

(** The destination phase of a publish, call by call. *)
Lemma resolve_cases self σ :
  resolve yt self σ =
  match yt_open yt (auth_path self) (world σ) with
  | (Raise e, w1) => (Raise e, add_call σ (CallOpen (auth_path self)) w1)
  | (Ok _, w1) =>
      let σ1 := add_signal (add_call σ (CallOpen (auth_path self)) w1)
                           (Status "Finding destination playlist...") in
      match yt_get_library_playlists yt 10000 w1 with
      | (Raise e, w2) => (Raise e, add_call σ1 (CallLibraryPlaylists 10000) w2)
      | (Ok pls, w2) =>
          let σ2 := add_call σ1 (CallLibraryPlaylists 10000) w2 in
          let d := find_dest (dest_title self) pls in
          if Py.truthy d then (Ok (default "" d), σ2)
          else
            let '(r, w3) :=
              yt_create_playlist yt (dest_title self) (description self)
                                 (privacy self) w2 in
            (r, add_call
                  (add_signal σ2 (Status ("Creating new playlist: "
                                          +:+ dest_title self)))
                  (CallCreatePlaylist (dest_title self) (description self)
                                      (privacy self)) w3)
      end
  end.
Proof.
  unfold resolve, YTMusic, get_library_playlists, create_playlist.
  destruct (yt_open yt (auth_path self) (world σ)) as [[[]|e] w1] eqn:E1.
  2:{ erewrite bind_raise; [done|by apply remote_call_eq]. }
  erewrite bind_ok; [|by apply remote_call_eq]. mnorm.
  destruct (yt_get_library_playlists yt 10000 w1) as [[pls|e] w2] eqn:E2.
  2:{ erewrite bind_raise; [done|by apply remote_call_eq]. }
  erewrite bind_ok; [|by apply remote_call_eq]. cbv zeta.
  destruct (Py.truthy (find_dest (dest_title self) pls)); simpl; [done|].
  mnorm.
  destruct (yt_create_playlist yt _ _ _ w2) as [r w3] eqn:E3.
  by apply remote_call_eq.
Qed.

End PublishRun.

(** ** Phases of the preview run *)

Section PreviewPhases.
Context `{Py.Text} {W : Type} (yt : remote W).
Import PreviewWorker.
Implicit Types (σ : env W) (D : gset string) (loc : locals).

Lemma tracks_fetch id σ :
  (if String.eqb id "LM" then get_liked_songs_tracks yt 100000
   else get_watch_playlist_tracks yt id 10000) σ
  = match tracks_answer yt id (world σ) with
    | (Ok r, w') => (Ok (default [] r), add_call σ (tracks_call id) w')
    | (Raise e, w') => (Raise e, add_call σ (tracks_call id) w')
    end.
Proof.
  unfold tracks_answer, tracks_call, get_liked_songs_tracks,
    get_watch_playlist_tracks.
  destruct (String.eqb id "LM").
  - destruct (yt_get_liked_songs yt 100000 (world σ)) as [[r|e] w'] eqn:E.
    + erewrite bind_ok; [|by apply remote_call_eq]. done.
    + erewrite bind_raise; [|by apply remote_call_eq]. done.
  - destruct (yt_get_watch_playlist yt id 10000 (world σ)) as [[r|e] w'] eqn:E.
    + erewrite bind_ok; [|by apply remote_call_eq]. done.
    + erewrite bind_raise; [|by apply remote_call_eq]. done.
Qed.

Lemma read_destination_cases d σ :
  read_destination yt d σ =
  if Py.truthy d then
    let σ1 := add_signal σ (Status "Reading existing tracks in destination...") in
    match tracks_answer yt (default "" d) (world σ) with
    | (Ok r, w') =>
        (Ok (existing_ids (default [] r)),
         add_call σ1 (tracks_call (default "" d)) w')
    | (Raise e, w') => (Ok ∅, add_call σ1 (tracks_call (default "" d)) w')
    end
  else (Ok ∅, σ).
Proof.
  unfold read_destination. destruct (Py.truthy d); [|done].
  cbv zeta. mnorm. unfold try_except.
  pose proof (tracks_fetch (default "" d)
                (add_signal σ (Status "Reading existing tracks in destination...")))
    as Hf.
  cbn [world add_signal] in Hf.
  destruct (tracks_answer yt (default "" d) (world σ)) as [[r|e] w'].
  - by rewrite (bind_ok _ _ _ _ _ Hf).
  - by rewrite (bind_raise _ _ _ _ _ Hf).
Qed.

Lemma read_destination_ok d σ :
  ∃ D σ', read_destination yt d σ = (Ok D, σ').
Proof.
  rewrite read_destination_cases. destruct (Py.truthy d); [|eauto].
  cbv zeta. destruct (tracks_answer yt _ _) as [[r|e] w']; eauto.
Qed.

Lemma prologue_cases self σ :
  prologue yt self σ =
  match yt_open yt (auth_path self) (world σ) with
  | (Raise e, w1) => (Raise e, add_call σ (CallOpen (auth_path self)) w1)
  | (Ok _, w1) =>
      let σ1 := add_signal (add_call σ (CallOpen (auth_path self)) w1)
                           (Status "Checking destination playlist...") in
      match yt_get_library_playlists yt 10000 w1 with
      | (Raise e, w2) => (Raise e, add_call σ1 (CallLibraryPlaylists 10000) w2)
      | (Ok pls, w2) =>
          let d := find_dest (dest_title self) pls in
          let '(r, σ3) :=
            read_destination yt d (add_call σ1 (CallLibraryPlaylists 10000) w2) in
          (match r with Ok D => Ok (d, D) | Raise e => Raise e end, σ3)
      end
  end.
Proof.
  unfold prologue, YTMusic, get_library_playlists.
  destruct (yt_open yt (auth_path self) (world σ)) as [[[]|e] w1] eqn:E1.
  2:{ erewrite bind_raise; [done|by apply remote_call_eq]. }
  erewrite bind_ok; [|by apply remote_call_eq]. mnorm.
  destruct (yt_get_library_playlists yt 10000 w1) as [[pls|e] w2] eqn:E2.
  2:{ erewrite bind_raise; [done|by apply remote_call_eq]. }
  erewrite bind_ok; [|by apply remote_call_eq]. cbv zeta.
  unfold bind, ret.
  by destruct (read_destination yt _ _) as [[D|e] σ3].
Qed.

Lemma gather_prologue self σ :
  match prologue yt self σ with
  | (Ok p, σ1) =>
      ∃ fs fl σ', gather yt self σ = (Ok (p.1, p.2, fs, fl), σ')
  | (Raise e, σ1) => gather yt self σ = (Raise e, σ1)
  end.
Proof.
  unfold gather.
  destruct (prologue yt self σ) as [[p|e] σ1] eqn:Ep.
  2:{ by rewrite (bind_raise _ _ _ _ _ Ep). }
  rewrite (bind_ok _ _ _ _ _ Ep).
  destruct (fetch_sources_ok yt (sources self) σ1) as (fs & σ2 & E2).
  destruct (fetch_liked_ok yt (include_liked self) σ2) as (fl & σ3 & E3).
  rewrite (bind_ok _ _ _ _ _ E2), (bind_ok _ _ _ _ _ E3). unfold ret. eauto.
Qed.

Lemma outcome_gather self σ :
  outcome yt self σ =
  match gather yt self σ with
  | (Ok (dest_id, D, fs, fl), _) =>
      Some (PreviewDone true "Preview generated successfully"
              (Some (report dest_id (plan D (fs ++ fl) init_locals))))
  | (Raise e, _) =>
      Some (PreviewDone false ("Failed to generate preview: " +:+ e) None)
  end.
Proof.
  unfold outcome. rewrite run_gather.
  destruct (gather yt self σ) as [[[[[d D] fs] fl]|e] σ']; simpl;
    by rewrite last_snoc.
Qed.

(** A reported plan is the plan over what the run gathered. *)
Lemma plan_of_gathered self σ data :
  plan_of yt self σ = Some data →
  ∃ dest_id,
    data = report dest_id
             (plan (dest_ids yt self σ)
                   (fetched_sources yt self σ ++ fetched_liked yt self σ)
                   init_locals).
Proof.
  unfold plan_of, dest_ids, fetched_sources, fetched_liked, value_of.
  rewrite outcome_gather.
  destruct (gather yt self σ) as [[[[[d D] fs] fl]|e] σ']; [|done].
  intros [= <-]. eauto.
Qed.

(** Once the client is open and the library is listed, a plan is
    reported. *)
Lemma outcome_after_listing self σ w1 pls w2 :
  yt_open yt (auth_path self) (world σ) = (Ok (), w1) →
  yt_get_library_playlists yt 10000 w1 = (Ok pls, w2) →
  ∃ D σ2 σ3 fs fl,
    read_destination yt (find_dest (dest_title self) pls) σ2 = (Ok D, σ3)
    ∧ world σ2 = w2
    ∧ dest_ids yt self σ = D
    ∧ fetched_sources yt self σ = fs
    ∧ fetched_liked yt self σ = fl
    ∧ outcome yt self σ =
        Some (PreviewDone true "Preview generated successfully"
                (Some (report (find_dest (dest_title self) pls)
                              (plan D (fs ++ fl) init_locals)))).
Proof.
  intros E1 E2.
  pose proof (prologue_cases self σ) as Hp. rewrite E1, E2 in Hp.
  cbv zeta in Hp.
  set (σ2 := add_call _ (CallLibraryPlaylists 10000) w2) in Hp.
  destruct (read_destination_ok (find_dest (dest_title self) pls) σ2)
    as (D & σ3 & Er).
  rewrite Er in Hp.
  pose proof (gather_prologue self σ) as Hg. rewrite Hp in Hg.
  destruct Hg as (fs & fl & σ' & Hg). simpl in Hg.
  exists D, σ2, σ3, fs, fl. split_and!; [done|done|..].
  1-3: unfold dest_ids, fetched_sources, fetched_liked, value_of;
       by rewrite Hg.
  rewrite outcome_gather, Hg. done.
Qed.

End PreviewPhases.




(** ** The merge plan *)

Section PlanClaims.
Context `{Py.Text} {W : Type} (yt : remote W).
Import PreviewWorker.
Implicit Types (σ : env W) (self : t).

(** C1.  In every plan a preview run reports, the entries to add and
    the skipped entries are an interleaving of the entries of the
    fetched tracks, playlist sources first and liked songs last: every
    fetched track is in exactly one of the two lists.  The statistic
    "Total tracks processed" is the number of fetched tracks and equals
    [|to_add| + |skipped|]. *)
Theorem plan_partitions_fetched_tracks self σ data :
  plan_of yt self σ = Some data →
  let fetched := fetched_sources yt self σ ++ fetched_liked yt self σ in
  interleave (pd_to_add data) (clear_reason <$> pd_skipped data)
             (info_of <$> fetched)
  ∧ stat "Total tracks processed" (pd_stats data)
    = Some (SInt (length (pd_to_add data) + length (pd_skipped data)))
  ∧ length fetched = (length (pd_to_add data) + length (pd_skipped data))%nat
  ∧ stat "Tracks to add" (pd_stats data) = Some (SInt (length (pd_to_add data)))
  ∧ stat "Tracks skipped" (pd_stats data)
    = Some (SInt (length (pd_skipped data))).
Proof.
  intros (dest_id & ->)%plan_of_gathered fetched.
  destruct (plan_invariant (dest_ids yt self σ) fetched) as [Hil Htot _ _ _].
  fold fetched. simpl.
  pose proof (interleave_length _ _ _ Hil) as Hlen.
  rewrite !length_fmap in Hlen.
  split_and!; [done| |done|done|done].
  unfold stat, stats_of. simpl. rewrite Htot, Hlen. done.
Qed.

(** C3.  The entries to add are the first-seen selection of the fetched
    tracks, in fetched order: first the selection among the playlist
    sources, then the selection among the liked songs, made against the
    same destination set and against everything the playlist sources
    delivered.  The reported lists are those of the liked-songs pass
    started from the variables the source loop left. *)
Theorem to_add_keeps_first_seen_order self σ data :
  plan_of yt self σ = Some data →
  let D := dest_ids yt self σ in
  let fs := fetched_sources yt self σ in
  let fl := fetched_liked yt self σ in
  pd_to_add data
  = (info_of <$> first_seen D [] fs) ++ (info_of <$> first_seen D fs fl)
  ∧ pd_to_add data = info_of <$> first_seen D [] (fs ++ fl)
  ∧ pd_to_add data `sublist_of` (info_of <$> (fs ++ fl))
  ∧ to_add (plan D fs init_locals) = info_of <$> first_seen D [] fs
  ∧ pd_to_add data = to_add (plan D fl (plan D fs init_locals))
  ∧ pd_skipped data = skipped (plan D fl (plan D fs init_locals)).
Proof.
  intros (dest_id & ->)%plan_of_gathered D fs fl. fold D fs fl.
  destruct (plan_invariant D (fs ++ fl)) as [_ _ Hfirst _ _].
  simpl. rewrite <-plan_app, Hfirst.
  split_and!; [|done| | |done|done].
  - by rewrite first_seen_app, fmap_app.
  - apply fmap_sublist, first_seen_sublist.
  - apply (inv_first_seen _ _ _ (plan_invariant D fs)).
Qed.

(** C4.  No two entries to add carry the same video identifier. *)
Theorem to_add_has_no_duplicate_id self σ data :
  plan_of yt self σ = Some data →
  NoDup (ti_video_id <$> pd_to_add data).
Proof.
  intros (dest_id & ->)%plan_of_gathered. simpl.
  rewrite (inv_first_seen _ _ _ (plan_invariant _ _)).
  rewrite <-list_fmap_compose.
  apply (first_seen_NoDup (dest_ids yt self σ) []).
Qed.

Lemma classify_accept D seen vid :
  classify D seen vid = Accept →
  ∃ v, vid = Some v ∧ v ≠ "" ∧ (v ∉ D) ∧ (v ∉ seen).
Proof.
  unfold classify. destruct vid as [v|]; [|done].
  repeat case_decide; try done. eauto.
Qed.

Lemma process_track_accept D src tr loc :
  classify D (seen_ids loc) (track_video_id tr) = Accept →
  ∃ v, track_video_id tr = Some v
       ∧ to_add (process_track D src tr loc)
         = to_add loc ++ [info_of (src_title src, tr)]
       ∧ skipped (process_track D src tr loc) = skipped loc
       ∧ seen_ids (process_track D src tr loc) = {[ v ]} ∪ seen_ids loc
       ∧ ∀ src' tr',
           track_video_id tr' = Some v →
           classify D (seen_ids (process_track D src tr loc))
                    (track_video_id tr') = Duplicate
           ∧ to_add (process_track D src' tr' (process_track D src tr loc))
             = to_add (process_track D src tr loc).
Proof.
  intros Hc. pose proof Hc as (v & Hv & Hne & HD & Hs)%classify_accept.
  exists v. rewrite process_track_classify, Hc. cbn. rewrite Hv.
  split_and!; [done..|].
  intros src' tr' Hv'.
  assert (classify D ({[v]} ∪ seen_ids loc) (track_video_id tr') = Duplicate)
    as Hdup.
  { rewrite Hv'. unfold classify. repeat case_decide; try done.
    exfalso. set_solver. }
  split; [exact Hdup|].
  rewrite (process_track_classify D src' tr'). cbn [seen_ids].
  by rewrite Hdup.
Qed.

Lemma process_track_skip D src tr loc :
  classify D (seen_ids loc) (track_video_id tr) ≠ Accept →
  to_add (process_track D src tr loc) = to_add loc
  ∧ seen_ids (process_track D src tr loc) = seen_ids loc
  ∧ ∃ ti, skipped (process_track D src tr loc) = skipped loc ++ [ti]
          ∧ clear_reason ti = info_of (src_title src, tr)
          ∧ ti_reason ti
            = reason_text (classify D (seen_ids loc) (track_video_id tr)).
Proof.
  intros Hc. rewrite process_track_classify.
  destruct (classify D (seen_ids loc) (track_video_id tr)); [..|done];
    cbn; (split_and!; [done..|]); eexists; split_and!; reflexivity.
Qed.

(** C2.  Both loop bodies classify a track by the rule of the
    specification, in its order of precedence, and update the plan
    accordingly: an accepted track is appended to the entries to add
    and its identifier is inserted into the seen set, so that the next
    track with this identifier is a duplicate; a skipped track is
    appended to the skipped entries with its reason and leaves the seen
    set as it is.  An identifier of the destination is classified
    [AlreadyInDestination] whatever the run has seen, and in a reported
    plan every skipped entry whose identifier is in the destination set
    carries that reason. *)
Theorem classification_precedence :
  (∀ D src tr loc,
      process_track D src tr loc
      = apply_verdict (classify D (seen_ids loc) (track_video_id tr))
                      (src_title src, tr) loc)
  ∧ (∀ D tr loc,
      process_liked_track D tr loc
      = apply_verdict (classify D (seen_ids loc) (track_video_id tr))
                      ("Liked Songs", tr) loc)
  ∧ (∀ D seen v,
      v ≠ "" → v ∈ D → classify D seen (Some v) = AlreadyInDestination)
  ∧ (∀ D seen v,
      v ≠ "" → v ∉ D → v ∈ seen → classify D seen (Some v) = Duplicate)
  ∧ (∀ D seen v,
      v ≠ "" → v ∉ D → v ∉ seen → classify D seen (Some v) = Accept)
  ∧ (∀ D seen, classify D seen None = NoVideoId
               ∧ classify D seen (Some "") = NoVideoId)
  ∧ (∀ self σ data ti v,
      plan_of yt self σ = Some data →
      ti ∈ pd_skipped data →
      ti_video_id ti = Some v → v ≠ "" → v ∈ dest_ids yt self σ →
      ti_reason ti = Some "Already in destination")
  ∧ (∀ D src tr loc,
      classify D (seen_ids loc) (track_video_id tr) = Accept →
      ∃ v, track_video_id tr = Some v
           ∧ to_add (process_track D src tr loc)
             = to_add loc ++ [info_of (src_title src, tr)]
           ∧ skipped (process_track D src tr loc) = skipped loc
           ∧ seen_ids (process_track D src tr loc) = {[ v ]} ∪ seen_ids loc
           ∧ ∀ src' tr',
               track_video_id tr' = Some v →
               classify D (seen_ids (process_track D src tr loc))
                        (track_video_id tr') = Duplicate
               ∧ to_add (process_track D src' tr'
                           (process_track D src tr loc))
                 = to_add (process_track D src tr loc))
  ∧ (∀ D tr loc,
      classify D (seen_ids loc) (track_video_id tr) = Accept →
      ∃ v, track_video_id tr = Some v
           ∧ to_add (process_liked_track D tr loc)
             = to_add loc ++ [info_of ("Liked Songs", tr)]
           ∧ skipped (process_liked_track D tr loc) = skipped loc
           ∧ seen_ids (process_liked_track D tr loc)
             = {[ v ]} ∪ seen_ids loc
           ∧ ∀ tr',
               track_video_id tr' = Some v →
               classify D (seen_ids (process_liked_track D tr loc))
                        (track_video_id tr') = Duplicate
               ∧ to_add (process_liked_track D tr'
                           (process_liked_track D tr loc))
                 = to_add (process_liked_track D tr loc))
  ∧ (∀ D src tr loc,
      classify D (seen_ids loc) (track_video_id tr) ≠ Accept →
      to_add (process_track D src tr loc) = to_add loc
      ∧ seen_ids (process_track D src tr loc) = seen_ids loc
      ∧ ∃ ti, skipped (process_track D src tr loc) = skipped loc ++ [ti]
              ∧ clear_reason ti = info_of (src_title src, tr)
              ∧ ti_reason ti
                = reason_text (classify D (seen_ids loc)
                                        (track_video_id tr)))
  ∧ (∀ D tr loc,
      classify D (seen_ids loc) (track_video_id tr) ≠ Accept →
      to_add (process_liked_track D tr loc) = to_add loc
      ∧ seen_ids (process_liked_track D tr loc) = seen_ids loc
      ∧ ∃ ti, skipped (process_liked_track D tr loc) = skipped loc ++ [ti]
              ∧ clear_reason ti = info_of ("Liked Songs", tr)
              ∧ ti_reason ti
                = reason_text (classify D (seen_ids loc)
                                        (track_video_id tr))).
Proof.
  split_and!.
  - apply process_track_classify.
  - intros D tr loc.
    rewrite (process_liked_track_eq D "" tr loc), process_track_classify.
    done.
  - intros D seen v Hv HD. unfold classify. by repeat case_decide.
  - intros D seen v Hv HD Hs. unfold classify. by repeat case_decide.
  - intros D seen v Hv HD Hs. unfold classify. by repeat case_decide.
  - done.
  - intros self σ data ti v (dest_id & ->)%plan_of_gathered Hti Hvid Hv HD.
    simpl in Hti.
    pose proof (inv_skipped _ _ _ (plan_invariant (dest_ids yt self σ)
      (fetched_sources yt self σ ++ fetched_liked yt self σ))) as Hsk.
    rewrite Forall_forall in Hsk. specialize (Hsk ti Hti).
    destruct Hsk as [[_ Ht]|[[Hr _]|(_ & _ & Hm)]]; [|done|].
    + rewrite Hvid, truthy_Some, bool_decide_false in Ht by done. done.
    + rewrite Hvid in Hm. unfold mem in Hm.
      by rewrite bool_decide_true in Hm.
  - apply process_track_accept.
  - intros D tr loc Hc.
    destruct (process_track_accept D (mkSource "Liked Songs" "") tr loc Hc)
      as (v & Hv & Ha & Hs & Hseen & Hnext).
    exists v. split_and!; [done..|].
    intros tr' Hv'. exact (Hnext (mkSource "Liked Songs" "") tr' Hv').
  - apply process_track_skip.
  - intros D tr loc Hc.
    exact (process_track_skip D (mkSource "Liked Songs" "") tr loc Hc).
Qed.

End PlanClaims.

(** ** Failures during a preview *)

Section PreviewFailures.
Context `{Py.Text} {W : Type} (yt : remote W).
Import PreviewWorker.
Implicit Types (σ : env W) (self : t) (D : gset string) (loc : locals).

Lemma process_source_raise D src loc σ e w' :
  tracks_answer yt (src_playlistId src) (world σ) = (Raise e, w') →
  process_source yt D src loc σ
  = (Ok loc,
     add_call (add_signal σ (Status ("Processing: " +:+ src_title src)))
              (tracks_call (src_playlistId src)) w').
Proof.
  intros Hf. unfold process_source. mnorm. unfold try_except.
  pose proof (tracks_fetch yt (src_playlistId src)
                (add_signal σ (Status ("Processing: " +:+ src_title src))))
    as Ht.
  cbn [world add_signal] in Ht. rewrite Hf in Ht.
  by rewrite (bind_raise _ _ _ _ _ Ht).
Qed.

Lemma for_each_process_source_ok D srcs loc σ :
  ∃ loc' σ', for_each (process_source yt D) srcs loc σ = (Ok loc', σ').
Proof.
  rewrite for_each_process_source.
  destruct (fetch_sources_ok yt srcs σ) as (fs & σ' & E).
  rewrite (bind_ok _ _ _ _ _ E). unfold ret. eauto.
Qed.

(** C6, as the code has it.  A source whose fetch raises leaves the
    plan variables as they were and the source loop goes on with the
    remaining sources; the same holds for the liked-songs pass; neither
    loop ever raises.  The run itself reports a failure when opening
    the client raises or when the library listing raises, with the
    text of the exception, and reports a plan in every other case. *)
Theorem source_failures_are_absorbed :
  (∀ D src loc σ e w',
      tracks_answer yt (src_playlistId src) (world σ) = (Raise e, w') →
      let σ' :=
        add_call (add_signal σ (Status ("Processing: " +:+ src_title src)))
                 (tracks_call (src_playlistId src)) w' in
      process_source yt D src loc σ = (Ok loc, σ')
      ∧ fetch_source yt src σ = (Ok [], σ')
      ∧ ∀ rest,
          for_each (process_source yt D) (src :: rest) loc σ
          = for_each (process_source yt D) rest loc σ')
  ∧ (∀ D loc σ e w',
      yt_get_liked_songs yt 100000 (world σ) = (Raise e, w') →
      process_liked yt D loc σ
      = (Ok loc,
         add_call (add_signal σ (Status "Processing liked songs..."))
                  (CallLikedSongs 100000) w'))
  ∧ (∀ D srcs loc σ,
      ∃ loc' σ', for_each (process_source yt D) srcs loc σ = (Ok loc', σ'))
  ∧ (∀ self σ,
      match yt_open yt (auth_path self) (world σ) with
      | (Raise e, _) =>
          outcome yt self σ
          = Some (PreviewDone false ("Failed to generate preview: " +:+ e) None)
      | (Ok _, w1) =>
          match yt_get_library_playlists yt 10000 w1 with
          | (Raise e, _) =>
              outcome yt self σ
              = Some (PreviewDone false
                        ("Failed to generate preview: " +:+ e) None)
          | (Ok _, _) =>
              ∃ data,
                outcome yt self σ
                = Some (PreviewDone true "Preview generated successfully"
                          (Some data))
          end
      end).
Proof.
  split_and!.
  - intros D src loc σ e w' Hf σ'. split_and!.
    + by apply (process_source_raise _ _ _ _ e).
    + pose proof (process_source_raise D src init_locals σ e w' Hf) as Hp.
      unfold fetch_source. mnorm. unfold try_except.
      pose proof (tracks_fetch yt (src_playlistId src)
        (add_signal σ (Status ("Processing: " +:+ src_title src)))) as Ht.
      cbn [world add_signal] in Ht. rewrite Hf in Ht.
      unfold fetch_of. by rewrite (bind_raise _ _ _ _ _ Ht).
    + intros rest. cbn [for_each].
      by rewrite (bind_ok _ _ _ _ _ (process_source_raise D src loc σ e w' Hf)).
  - intros D loc σ e w' Hf. unfold process_liked. mnorm. unfold try_except.
    unfold get_liked_songs_tracks.
    erewrite bind_raise; [done|].
    erewrite bind_raise; [done|]. by apply remote_call_eq.
  - apply for_each_process_source_ok.
  - intros self σ.
    destruct (yt_open yt (auth_path self) (world σ)) as [[[]|e] w1] eqn:E1.
    + destruct (yt_get_library_playlists yt 10000 w1) as [[pls|e] w2] eqn:E2.
      * destruct (outcome_after_listing yt self σ w1 pls w2 E1 E2)
          as (D & σ2 & σ3 & fs & fl & _ & _ & _ & _ & _ & ->). eauto.
      * pose proof (prologue_cases yt self σ) as Hp. rewrite E1, E2 in Hp.
        pose proof (gather_prologue yt self σ) as Hg. rewrite Hp in Hg.
        by rewrite outcome_gather, Hg.
    + pose proof (prologue_cases yt self σ) as Hp. rewrite E1 in Hp.
      pose proof (gather_prologue yt self σ) as Hg. rewrite Hp in Hg.
      by rewrite outcome_gather, Hg.
Qed.

(** C7.  When the destination is found in the listing and reading its
    tracks raises, the run goes on with an empty destination set and
    reports a plan in which no entry is skipped as already in the
    destination. *)
Theorem destination_read_failure_is_not_fatal self σ w1 pls w2 id e w3 :
  yt_open yt (auth_path self) (world σ) = (Ok (), w1) →
  yt_get_library_playlists yt 10000 w1 = (Ok pls, w2) →
  find_dest (dest_title self) pls = Some id →
  id ≠ "" →
  tracks_answer yt id w2 = (Raise e, w3) →
  dest_ids yt self σ = ∅
  ∧ ∃ data,
      outcome yt self σ
      = Some (PreviewDone true "Preview generated successfully" (Some data))
      ∧ Forall (λ ti, ti_reason ti ≠ Some "Already in destination")
               (pd_skipped data)
      ∧ stat "Already in destination" (pd_stats data) = Some (SInt 0)
      ∧ stat "Destination exists" (pd_stats data) = Some (SStr "Yes").
Proof.
  intros E1 E2 Hd Hid Hf.
  destruct (outcome_after_listing yt self σ w1 pls w2 E1 E2)
    as (D & σ2 & σ3 & fs & fl & Hr & Hw & HD & _ & _ & Ho).
  rewrite read_destination_cases, Hd in Hr.
  rewrite truthy_Some, bool_decide_false in Hr by done.
  cbn [negb default from_option] in Hr. cbv zeta in Hr.
  unfold Datatypes.id in Hr. rewrite Hw, Hf in Hr.
  injection Hr as <- _.
  split; [done|]. eexists. split; [exact Ho|].
  pose proof (inv_skipped _ _ _ (plan_invariant ∅ (fs ++ fl))) as Hsk.
  assert (Hno : Forall (λ ti, ti_reason ti ≠ Some "Already in destination")
                       (skipped (plan ∅ (fs ++ fl) init_locals))).
  { eapply Forall_impl; [exact Hsk|]. intros ti Hti Hr.
    destruct Hti as [[Hr' _]|[(_ & _ & Hm)|[Hr' _]]]; [congruence| |congruence].
    destruct (ti_video_id ti) as [v|]; [|done]. unfold mem in Hm.
    by rewrite bool_decide_false in Hm. }
  split_and!; [done| |].
  - unfold stat, report, stats_of, count_skipped. simpl. do 2 f_equal.
    clear Hsk. induction Hno as [|ti l Hti _ IH]; [done|].
    rewrite filter_cons, decide_False by done. exact IH.
  - unfold report, stats_of. cbn [pd_stats].
    rewrite Hd, truthy_Some, bool_decide_false by done. reflexivity.
Qed.

End PreviewFailures.

(** ** Publishing *)

Section PublishClaims.
Context `{Py.Text} {W : Type} (yt : remote W).
Import PublishWorker.
Implicit Types (σ : env W) (self : t).

Lemma progress_of_app a b : progress_of (a ++ b) = progress_of a ++ progress_of b.
Proof. apply omap_app. Qed.

Lemma add_calls_of_app a b :
  add_calls_of (a ++ b) = add_calls_of a ++ add_calls_of b.
Proof. apply omap_app. Qed.

Lemma progress_of_batch_signals vids k :
  progress_of (batch_signals vids k) = progress_after vids <$> seq 0 k.
Proof.
  unfold batch_signals. generalize 0%nat.
  induction k as [|k IH]; intros j; [done|].
  simpl. f_equal. apply IH.
Qed.

Lemma add_calls_of_batches id (bs : list (list string)) :
  add_calls_of ((λ b, CallAddPlaylistItems id b false) <$> bs)
  = (λ b, (id, b, false)) <$> bs.
Proof. induction bs as [|b bs IH]; [done|]. simpl. f_equal. exact IH. Qed.

(** The destination phase issues no add-items call and reports no
    progress. *)
Lemma resolve_logs self σ r σ1 :
  resolve yt self σ = (r, σ1) →
  add_calls_of (calls σ1) = add_calls_of (calls σ)
  ∧ progress_of (signals σ1) = progress_of (signals σ).
Proof.
  rewrite resolve_cases.
  destruct (yt_open yt _ _) as [[[]|e] w1].
  2:{ intros [= <- <-]. simpl. by rewrite add_calls_of_app, app_nil_r. }
  cbv zeta.
  destruct (yt_get_library_playlists yt _ _) as [[pls|e] w2].
  2:{ intros [= <- <-]. simpl.
      by rewrite !add_calls_of_app, progress_of_app, !app_nil_r. }
  destruct (Py.truthy _).
  { intros [= <- <-]. simpl.
    by rewrite !add_calls_of_app, progress_of_app, !app_nil_r. }
  destruct (yt_create_playlist yt _ _ _ w2) as [r3 w3].
  intros [= <- <-]. simpl.
  by rewrite !add_calls_of_app, !progress_of_app, !app_nil_r.
Qed.

Lemma publish_outcome_resolve self σ :
  publish_outcome yt self σ =
  match resolve yt self σ with
  | (Raise e, _) => Some (PublishDone false ("Publishing failed: " +:+ e) "")
  | (Ok id, σ1) =>
      match write_batches yt id (batches (video_ids self)) (world σ1) with
      | (_, Some e, _) =>
          Some (PublishDone false ("Publishing failed: " +:+ e) "")
      | (_, None, _) =>
          Some (PublishDone true
                  ("Successfully added " +:+ pretty (length (video_ids self))
                   +:+ " tracks!") (playlist_url id))
      end
  end.
Proof.
  unfold publish_outcome. rewrite run_resolve.
  destruct (resolve yt self σ) as [[id|e] σ1].
  2:{ simpl. by rewrite last_snoc. }
  destruct (write_batches yt id _ _) as [[k [e|]] w']; simpl.
  - by rewrite !last_app.
  - by rewrite !last_app.
Qed.

(** C5.  For a non-empty list of identifiers and a run that ends in
    success: the batches are consecutive slices of the list, there are
    [ceil(n / 50)] of them, each holds 50 identifiers except a last one
    that may hold fewer, the add-items calls of the run are these
    batches in order, each once, sent to one destination with
    duplicates refused, and the percentages reported are
    [floor(items so far * 100 / n)], one per batch; they never decrease
    and the last one is 100. *)
Theorem publish_writes_batches_of_fifty self σ msg url :
  video_ids self ≠ [] →
  publish_outcome yt self σ = Some (PublishDone true msg url) →
  let vids := video_ids self in
  let σ' := (run yt self σ).2 in
  concat (batches vids) = vids
  ∧ length (batches vids) = ((length vids + 49) / 50)%nat
  ∧ (∀ k b, batches vids !! k = Some b →
            (1 ≤ length b ≤ 50)%nat
            ∧ ((S k < length (batches vids))%nat → length b = 50%nat))
  ∧ (length vids = 120%nat → length <$> batches vids = [50; 50; 20]%nat)
  ∧ (∃ id, url = playlist_url id
           ∧ add_calls_of (calls σ')
             = add_calls_of (calls σ) ++ ((λ b, (id, b, false)) <$> batches vids))
  ∧ progress_of (signals σ')
    = progress_of (signals σ)
        ++ (progress_after vids <$> seq 0 (length (batches vids)))
  ∧ (∀ i j, (i ≤ j)%nat → (progress_after vids i ≤ progress_after vids j)%nat)
  ∧ last (progress_after vids <$> seq 0 (length (batches vids))) = Some 100%nat.
Proof.
  intros Hne Hout vids σ'. subst σ'. fold vids in Hne.
  rewrite publish_outcome_resolve in Hout. rewrite run_resolve.
  destruct (resolve yt self σ) as [[id|e] σ1] eqn:Er; [|done].
  destruct (resolve_logs _ _ _ _ Er) as [Hc Hp].
  fold vids in Hout |- *.
  destruct (write_batches yt id (batches vids) (world σ1))
    as [[k [e|]] w'] eqn:Ew; [done|].
  injection Hout as <- <-.
  apply write_batches_bound in Ew. subst k.
  assert (0 < length (batches vids))%nat as Hpos.
  { rewrite batches_length. pose proof (div_bounds (length vids)).
    destruct vids; simpl in *; [done|lia]. }
  split_and!.
  - apply concat_batches.
  - apply batches_length.
  - intros k b Hb. destruct (batch_size_bounds _ _ _ Hb) as (? & ? & _). done.
  - intros H120. apply list_eq. intros i.
    rewrite list_lookup_fmap.
    destruct (decide (i < length (batches vids))%nat) as [Hi|Hi].
    + rewrite batches_lookup by done. simpl.
      rewrite batches_length, H120 in Hi.
      change ((120 + 49) / 50)%nat with 3%nat in Hi.
      rewrite length_take, length_drop, H120.
      destruct i as [|[|[|i]]]; simpl; try done. lia.
    + rewrite lookup_ge_None_2 by lia.
      rewrite batches_length, H120 in Hi.
      change ((120 + 49) / 50)%nat with 3%nat in Hi.
      destruct i as [|[|[|i]]]; simpl; try done; lia.
  - exists id. split; [done|]. unfold publish_final. fold vids. simpl.
    rewrite firstn_all, add_calls_of_app, add_calls_of_batches, Hc. done.
  - unfold publish_final. fold vids. simpl.
    rewrite !progress_of_app, progress_of_batch_signals, Hp. simpl.
    by rewrite app_nil_r.
  - intros i j. apply progress_after_mono.
  - rewrite fmap_last, last_lookup, length_seq.
    rewrite lookup_seq_lt by lia. simpl.
    f_equal. rewrite <-Nat.sub_1_r. by apply progress_after_last.
Qed.

Lemma resolve_value self σ id σ1 :
  resolve yt self σ = (Ok id, σ1) →
  ∀ k e w',
    write_batches yt id (batches (video_ids self)) (world σ1) = (k, e, w') →
    run yt self σ = (Ok (), publish_final self id σ1 k e w').
Proof. intros Er k e w' Ew. by rewrite run_resolve, Er, Ew. Qed.

(** C9.  Whichever remote call of a publish raises (opening the
    client, listing the library, creating the playlist, an add-items
    call), the run ends there with the failure signal that carries the
    text of the exception and an empty URL.  The call that raised is
    the last call of the run: the batches written before it stay
    written, in the world the failing call left, and no call is issued
    again. *)
Theorem publish_failure_is_terminal self σ :
  let vids := video_ids self in
  let failed e := PublishDone false ("Publishing failed: " +:+ e) "" in
  (∀ e w1,
      yt_open yt (auth_path self) (world σ) = (Raise e, w1) →
      run yt self σ
      = (Ok (), mkEnv w1 (calls σ ++ [CallOpen (auth_path self)])
                      (signals σ ++ [failed e])))
  ∧ (∀ w1 e w2,
      yt_open yt (auth_path self) (world σ) = (Ok (), w1) →
      yt_get_library_playlists yt 10000 w1 = (Raise e, w2) →
      run yt self σ
      = (Ok (), mkEnv w2
                  (calls σ ++ [CallOpen (auth_path self);
                               CallLibraryPlaylists 10000])
                  (signals σ ++ [Status "Finding destination playlist...";
                                 failed e])))
  ∧ (∀ w1 pls w2 e w3,
      yt_open yt (auth_path self) (world σ) = (Ok (), w1) →
      yt_get_library_playlists yt 10000 w1 = (Ok pls, w2) →
      Py.truthy (find_dest (dest_title self) pls) = false →
      yt_create_playlist yt (dest_title self) (description self)
                         (privacy self) w2 = (Raise e, w3) →
      run yt self σ
      = (Ok (), mkEnv w3
                  (calls σ ++ [CallOpen (auth_path self);
                               CallLibraryPlaylists 10000;
                               CallCreatePlaylist (dest_title self)
                                 (description self) (privacy self)])
                  (signals σ ++ [Status "Finding destination playlist...";
                                 Status ("Creating new playlist: "
                                         +:+ dest_title self);
                                 failed e])))
  ∧ (∀ id σ1 k e w',
      resolve yt self σ = (Ok id, σ1) →
      write_batches yt id (batches vids) (world σ1) = (k, Some e, w') →
      (k < length (batches vids))%nat
      ∧ run yt self σ
        = (Ok (), mkEnv w'
                    (calls σ1 ++ ((λ b, CallAddPlaylistItems id b false)
                                    <$> take (S k) (batches vids)))
                    (signals σ1 ++ batch_signals vids k
                       ++ [batch_status vids k; failed e]))
      ∧ progress_of (signals (run yt self σ).2)
        = progress_of (signals σ) ++ (progress_after vids <$> seq 0 k)
      ∧ add_calls_of (calls (run yt self σ).2)
        = add_calls_of (calls σ)
            ++ ((λ b, (id, b, false)) <$> take (S k) (batches vids))).
Proof.
  intros vids failed. split_and!.
  - intros e w1 E1. rewrite run_resolve, resolve_cases, E1. done.
  - intros w1 e w2 E1 E2. rewrite run_resolve, resolve_cases, E1, E2.
    unfold add_signal, add_call. simpl. by rewrite <-!app_assoc.
  - intros w1 pls w2 e w3 E1 E2 Ht E3.
    rewrite run_resolve, resolve_cases, E1, E2. cbv zeta. rewrite Ht, E3.
    unfold add_signal, add_call. simpl. by rewrite <-!app_assoc.
  - intros id σ1 k e w' Er Ew.
    pose proof (write_batches_bound _ _ _ _ _ _ _ Ew) as Hk.
    destruct (resolve_logs _ _ _ _ Er) as [Hc Hp].
    rewrite (resolve_value _ _ _ _ Er _ _ _ Ew).
    unfold publish_final. fold vids. simpl.
    split_and!; [done|done|..].
    + rewrite !progress_of_app, progress_of_batch_signals, Hp. simpl.
      by rewrite app_nil_r.
    + by rewrite add_calls_of_app, add_calls_of_batches, Hc.
Qed.

(** C10.  With no identifier to add, a publish issues no add-items
    call and reports no progress; once the destination is resolved, or
    created when the listing has none, the run ends in success with
    the URL of that playlist. *)
Theorem publish_of_nothing self σ :
  video_ids self = [] →
  let succeeded id :=
    PublishDone true "Successfully added 0 tracks!" (playlist_url id) in
  add_calls_of (calls (run yt self σ).2) = add_calls_of (calls σ)
  ∧ progress_of (signals (run yt self σ).2) = progress_of (signals σ)
  ∧ (∀ id σ1,
      resolve yt self σ = (Ok id, σ1) →
      run yt self σ = (Ok (), add_signal σ1 (succeeded id)))
  ∧ (∀ w1 pls w2 id,
      yt_open yt (auth_path self) (world σ) = (Ok (), w1) →
      yt_get_library_playlists yt 10000 w1 = (Ok pls, w2) →
      find_dest (dest_title self) pls = Some id →
      id ≠ "" →
      run yt self σ
      = (Ok (), mkEnv w2
                  (calls σ ++ [CallOpen (auth_path self);
                               CallLibraryPlaylists 10000])
                  (signals σ ++ [Status "Finding destination playlist...";
                                 succeeded id])))
  ∧ (∀ w1 pls w2 id w3,
      yt_open yt (auth_path self) (world σ) = (Ok (), w1) →
      yt_get_library_playlists yt 10000 w1 = (Ok pls, w2) →
      Py.truthy (find_dest (dest_title self) pls) = false →
      yt_create_playlist yt (dest_title self) (description self)
                         (privacy self) w2 = (Ok id, w3) →
      run yt self σ
      = (Ok (), mkEnv w3
                  (calls σ ++ [CallOpen (auth_path self);
                               CallLibraryPlaylists 10000;
                               CallCreatePlaylist (dest_title self)
                                 (description self) (privacy self)])
                  (signals σ ++ [Status "Finding destination playlist...";
                                 Status ("Creating new playlist: "
                                         +:+ dest_title self);
                                 succeeded id]))).
Proof.
  intros Hv succeeded.
  assert (Hrun : ∀ id σ1, resolve yt self σ = (Ok id, σ1) →
            run yt self σ = (Ok (), add_signal σ1 (succeeded id))).
  { intros id σ1 Er.
    rewrite (resolve_value _ _ _ _ Er 0 None (world σ1))
      by by rewrite Hv.
    unfold publish_final, add_signal. rewrite Hv. simpl.
    rewrite app_nil_r. reflexivity. }
  split_and!.
  - destruct (resolve yt self σ) as [[id|e] σ1] eqn:Er.
    + rewrite (Hrun _ _ eq_refl). simpl. by apply (resolve_logs _ _ _ _ Er).
    + rewrite run_resolve, Er. simpl. by apply (resolve_logs _ _ _ _ Er).
  - destruct (resolve yt self σ) as [[id|e] σ1] eqn:Er.
    + rewrite (Hrun _ _ eq_refl). simpl. rewrite progress_of_app, app_nil_r.
      by apply (resolve_logs _ _ _ _ Er).
    + rewrite run_resolve, Er. simpl. rewrite progress_of_app, app_nil_r.
      by apply (resolve_logs _ _ _ _ Er).
  - exact Hrun.
  - intros w1 pls w2 id E1 E2 Hd Hid.
    erewrite Hrun.
    2:{ rewrite resolve_cases, E1, E2. cbv zeta.
        rewrite Hd, truthy_Some, bool_decide_false by done. done. }
    unfold add_signal, add_call. simpl. by rewrite <-!app_assoc.
  - intros w1 pls w2 id w3 E1 E2 Ht E3.
    erewrite Hrun.
    2:{ rewrite resolve_cases, E1, E2. cbv zeta. rewrite Ht, E3. done. }
    unfold add_signal, add_call. simpl. by rewrite <-!app_assoc.
Qed.

End PublishClaims.

(** ** Resolving the destination *)

Section Destination.
Context `{Py.Text} {W : Type} (yt : remote W).
Implicit Types (σ : env W).










End Destination.

(** ** The properties on concrete runs *)

Section Witnesses.
Import Fake Scenario.
#[local] Existing Instance Py.ascii.

(** Counterexample to C6 in the wording of the specification: a run
    whose client cannot be opened reports a failure although the
    library listing never raised. *)
Lemma preview_fails_without_listing_failure :
  ¬ (∀ (W : Type) (yt : remote W) (self : PreviewWorker.t) (σ : env W)
       msg data,
        outcome yt self σ = Some (PreviewDone false msg data) →
        library_listing_failed yt self σ).
Proof.
  intros H.
  assert (outcome client preview (start bad_credentials)
          = Some (PreviewDone false
                    "Failed to generate preview: bad credentials" None))
    as Ho by compute_done.
  destruct (H _ _ _ _ _ _ Ho) as (w1 & e & w2 & H1 & _).
  vm_compute in H1. discriminate H1.
Qed.

(** C1 on the preview of the scenario: eight fetched tracks, three to
    add and five skipped. *)
Lemma plan_partitions_fetched_tracks_witness :
  ∃ data,
    plan_of client preview (start library) = Some data
    ∧ interleave (pd_to_add data) (clear_reason <$> pd_skipped data)
        (info_of <$> (fetched_sources client preview (start library)
                      ++ fetched_liked client preview (start library)))
    ∧ stat "Total tracks processed" (pd_stats data)
      = Some (SInt (length (pd_to_add data) + length (pd_skipped data))).
Proof.
  eexists. split; [vm_compute; reflexivity|].
  edestruct (plan_partitions_fetched_tracks client preview (start library))
    as (H1 & H2 & _); [vm_compute; reflexivity|].
  split; [exact H1|exact H2].
Defined.

(** C2 on an identifier that is both in the destination and already
    seen, on a first and a second track with the identifier [v2], and
    on the skipped entry of [v1] in the scenario. *)
Lemma classification_precedence_witness :
  classify {["v1"]} {["v1"]} (Some "v1") = AlreadyInDestination
  ∧ (let src := mkSource "Road trip" "PLX" in
     let loc := PreviewWorker.process_track {["v1"]} src (song "v2" "b")
                  PreviewWorker.init_locals in
     classify {["v1"]} ∅ (track_video_id (song "v2" "b")) = Accept
     ∧ PreviewWorker.to_add loc = [info_of ("Road trip", song "v2" "b")]
     ∧ PreviewWorker.seen_ids loc = {["v2"]} ∪ ∅
     ∧ classify {["v1"]} (PreviewWorker.seen_ids loc)
                (track_video_id (song "v2" "b")) = Duplicate
     ∧ PreviewWorker.to_add
         (PreviewWorker.process_track {["v1"]} (mkSource "Gym" "PLY")
                                      (song "v2" "b") loc)
       = [info_of ("Road trip", song "v2" "b")])
  ∧ ∃ data ti,
      plan_of client preview (start library) = Some data
      ∧ ti ∈ pd_skipped data
      ∧ ti_video_id ti = Some "v1"
      ∧ "v1" ∈ dest_ids client preview (start library)
      ∧ ti_reason ti = Some "Already in destination".
Proof.
  pose proof (classification_precedence client)
    as (_ & _ & H3 & _ & _ & _ & H7 & H8 & _).
  split; [apply H3; compute_done|].
  split.
  - intros src loc.
    assert (Hc : classify {["v1"]}
                   (PreviewWorker.seen_ids PreviewWorker.init_locals)
                   (track_video_id (song "v2" "b")) = Accept)
      by (vm_compute; reflexivity).
    split; [exact Hc|].
    destruct (H8 {["v1"]} src (song "v2" "b") PreviewWorker.init_locals Hc)
      as (v & Hv & Ha & _ & Hs & Hnext).
    injection Hv as <-.
    destruct (Hnext (mkSource "Gym" "PLY") (song "v2" "b") eq_refl)
      as [Hd Hsame].
    split; [exact Ha|]. split; [exact Hs|]. split; [exact Hd|].
    fold src in Hsame. fold loc in Hsame. rewrite Hsame. exact Ha.
  - eexists _, _.
    split; [vm_compute; reflexivity|].
    split; [cbn [pd_skipped]; constructor 1|].
    split; [reflexivity|].
    split; [compute_done|].
    eapply (H7 preview (start library) _ _ "v1").
    + vm_compute. reflexivity.
    + cbn [pd_skipped]. constructor 1.
    + reflexivity.
    + compute_done.
    + compute_done.
Defined.

(** C3 on the scenario: [v2] and [v3] from the playlists, then [v9]
    from the liked songs. *)
Lemma to_add_keeps_first_seen_order_witness :
  ∃ data,
    plan_of client preview (start library) = Some data
    ∧ ti_video_id <$> pd_to_add data = [Some "v2"; Some "v3"; Some "v9"]
    ∧ pd_to_add data
      = (info_of <$> first_seen (dest_ids client preview (start library)) []
                       (fetched_sources client preview (start library)))
        ++ (info_of <$> first_seen (dest_ids client preview (start library))
                          (fetched_sources client preview (start library))
                          (fetched_liked client preview (start library))).
Proof.
  eexists. split; [vm_compute; reflexivity|].
  split; [reflexivity|].
  edestruct (to_add_keeps_first_seen_order client preview (start library))
    as (H1 & _); [vm_compute; reflexivity|].
  exact H1.
Defined.

(** C4 on the scenario. *)
Lemma to_add_has_no_duplicate_id_witness :
  ∃ data,
    plan_of client preview (start library) = Some data
    ∧ NoDup (ti_video_id <$> pd_to_add data).
Proof.
  eexists. split; [vm_compute; reflexivity|].
  apply (to_add_has_no_duplicate_id client preview (start library)).
  vm_compute. reflexivity.
Defined.

(** C5 on 120 identifiers: batches of 50, 50 and 20, progress 41, 83
    and 100. *)
Lemma publish_writes_batches_of_fifty_witness :
  PublishWorker.video_ids publish ≠ []
  ∧ publish_outcome client publish (start library)
    = Some (PublishDone true "Successfully added 120 tracks!"
              (playlist_url "PLD"))
  ∧ length <$> batches (PublishWorker.video_ids publish) = [50; 50; 20]%nat
  ∧ progress_of (signals (PublishWorker.run client publish (start library)).2)
    = [41; 83; 100]%nat.
Proof.
  assert (Hne : PublishWorker.video_ids publish ≠ []) by (vm_compute; discriminate).
  assert (Hout : publish_outcome client publish (start library)
                 = Some (PublishDone true "Successfully added 120 tracks!"
                           (playlist_url "PLD")))
    by (vm_compute; reflexivity).
  split; [exact Hne|]. split; [exact Hout|].
  destruct (publish_writes_batches_of_fifty client publish (start library)
              _ _ Hne Hout) as (_ & _ & _ & H120 & _ & Hp & _).
  split.
  - apply H120. vm_compute. reflexivity.
  - rewrite Hp. vm_compute. reflexivity.
Defined.

(** C6 on a source whose playlist is gone. *)
Lemma source_failures_are_absorbed_witness :
  let gone := mkSource "Gone" "PLZ" in
  tracks_answer client "PLZ" library = (Raise "playlist not found", library)
  ∧ ∀ D loc,
      PreviewWorker.process_source client D gone loc (start library)
      = (Ok loc,
         mkEnv library [CallWatchPlaylist "PLZ" 10000]
               [Status "Processing: Gone"]).
Proof.
  intros gone.
  assert (Hf : tracks_answer client (src_playlistId gone)
                 (world (start library))
               = (Raise "playlist not found", library))
    by (vm_compute; reflexivity).
  split; [exact Hf|]. intros D loc.
  destruct (source_failures_are_absorbed client) as (H1 & _).
  destruct (H1 D gone loc (start library) _ _ Hf) as (Hp & _).
  exact Hp.
Defined.

(** C7 on a destination that is listed but cannot be read. *)
Lemma destination_read_failure_is_not_fatal_witness :
  PreviewWorker.find_dest "Merged" playlists = Some "PLD"
  ∧ tracks_answer client "PLD" unreadable_destination
    = (Raise "playlist not found", unreadable_destination)
  ∧ dest_ids client preview (start unreadable_destination) = ∅
  ∧ ∃ data,
      outcome client preview (start unreadable_destination)
      = Some (PreviewDone true "Preview generated successfully" (Some data))
      ∧ stat "Already in destination" (pd_stats data) = Some (SInt 0).
Proof.
  split; [vm_compute; reflexivity|]. split; [vm_compute; reflexivity|].
  edestruct (destination_read_failure_is_not_fatal client preview
               (start unreadable_destination)
               unreadable_destination playlists unreadable_destination "PLD")
    as (HD & data & Ho & _ & Hs & _).
  - vm_compute. reflexivity.
  - vm_compute. reflexivity.
  - vm_compute. reflexivity.
  - discriminate.
  - vm_compute. reflexivity.
  - split; [exact HD|]. exists data. split; [exact Ho|exact Hs].
Defined.



(** C9 on a publish whose second add-items call raises: the first
    batch stays written. *)
Lemma publish_failure_is_terminal_witness :
  ∃ σ1 w',
    resolve client publish (start second_batch_fails) = (Ok "PLD", σ1)
    ∧ write_batches client "PLD" (batches (PublishWorker.video_ids publish))
                    (world σ1)
      = (1%nat, Some "quota exceeded", w')
    ∧ fk_items w' = [("PLD", take 50 (ids 120))]
    ∧ publish_outcome client publish (start second_batch_fails)
      = Some (PublishDone false "Publishing failed: quota exceeded" "")
    ∧ world (PublishWorker.run client publish (start second_batch_fails)).2 = w'
    ∧ add_calls_of
        (calls (PublishWorker.run client publish (start second_batch_fails)).2)
      = (λ b, ("PLD", b, false))
          <$> take 2 (batches (PublishWorker.video_ids publish)).
Proof.
  eexists _, _.
  split; [vm_compute; reflexivity|].
  split; [vm_compute; reflexivity|].
  split; [vm_compute; reflexivity|].
  split; [vm_compute; reflexivity|].
  destruct (publish_failure_is_terminal client publish
              (start second_batch_fails)) as (_ & _ & _ & H4).
  edestruct (H4 "PLD") as (_ & Hrun & _ & Hcalls).
  - vm_compute. reflexivity.
  - vm_compute. reflexivity.
  - split; [by rewrite Hrun|exact Hcalls].
Defined.

(** C10 on an empty list and an existing destination. *)
Lemma publish_of_nothing_witness :
  PublishWorker.video_ids publish_nothing = []
  ∧ PublishWorker.run client publish_nothing (start library)
    = (Ok (),
       mkEnv library
         [CallOpen "browser.json"; CallLibraryPlaylists 10000]
         [Status "Finding destination playlist...";
          PublishDone true "Successfully added 0 tracks!"
            "https://music.youtube.com/playlist?list=PLD"]).
Proof.
  split; [reflexivity|].
  destruct (publish_of_nothing client publish_nothing (start library) eq_refl)
    as (_ & _ & _ & H4 & _).
  apply (H4 library playlists library "PLD").
  - vm_compute. reflexivity.
  - vm_compute. reflexivity.
  - vm_compute. reflexivity.
  - discriminate.
Defined.

End Witnesses.

(** * Further properties *)

(** ** The plan: what is kept and what is skipped *)

Section PlanContents.
Import PreviewWorker.
Implicit Types (D : gset string) (x : string * track).

Lemma fresh_unseen D e x v :
  track_video_id x.2 = Some v → v ≠ "" → v ∉ D →
  Some v ∉ ((track_video_id ∘ snd) <$> e) →
  fresh D e x = true.
Proof.
  intros Hv Hne HD He. unfold fresh. rewrite Hv, truthy_Some. unfold mem.
  rewrite !bool_decide_false by done. by rewrite bool_decide_true.
Qed.

Lemma first_seen_complete D e l x v :
  x ∈ l → track_video_id x.2 = Some v → v ≠ "" → v ∉ D →
  Some v ∈ ((track_video_id ∘ snd) <$> e)
  ∨ Some v ∈ ((track_video_id ∘ snd) <$> first_seen D e l).
Proof.
  intros Hx Hv Hne HD. revert e.
  induction l as [|y l IH]; intros e; [by apply elem_of_nil in Hx|].
  destruct (decide (Some v ∈ ((track_video_id ∘ snd) <$> e))) as [|Hn];
    [by left|right].
  cbn [first_seen]. rewrite fmap_app, elem_of_app.
  destruct (decide (track_video_id y.2 = Some v)) as [Hy|Hy].
  { left. rewrite (fresh_unseen D e y v) by done.
    cbn. rewrite Hy. apply list_elem_of_here. }
  apply elem_of_cons in Hx as [->|Hx]; [done|].
  destruct (IH Hx (e ++ [y])) as [Hin|Hin]; [|by right].
  rewrite fmap_app, elem_of_app in Hin. destruct Hin as [Hin|Hin]; [done|].
  cbn in Hin. apply list_elem_of_singleton in Hin. by rewrite Hin in Hy.
Qed.

Lemma info_of_video_id x : ti_video_id (info_of x) = track_video_id x.2.
Proof. done. Qed.

Lemma to_add_ids D fetched :
  ti_video_id <$> to_add (plan D fetched init_locals)
  = (track_video_id ∘ snd) <$> first_seen D [] fetched.
Proof.
  rewrite (inv_first_seen _ _ _ (plan_invariant D fetched)).
  by rewrite <-list_fmap_compose.
Qed.

(** Every fetched track that has an identifier outside the destination
    has this identifier among the entries to add. *)
Lemma plan_complete D fetched x v :
  x ∈ fetched → track_video_id x.2 = Some v → v ≠ "" → v ∉ D →
  Some v ∈ ti_video_id <$> to_add (plan D fetched init_locals).
Proof.
  intros Hx Hv Hne HD. rewrite to_add_ids.
  destruct (first_seen_complete D [] fetched x v Hx Hv Hne HD) as [H|H];
    [by apply elem_of_nil in H|done].
Qed.

(** Every entry to add comes from a fetched track, carries no reason
    and has an identifier outside the destination. *)
Lemma plan_sound D fetched ti :
  ti ∈ to_add (plan D fetched init_locals) →
  ∃ x v, x ∈ fetched ∧ ti = info_of x
         ∧ ti_video_id ti = Some v ∧ v ≠ "" ∧ v ∉ D.
Proof.
  rewrite (inv_first_seen _ _ _ (plan_invariant D fetched)).
  intros (x & -> & Hx)%list_elem_of_fmap.
  pose proof (first_seen_fresh _ _ _ _ Hx) as (Ht & Hm & _).
  apply truthy_inv in Ht as (v & Hv & Hne).
  exists x, v. split_and!; [|done|done|done|].
  - eapply elem_of_sublist; [exact Hx|apply first_seen_sublist].
  - rewrite Hv in Hm. unfold mem in Hm.
    by apply bool_decide_eq_false in Hm.
Qed.

Lemma skipped_from_fetched D fetched ti :
  ti ∈ skipped (plan D fetched init_locals) →
  ∃ x, x ∈ fetched ∧ clear_reason ti = info_of x.
Proof.
  intros Hti.
  pose proof (inv_interleave _ _ _ (plan_invariant D fetched)) as Hil.
  assert (clear_reason ti ∈ info_of <$> fetched) as Hin.
  { apply (interleave_elem_of _ _ _ _ Hil). right.
    apply list_elem_of_fmap. eauto. }
  apply list_elem_of_fmap in Hin as (x & Hx & Hin). eauto.
Qed.

Lemma count_skipped_partition D (l : list track_info) :
  Forall (skip_ok D) l →
  (count_skipped "Already in destination" l + count_skipped "Duplicate" l
   + count_skipped "No video ID" l = length l)%nat.
Proof.
  unfold count_skipped. induction 1 as [|ti l Hti _ IH]; [done|].
  rewrite !filter_cons. simpl.
  destruct Hti as [[Hr _]|[[Hr _]|[Hr _]]]; rewrite Hr;
    repeat case_decide; simplify_eq; simpl; lia.
Qed.

End PlanContents.

Section PlanExtras.
Context `{Py.Text} {W : Type} (yt : remote W).
Import PreviewWorker.
Implicit Types (σ : env W) (self : t).

(** X1.  In every reported plan the three reason counts add up to the
    number of skipped tracks, and with the tracks to add to the total:
    each skipped entry carries exactly one of the three reasons. *)
Theorem reason_counts_add_up self σ data :
  plan_of yt self σ = Some data →
  ∃ a d n,
    stat "Already in destination" (pd_stats data) = Some (SInt a)
    ∧ stat "Duplicates removed" (pd_stats data) = Some (SInt d)
    ∧ stat "No video ID" (pd_stats data) = Some (SInt n)
    ∧ stat "Tracks skipped" (pd_stats data) = Some (SInt (a + d + n))
    ∧ stat "Total tracks processed" (pd_stats data)
      = Some (SInt (length (pd_to_add data) + a + d + n))
    ∧ a = count_skipped "Already in destination" (pd_skipped data)
    ∧ d = count_skipped "Duplicate" (pd_skipped data)
    ∧ n = count_skipped "No video ID" (pd_skipped data).
Proof.
  intros (dest_id & ->)%plan_of_gathered.
  set (D := dest_ids yt self σ).
  set (fetched := fetched_sources yt self σ ++ fetched_liked yt self σ).
  destruct (plan_invariant D fetched) as [Hil Htot _ _ Hsk].
  pose proof (count_skipped_partition D _ Hsk) as Hsum.
  pose proof (interleave_length _ _ _ Hil) as Hlen.
  rewrite !length_fmap in Hlen.
  eexists _, _, _. split_and!; try reflexivity.
  - cbn. by rewrite Hsum.
  - cbn. rewrite Htot, Hlen, <-Hsum. do 2 f_equal. lia.
Qed.

(** X2.  No fetched track is lost: every fetched track that has an
    identifier outside the destination set has this identifier among
    the entries to add; and every entry to add is the entry of a
    fetched track with a non-empty identifier outside the destination
    set. *)
Theorem no_fetched_track_is_lost self σ data :
  plan_of yt self σ = Some data →
  let D := dest_ids yt self σ in
  let fetched := fetched_sources yt self σ ++ fetched_liked yt self σ in
  (∀ x v,
      x ∈ fetched → track_video_id x.2 = Some v → v ≠ "" → v ∉ D →
      Some v ∈ ti_video_id <$> pd_to_add data)
  ∧ (∀ ti,
      ti ∈ pd_to_add data →
      ∃ x v, x ∈ fetched ∧ ti = info_of x
             ∧ ti_video_id ti = Some v ∧ v ≠ "" ∧ v ∉ D).
Proof.
  intros (dest_id & ->)%plan_of_gathered D fetched. split.
  - intros x v. apply plan_complete.
  - intros ti. apply plan_sound.
Qed.

(** X3.  Every skipped entry is the entry of a fetched track with its
    reason attached, and the reason is justified: "No video ID" only
    without an identifier, "Already in destination" only for an
    identifier of the destination set, "Duplicate" only for an
    identifier outside the destination set that one of the entries to
    add carries. *)
Theorem skip_reasons_are_justified self σ data ti :
  plan_of yt self σ = Some data →
  ti ∈ pd_skipped data →
  let D := dest_ids yt self σ in
  let fetched := fetched_sources yt self σ ++ fetched_liked yt self σ in
  (∃ x, x ∈ fetched ∧ clear_reason ti = info_of x)
  ∧ ((ti_reason ti = Some "No video ID" ∧ Py.truthy (ti_video_id ti) = false)
     ∨ (ti_reason ti = Some "Already in destination"
        ∧ ∃ v, ti_video_id ti = Some v ∧ v ≠ "" ∧ v ∈ D)
     ∨ (ti_reason ti = Some "Duplicate"
        ∧ ∃ v, ti_video_id ti = Some v ∧ v ≠ "" ∧ (v ∉ D)
               ∧ Some v ∈ ti_video_id <$> pd_to_add data)).
Proof.
  intros (dest_id & ->)%plan_of_gathered Hti D fetched. cbn in Hti |- *.
  destruct (skipped_from_fetched D fetched ti Hti) as (x & Hx & Hinfo).
  split; [eauto|].
  pose proof (inv_skipped _ _ _ (plan_invariant D fetched)) as Hsk.
  rewrite Forall_forall in Hsk.
  destruct (Hsk ti Hti) as [[Hr Ht]|[(Hr & Ht & Hm)|(Hr & Ht & Hm)]].
  - by left.
  - right; left. split; [done|].
    apply truthy_inv in Ht as (v & Hv & Hne). exists v.
    rewrite Hv in Hm. unfold mem in Hm.
    by apply bool_decide_eq_true in Hm.
  - right; right. split; [done|].
    apply truthy_inv in Ht as (v & Hv & Hne). exists v.
    rewrite Hv in Hm. unfold mem in Hm.
    apply bool_decide_eq_false in Hm. split_and!; [done..|].
    apply (plan_complete D fetched x v); [done| |done|done].
    rewrite <-info_of_video_id, <-Hinfo. by destruct ti.
Qed.

Lemma elem_of_existing_ids (trs : list track) v :
  v ∈ existing_ids trs ↔
  v ≠ "" ∧ ∃ tr, tr ∈ trs ∧ track_video_id tr = Some v.
Proof.
  unfold existing_ids. rewrite elem_of_list_to_set, list_elem_of_omap.
  split.
  - intros (tr & Htr & Hv).
    destruct (Py.truthy (track_video_id tr)) eqn:Ht; [|done].
    apply truthy_inv in Ht as (u & Hu & Hne).
    rewrite Hu in Hv. injection Hv as <-. eauto.
  - intros (Hne & tr & Htr & Hv). exists tr. split; [done|].
    by rewrite Hv, truthy_Some, bool_decide_false.
Qed.

Lemma elem_of_video_ids_of (l : list track_info) v :
  v ∈ Window.video_ids_of l ↔ v ≠ "" ∧ Some v ∈ ti_video_id <$> l.
Proof.
  unfold Window.video_ids_of. rewrite list_elem_of_omap, list_elem_of_fmap.
  split.
  - intros (ti & Hti & Hv).
    destruct (Py.truthy (ti_video_id ti)) eqn:Ht; [|done].
    apply truthy_inv in Ht as (u & Hu & Hne).
    rewrite Hu in Hv. injection Hv as <-. eauto.
  - intros (Hne & ti & Hv & Hti). exists ti. split; [done|].
    by rewrite <-Hv, truthy_Some, bool_decide_false.
Qed.

Lemma first_seen_none D e (l : list (string * track)) :
  (∀ x, x ∈ l → ∀ v, track_video_id x.2 = Some v → v ≠ "" → v ∈ D) →
  first_seen D e l = [].
Proof.
  revert e. induction l as [|y l IH]; intros e Hall; [done|].
  cbn [first_seen]. rewrite IH by (intros x Hx; apply Hall; by right).
  rewrite app_nil_r.
  destruct (fresh D e y) eqn:Hf; [|done]. exfalso.
  unfold fresh in Hf.
  apply andb_true_iff in Hf as [[Ht Hm]%andb_true_iff _].
  apply truthy_inv in Ht as (v & Hv & Hne).
  rewrite Hv in Hm. unfold mem in Hm.
  apply negb_true_iff, bool_decide_eq_false in Hm.
  apply Hm, (Hall y); [by left|done|done].
Qed.

(** X4.  Planning again once the destination holds the tracks of a
    plan adds nothing: for a second run that fetches the same tracks
    while the destination set has grown by the identifiers of the first
    plan, the list to add is empty and nothing is skipped as a
    duplicate. *)
Theorem replanning_after_publish_adds_nothing
    {W'} (yt' : remote W') self σ data self' (σ' : env W') data' :
  plan_of yt self σ = Some data →
  plan_of yt' self' σ' = Some data' →
  fetched_sources yt' self' σ' ++ fetched_liked yt' self' σ'
  = fetched_sources yt self σ ++ fetched_liked yt self σ →
  dest_ids yt' self' σ'
  = dest_ids yt self σ ∪ list_to_set (Window.video_ids_of (pd_to_add data)) →
  pd_to_add data' = []
  ∧ Forall (λ ti, ti_reason ti ≠ Some "Duplicate") (pd_skipped data')
  ∧ stat "Tracks to add" (pd_stats data') = Some (SInt 0).
Proof.
  intros (d1 & ->)%plan_of_gathered Hp' Hf HD.
  pose proof Hp' as (d2 & ->)%plan_of_gathered.
  rewrite Hf, HD in *. cbn [pd_to_add pd_skipped report] in *.
  set (D := dest_ids yt self σ) in *.
  set (fetched := fetched_sources yt self σ ++ fetched_liked yt self σ) in *.
  set (D' := D ∪ _) in *.
  assert (Hnil : to_add (plan D' fetched init_locals) = []).
  { rewrite (inv_first_seen _ _ _ (plan_invariant D' fetched)).
    rewrite first_seen_none; [done|].
    intros x Hx v Hv Hne. unfold D'. apply elem_of_union.
    destruct (decide (v ∈ D)) as [|HnD]; [by left|right].
    apply elem_of_list_to_set, elem_of_video_ids_of. split; [done|].
    by apply (plan_complete D fetched x v). }
  split_and!; [done| |].
  - apply Forall_forall. intros ti Hti Hr.
    pose proof (inv_skipped _ _ _ (plan_invariant D' fetched)) as Hsk.
    rewrite Forall_forall in Hsk.
    destruct (skipped_from_fetched D' fetched ti Hti) as (x & Hx & Hinfo).
    destruct (Hsk ti Hti) as [[Hr' _]|[(Hr' & _)|(_ & Ht & Hm)]];
      [congruence|congruence|].
    apply truthy_inv in Ht as (v & Hv & Hne).
    rewrite Hv in Hm. unfold mem in Hm. apply bool_decide_eq_false in Hm.
    assert (Some v ∈ ti_video_id <$> to_add (plan D' fetched init_locals)) as Hin.
    { apply (plan_complete D' fetched x v); [done| |done|done].
      rewrite <-info_of_video_id, <-Hinfo. by destruct ti. }
    rewrite Hnil in Hin. by apply elem_of_nil in Hin.
  - cbn. by rewrite Hnil.
Qed.

(** X5.  When the destination is found and its tracks are read, the
    destination set holds exactly their non-empty identifiers, and no
    entry to add carries an identifier of a track that is already in
    the destination. *)
Theorem tracks_of_the_destination_are_not_added self σ w1 pls w2 id r w3 :
  yt_open yt (auth_path self) (world σ) = (Ok (), w1) →
  yt_get_library_playlists yt 10000 w1 = (Ok pls, w2) →
  find_dest (dest_title self) pls = Some id →
  id ≠ "" →
  tracks_answer yt id w2 = (Ok r, w3) →
  (∀ v, v ∈ dest_ids yt self σ ↔
        v ≠ "" ∧ ∃ tr, tr ∈ default [] r ∧ track_video_id tr = Some v)
  ∧ ∃ data,
      plan_of yt self σ = Some data
      ∧ ∀ tr v,
          tr ∈ default [] r → track_video_id tr = Some v → v ≠ "" →
          Some v ∉ ti_video_id <$> pd_to_add data.
Proof.
  intros E1 E2 Hd Hid Hf.
  destruct (outcome_after_listing yt self σ w1 pls w2 E1 E2)
    as (D & σ2 & σ3 & fs & fl & Hr & Hw & HD & Hfs & Hfl & Ho).
  rewrite read_destination_cases, Hd in Hr.
  rewrite truthy_Some, bool_decide_false in Hr by done.
  cbn [negb default from_option] in Hr. cbv zeta in Hr.
  unfold Datatypes.id in Hr. rewrite Hw, Hf in Hr.
  injection Hr as <- _. rewrite HD.
  split; [apply elem_of_existing_ids|].
  eexists. split; [unfold plan_of; by rewrite Ho|].
  intros tr v Htr Hv Hne (ti & Hti & Hin)%list_elem_of_fmap.
  cbn in Hin.
  destruct (plan_sound _ _ _ Hin) as (x & u & _ & _ & Hu & _ & HnD).
  rewrite Hu in Hti. injection Hti as <-.
  apply HnD, elem_of_existing_ids. eauto.
Qed.

End PlanExtras.

(** ** The shape of a preview run *)

Section PreviewShape.
Context `{Py.Text} {W : Type} (yt : remote W).
Import PreviewWorker.
Implicit Types (σ : env W) (self : t).

Lemma reads_on_refl σ : reads_on 0 σ σ.
Proof. exists [], []. by rewrite !app_nil_r. Qed.

Lemma reads_on_trans n m σ1 σ2 σ3 :
  reads_on n σ1 σ2 → reads_on m σ2 σ3 → reads_on (n + m) σ1 σ3.
Proof.
  intros (cs & ss & Hc & Hs & Hn & Hcs & Hss)
         (cs' & ss' & Hc' & Hs' & Hm & Hcs' & Hss').
  exists (cs ++ cs'), (ss ++ ss').
  rewrite Hc', Hs', Hc, Hs, <-!app_assoc, length_app.
  split_and!; [done|done|lia|by apply Forall_app|by apply Forall_app].
Qed.

Lemma reads_on_le n m σ σ' : (n ≤ m)%nat → reads_on n σ σ' → reads_on m σ σ'.
Proof.
  intros Hnm (cs & ss & Hc & Hs & Hn & Hcs & Hss).
  exists cs, ss. split_and!; [done|done|lia|done|done].
Qed.

Lemma reads_on_status σ msg : reads_on 0 σ (add_signal σ (Status msg)).
Proof.
  exists [], [Status msg]. cbn. rewrite app_nil_r.
  split_and!; [done|done|done|done|by repeat constructor].
Qed.

Lemma reads_on_call σ c w :
  is_read_call c = true → reads_on 1 σ (add_call σ c w).
Proof.
  intros Hc. exists [c], []. cbn. rewrite app_nil_r.
  split_and!; [done|done|done|by repeat constructor|done].
Qed.

Lemma tracks_call_read id : is_read_call (tracks_call id) = true.
Proof. unfold tracks_call. by destruct (String.eqb id "LM"). Qed.

Lemma reads_on_tracks_fetch id σ r σ' :
  (if String.eqb id "LM" then get_liked_songs_tracks yt 100000
   else get_watch_playlist_tracks yt id 10000) σ = (r, σ') →
  reads_on 1 σ σ'.
Proof.
  rewrite tracks_fetch.
  destruct (tracks_answer yt id (world σ)) as [[o|e] w']; intros [= <- <-];
    apply reads_on_call, tracks_call_read.
Qed.

Lemma reads_on_fetch_source src σ r σ' :
  fetch_source yt src σ = (r, σ') → reads_on 1 σ σ'.
Proof.
  unfold fetch_source. mnorm. unfold try_except, fetch_of.
  set (σ0 := add_signal σ _).
  destruct ((if String.eqb (src_playlistId src) "LM"
             then get_liked_songs_tracks yt 100000
             else get_watch_playlist_tracks yt (src_playlistId src) 10000) σ0)
    as [[trs|e] σ1] eqn:Ef.
  - rewrite (bind_ok _ _ _ _ _ Ef). intros [= <- <-].
    apply (reads_on_trans 0 1 _ σ0); [apply reads_on_status|].
    by apply reads_on_tracks_fetch in Ef.
  - rewrite (bind_raise _ _ _ _ _ Ef). intros [= <- <-].
    apply (reads_on_trans 0 1 _ σ0); [apply reads_on_status|].
    by apply reads_on_tracks_fetch in Ef.
Qed.

Lemma reads_on_fetch_sources srcs σ r σ' :
  fetch_sources yt srcs σ = (r, σ') → reads_on (length srcs) σ σ'.
Proof.
  revert σ r. induction srcs as [|src rest IH]; intros σ r; cbn [fetch_sources].
  { intros [= <- <-]. apply reads_on_refl. }
  destruct (fetch_source_ok yt src σ) as (a & σ1 & E1).
  destruct (fetch_sources_ok yt rest σ1) as (b & σ2 & E2).
  rewrite (bind_ok _ _ _ _ _ E1), (bind_ok _ _ _ _ _ E2).
  intros [= <- <-]. apply (reads_on_trans 1 (length rest) _ σ1).
  - by apply reads_on_fetch_source in E1.
  - by apply IH in E2.
Qed.

Lemma reads_on_fetch_liked b σ r σ' :
  fetch_liked yt b σ = (r, σ') → reads_on 1 σ σ'.
Proof.
  unfold fetch_liked. destruct b.
  2:{ intros [= <- <-]. apply (reads_on_le 0); [lia|apply reads_on_refl]. }
  mnorm. unfold try_except. set (σ0 := add_signal σ _).
  pose proof (reads_on_tracks_fetch "LM" σ0) as Hf. cbn in Hf.
  destruct (get_liked_songs_tracks yt 100000 σ0) as [[trs|e] σ1] eqn:Ef.
  - rewrite (bind_ok _ _ _ _ _ Ef). intros [= <- <-].
    apply (reads_on_trans 0 1 _ σ0); [apply reads_on_status|by eapply Hf].
  - rewrite (bind_raise _ _ _ _ _ Ef). intros [= <- <-].
    apply (reads_on_trans 0 1 _ σ0); [apply reads_on_status|by eapply Hf].
Qed.

Lemma reads_on_read_destination d σ r σ' :
  read_destination yt d σ = (r, σ') → reads_on 1 σ σ'.
Proof.
  rewrite read_destination_cases. destruct (Py.truthy d).
  2:{ intros [= <- <-]. apply (reads_on_le 0); [lia|apply reads_on_refl]. }
  cbv zeta.
  destruct (tracks_answer yt _ _) as [[o|e] w']; intros [= <- <-];
    (eapply (reads_on_trans 0 1);
      [apply reads_on_status|apply reads_on_call, tracks_call_read]).
Qed.

Lemma reads_on_prologue self σ r σ' :
  prologue yt self σ = (r, σ') → reads_on 3 σ σ'.
Proof.
  rewrite prologue_cases.
  destruct (yt_open yt _ _) as [[[]|e] w1].
  2:{ intros [= <- <-]. apply (reads_on_le 1); [lia|by apply reads_on_call]. }
  cbv zeta.
  set (σ1 := add_signal (add_call σ _ w1) _).
  assert (reads_on 1 σ σ1) as H1.
  { apply (reads_on_trans 1 0 _ (add_call σ (CallOpen (auth_path self)) w1));
      [by apply reads_on_call|apply reads_on_status]. }
  destruct (yt_get_library_playlists yt _ _) as [[pls|e] w2].
  2:{ intros [= <- <-]. apply (reads_on_le (1 + 1)); [lia|].
      eapply reads_on_trans; [exact H1|by apply reads_on_call]. }
  destruct (read_destination yt _ _) as [rd σ3] eqn:Er.
  intros [= <- <-]. apply reads_on_read_destination in Er.
  apply (reads_on_trans (1 + 1) 1 _ (add_call σ1 (CallLibraryPlaylists 10000) w2));
    [|done].
  eapply reads_on_trans; [exact H1|by apply reads_on_call].
Qed.

Lemma reads_on_gather self σ r σ' :
  gather yt self σ = (r, σ') → reads_on (length (sources self) + 4) σ σ'.
Proof.
  unfold gather.
  destruct (prologue yt self σ) as [[p|e] σ1] eqn:Ep.
  2:{ rewrite (bind_raise _ _ _ _ _ Ep). intros [= <- <-].
      apply reads_on_prologue in Ep. eapply reads_on_le; [|exact Ep]. lia. }
  rewrite (bind_ok _ _ _ _ _ Ep).
  destruct (fetch_sources_ok yt (sources self) σ1) as (fs & σ2 & E2).
  destruct (fetch_liked_ok yt (include_liked self) σ2) as (fl & σ3 & E3).
  rewrite (bind_ok _ _ _ _ _ E2), (bind_ok _ _ _ _ _ E3).
  intros [= <- <-].
  apply reads_on_prologue in Ep. apply reads_on_fetch_sources in E2.
  apply reads_on_fetch_liked in E3.
  apply (reads_on_le (3 + length (sources self) + 1)); [lia|].
  eapply reads_on_trans; [eapply reads_on_trans|]; done.
Qed.

(** X6.  A preview only reads: whatever the remote answers, the calls
    of a run are the opening of the client, the library listing and
    track fetches, never a creation and never an add-items call; there
    are at most four of them beside one per source. *)
Theorem preview_only_reads self σ :
  ∃ cs,
    calls (run yt self σ).2 = calls σ ++ cs
    ∧ Forall (λ c, is_read_call c = true) cs
    ∧ add_calls_of cs = []
    ∧ (length cs ≤ length (sources self) + 4)%nat.
Proof.
  rewrite run_gather.
  destruct (gather yt self σ) as [r σ'] eqn:Eg.
  destruct (reads_on_gather _ _ _ _ Eg) as (cs & ss & Hc & Hs & Hn & Hcs & Hss).
  exists cs.
  assert (add_calls_of cs = []) as Hadd.
  { clear -Hcs. induction Hcs as [|c cs Hc _ IH]; [done|].
    by destruct c. }
  destruct r as [[[[d D] fs] fl]|e]; cbn; by rewrite Hc.
Qed.

(** X7.  A preview run never lets an exception escape, and it emits its
    terminal signal exactly once, as its last signal: everything it
    emits before is a status text. *)
Theorem preview_ends_with_one_done_signal self σ :
  ∃ σ' ss ok msg data,
    run yt self σ = (Ok (), σ')
    ∧ signals σ' = signals σ ++ ss ++ [PreviewDone ok msg data]
    ∧ Forall (λ s, is_status s = true) ss
    ∧ (ok = true ↔ is_Some data)
    ∧ plan_of yt self σ = data.
Proof.
  unfold plan_of. rewrite outcome_gather, run_gather.
  destruct (gather yt self σ) as [r σ'] eqn:Eg.
  destruct (reads_on_gather _ _ _ _ Eg) as (cs & ss & Hc & Hs & Hn & Hcs & Hss).
  destruct r as [[[[d D] fs] fl]|e]; eexists _, ss, _, _, _;
    (split; [reflexivity|]); cbn; rewrite Hs, <-app_assoc;
    (split; [reflexivity|]); (split; [done|]).
  - split; [|done]. split; eauto.
  - split; [|done]. split; [done|]. by intros [? [=]].
Qed.

End PreviewShape.

(** ** The shape of a publish run *)

Section PublishShape.
Context `{Py.Text} {W : Type} (yt : remote W).
Import PublishWorker.
Implicit Types (σ : env W) (self : t).

Lemma concat_take_batches_any (l : list string) k :
  concat (take k (batches l)) = take (k * 50) l.
Proof.
  destruct (decide (k ≤ length (batches l))%nat) as [Hk|Hk];
    [by apply concat_take_batches|].
  rewrite take_ge by lia. rewrite concat_batches.
  symmetry. apply take_ge.
  rewrite batches_length in Hk. pose proof (div_bounds (length l)). lia.
Qed.

Lemma progress_after_le_100 (l : list string) k :
  (progress_after l k ≤ 100)%nat.
Proof.
  unfold progress_after. rewrite concat_take_batches_any, length_take.
  destruct (length l) as [|n] eqn:Hn.
  { rewrite Nat.min_0_r. cbn. lia. }
  apply Nat.Div0.div_le_upper_bound. lia.
Qed.

Lemma batch_signals_not_done vids k :
  Forall (λ s, is_done s = false) (batch_signals vids k).
Proof.
  unfold batch_signals. generalize 0%nat.
  induction k as [|k IH]; intros j; [constructor|].
  cbn. repeat constructor. apply IH.
Qed.

(** X8.  Whatever the remote answers, the calls of a publish run are
    the opening of the client, then the library listing, then at most
    one creation, then add-items calls for the first batches in order,
    all to one playlist and with duplicates refused: the identifiers
    sent are a prefix of the list, none is sent twice, and no track is
    ever fetched. *)
Theorem publish_calls_are_a_prefix self σ :
  let vids := video_ids self in
  ∃ pre id k,
    calls (run yt self σ).2
    = calls σ ++ pre
        ++ ((λ b, CallAddPlaylistItems id b false) <$> take k (batches vids))
    ∧ (pre = [CallOpen (auth_path self)]
       ∨ pre = [CallOpen (auth_path self); CallLibraryPlaylists 10000]
       ∨ pre = [CallOpen (auth_path self); CallLibraryPlaylists 10000;
                CallCreatePlaylist (dest_title self) (description self)
                                   (privacy self)])
    ∧ (k ≤ length (batches vids))%nat
    ∧ concat (take k (batches vids)) = take (k * 50) vids
    ∧ Forall (λ b, (1 ≤ length b ≤ 50)%nat) (take k (batches vids)).
Proof.
  intros vids.
  assert (Hsizes : ∀ k, Forall (λ b, (1 ≤ length b ≤ 50)%nat)
                               (take k (batches vids))).
  { intros k. apply Forall_take, Forall_lookup. intros i b Hb.
    by destruct (batch_size_bounds _ _ _ Hb) as (? & _). }
  rewrite run_resolve, resolve_cases.
  destruct (yt_open yt _ _) as [[[]|e] w1].
  2:{ exists [CallOpen (auth_path self)], "", 0%nat. cbn [calls snd add_call add_signal take fmap list_fmap].
      rewrite ?app_nil_r. split_and!; [done|by left|unfold vids; lia|done|done]. }
  cbv zeta.
  destruct (yt_get_library_playlists yt _ _) as [[pls|e] w2].
  2:{ exists [CallOpen (auth_path self); CallLibraryPlaylists 10000], "", 0%nat.
      cbn [calls snd add_call add_signal take fmap list_fmap]. rewrite ?app_nil_r, <-?app_assoc.
      split_and!; [done|by right; left|unfold vids; lia|done|done]. }
  destruct (Py.truthy (find_dest (dest_title self) pls)).
  - destruct (write_batches yt _ _ _) as [[k err] w'] eqn:Ew.
    pose proof (write_batches_bound _ _ _ _ _ _ _ Ew) as Hk.
    destruct err as [e|]; unfold publish_final; cbn [calls snd add_call add_signal]; fold vids.
    + eexists [_; _], _, (S k). rewrite <-?app_assoc.
      split_and!; [done|by right; left|unfold vids; lia|apply concat_take_batches_any|done].
    + eexists [_; _], _, k. rewrite <-?app_assoc.
      split_and!; [done|by right; left|unfold vids; lia|apply concat_take_batches_any|done].
  - destruct (yt_create_playlist yt _ _ _ w2) as [[id|e] w3].
    + destruct (write_batches yt _ _ _) as [[k err] w'] eqn:Ew.
      pose proof (write_batches_bound _ _ _ _ _ _ _ Ew) as Hk.
      destruct err as [e|]; unfold publish_final; cbn [calls snd add_call add_signal]; fold vids.
      * eexists [_; _; _], _, (S k). rewrite <-?app_assoc.
        split_and!;
          [done|by right; right|unfold vids; lia|apply concat_take_batches_any|done].
      * eexists [_; _; _], _, k. rewrite <-?app_assoc.
        split_and!;
          [done|by right; right|unfold vids; lia|apply concat_take_batches_any|done].
    + eexists [_; _; _], "", 0%nat. cbn [calls snd add_call add_signal take fmap list_fmap]. rewrite ?app_nil_r, <-?app_assoc.
      split_and!; [done|by right; right|unfold vids; lia|done|done].
Qed.

(** X9.  A publish run never lets an exception escape and emits its
    terminal signal exactly once, as its last signal.  The percentages
    it reports before are those of the first batches in order, never
    above 100, and a failure carries an empty URL. *)
Theorem publish_ends_with_one_done_signal self σ :
  let vids := video_ids self in
  ∃ σ' ss ok msg url k,
    run yt self σ = (Ok (), σ')
    ∧ signals σ' = signals σ ++ ss ++ [PublishDone ok msg url]
    ∧ Forall (λ s, is_done s = false) ss
    ∧ progress_of ss = progress_after vids <$> seq 0 k
    ∧ (k ≤ length (batches vids))%nat
    ∧ Forall (λ p, (p ≤ 100)%nat) (progress_of ss)
    ∧ (ok = false → url = "")
    ∧ (ok = true → k = length (batches vids)).
Proof.
  intros vids.
  assert (H100 : ∀ k, Forall (λ p, (p ≤ 100)%nat)
                             (progress_after vids <$> seq 0 k)).
  { intros k. apply Forall_fmap, Forall_forall. intros i _. cbn.
    apply progress_after_le_100. }
  rewrite run_resolve.
  destruct (resolve yt self σ) as [[id|e] σ1] eqn:Er.
  - pose proof Er as Hr. rewrite resolve_cases in Hr.
    assert (∃ ss0, signals σ1 = signals σ ++ ss0
                   ∧ Forall (λ s, is_done s = false) ss0
                   ∧ progress_of ss0 = []) as (ss0 & Hs0 & Hnd & Hp0).
    { destruct (yt_open yt _ _) as [[[]|e] w1]; [|done]. cbv zeta in Hr.
      destruct (yt_get_library_playlists yt _ _) as [[pls|e] w2]; [|done].
      destruct (Py.truthy _).
      - injection Hr as _ <-. eexists [_]. cbn.
        split_and!; [done|by repeat constructor|done].
      - destruct (yt_create_playlist yt _ _ _ w2) as [r w3].
        injection Hr as _ <-. eexists [_; _]. cbn. rewrite <-app_assoc.
        split_and!; [done|by repeat constructor|done]. }
    destruct (write_batches yt _ _ _) as [[k err] w'] eqn:Ew.
    pose proof (write_batches_bound _ _ _ _ _ _ _ Ew) as Hk.
    pose proof (batch_signals_not_done vids k) as Hb.
    destruct err as [e|]; unfold publish_final;
      cbn [signals snd add_call add_signal]; fold vids; rewrite Hs0.
    + eexists _, (ss0 ++ batch_signals vids k ++ [batch_status vids k]),
        _, _, _, k.
      rewrite <-!app_assoc.
      rewrite !progress_of_app, Hp0, progress_of_batch_signals.
      change (progress_of [batch_status vids k]) with (@nil nat).
      rewrite app_nil_r. cbn [app].
      split_and!; [done|done| |done|unfold vids; lia|done|done|done].
      apply Forall_app. split; [done|]. apply Forall_app. split; [done|].
      by repeat constructor.
    + eexists _, (ss0 ++ batch_signals vids k), _, _, _, k.
      rewrite <-!app_assoc.
      rewrite !progress_of_app, Hp0, progress_of_batch_signals. cbn [app].
      split_and!; [done|done| |done|unfold vids; lia|done|done|done].
      by apply Forall_app.
  - pose proof Er as Hr. rewrite resolve_cases in Hr.
    assert (∃ ss0, signals σ1 = signals σ ++ ss0
                   ∧ Forall (λ s, is_done s = false) ss0
                   ∧ progress_of ss0 = []) as (ss0 & Hs0 & Hnd & Hp0).
    { destruct (yt_open yt _ _) as [[[]|e0] w1].
      2:{ injection Hr as _ <-. exists []. cbn. by rewrite app_nil_r. }
      cbv zeta in Hr.
      destruct (yt_get_library_playlists yt _ _) as [[pls|e0] w2].
      2:{ injection Hr as _ <-. eexists [_]. cbn.
          split_and!; [done|by repeat constructor|done]. }
      destruct (Py.truthy _); [done|].
      destruct (yt_create_playlist yt _ _ _ w2) as [r w3].
      injection Hr as _ <-. eexists [_; _]. cbn. rewrite <-app_assoc.
      split_and!; [done|by repeat constructor|done]. }
    eexists (add_signal σ1 _), ss0, false, _, "", 0%nat.
    cbn [signals add_signal seq fmap list_fmap]. rewrite Hs0, <-app_assoc, Hp0.
    split_and!; [done|done|done|done|unfold vids; lia|done|done|done].
Qed.

End PublishShape.

(** ** Display texts *)

Section DisplayTexts.
Import Stdlib.Strings.Ascii.

Lemma colon_free_pretty_N_go x s : colon_free s → colon_free (pretty_N_go x s).
Proof.
  revert s. induction (N.lt_wf_0 x) as [x _ IH]; intros s Hs.
  assert (x = 0 ∨ 0 < x)%N as [->|Hx] by lia.
  - by rewrite pretty_N_go_0.
  - rewrite pretty_N_go_step by done. apply IH.
    { by apply N.div_lt. }
    split; [|done]. unfold pretty_N_char. by repeat case_match.
Qed.

Lemma colon_free_pretty_Z z : (0 ≤ z)%Z → colon_free (pretty z).
Proof.
  destruct z as [|p|p]; [by intros _; split|intros _|lia].
  unfold pretty, pretty_Z, pretty, pretty_positive, pretty, pretty_N.
  case_decide; [by split|]. by apply colon_free_pretty_N_go.
Qed.

Lemma colon_free_app a b : colon_free a → colon_free b → colon_free (a +:+ b).
Proof. induction a as [|c a IH]; [done|]. intros [? ?] ?. split; auto. Qed.

Lemma colon_free_no_colon a b : ¬ colon_free (a +:+ String ":" b).
Proof.
  induction a as [|c a IH]; cbn; [by intros [? _]|]. by intros [_ ?].
Qed.

Lemma split_at_colon a a' b b' :
  colon_free a → colon_free a' →
  a +:+ String ":" b = a' +:+ String ":" b' → a = a' ∧ b = b'.
Proof.
  revert a'. induction a as [|c a IH]; intros [|c' a']; cbn.
  - by intros _ _ [= ->].
  - intros _ [Hc _] [= <- _]. done.
  - intros [Hc _] _ [= -> _]. done.
  - intros [_ Ha] [_ Ha'] [= -> Heq].
    destruct (IH a' Ha Ha' Heq) as [-> ->]. done.
Qed.

Lemma colon_free_fmt_02d z : (0 ≤ z)%Z → colon_free (Py.fmt_02d z).
Proof.
  intros Hz. unfold Py.fmt_02d. cbv zeta.
  destruct (_ <? _)%nat; [split; [done|]|]; by apply colon_free_pretty_Z.
Qed.

Lemma fmt_02d_inj z z' :
  (0 ≤ z < 60)%Z → (0 ≤ z' < 60)%Z →
  Py.fmt_02d z = Py.fmt_02d z' → z = z'.
Proof.
  assert (Forall (λ a, Forall (λ b, Py.fmt_02d a = Py.fmt_02d b → a = b)
                              (seqZ 0 60)) (seqZ 0 60)) as Htab
    by compute_done.
  intros Hz Hz'. rewrite Forall_forall in Htab.
  specialize (Htab z). rewrite Forall_forall in Htab.
  apply Htab; apply elem_of_seqZ; lia.
Qed.

Lemma fmt_02d_length z :
  (0 ≤ z < 60)%Z → String.length (Py.fmt_02d z) = 2%nat.
Proof.
  assert (Forall (λ a, String.length (Py.fmt_02d a) = 2%nat) (seqZ 0 60))
    as Htab by compute_done.
  intros Hz. rewrite Forall_forall in Htab. apply Htab, elem_of_seqZ. lia.
Qed.

(** X10.  Two different durations, in whole seconds from 0 on, are
    never shown by the same text. *)
Theorem format_duration_is_injective a b :
  (0 ≤ a)%Z → (0 ≤ b)%Z →
  format_duration (Some a) = format_duration (Some b) → a = b.
Proof.
  intros Ha Hb. unfold format_duration. cbv zeta.
  pose proof (Z.div_mod a 60 ltac:(lia)) as Hda.
  pose proof (Z.div_mod b 60 ltac:(lia)) as Hdb.
  pose proof (Z.div_mod (a / 60) 60 ltac:(lia)) as Hda'.
  pose proof (Z.div_mod (b / 60) 60 ltac:(lia)) as Hdb'.
  pose proof (Z.mod_pos_bound a 60 ltac:(lia)) as Hsa.
  pose proof (Z.mod_pos_bound b 60 ltac:(lia)) as Hsb.
  pose proof (Z.mod_pos_bound (a / 60) 60 ltac:(lia)) as Hma.
  pose proof (Z.mod_pos_bound (b / 60) 60 ltac:(lia)) as Hmb.
  assert (0 ≤ a / 60)%Z as Hqa by (apply Z.div_pos; lia).
  assert (0 ≤ b / 60)%Z as Hqb by (apply Z.div_pos; lia).
  assert (0 ≤ a / 60 / 60)%Z as Hha by (apply Z.div_pos; lia).
  assert (0 ≤ b / 60 / 60)%Z as Hhb by (apply Z.div_pos; lia).
  set (sa := (a mod 60)%Z) in *. set (sb := (b mod 60)%Z) in *.
  set (ma := ((a / 60) mod 60)%Z) in *. set (mb := ((b / 60) mod 60)%Z) in *.
  set (ha := (a / 60 / 60)%Z) in *. set (hb := (b / 60 / 60)%Z) in *.
  destruct (Z.eqb_spec ha 0) as [Ea|Ea], (Z.eqb_spec hb 0) as [Eb|Eb].
  - intros Heq.
    apply split_at_colon in Heq as [Hm Hs]; [|apply colon_free_pretty_Z; lia..].
    apply (inj pretty) in Hm. apply fmt_02d_inj in Hs; [|lia..]. lia.
  - intros Heq.
    apply split_at_colon in Heq as [_ Hs]; [|apply colon_free_pretty_Z; lia..].
    exfalso. apply (colon_free_no_colon (Py.fmt_02d mb) (Py.fmt_02d sb)).
    pose proof (colon_free_fmt_02d sa ltac:(lia)) as Hfree.
    rewrite Hs in Hfree. exact Hfree.
  - intros Heq.
    apply split_at_colon in Heq as [_ Hs]; [|apply colon_free_pretty_Z; lia..].
    exfalso. apply (colon_free_no_colon (Py.fmt_02d ma) (Py.fmt_02d sa)).
    pose proof (colon_free_fmt_02d sb ltac:(lia)) as Hfree.
    rewrite <-Hs in Hfree. exact Hfree.
  - intros Heq.
    apply split_at_colon in Heq as [Hh Heq]; [|apply colon_free_pretty_Z; lia..].
    apply split_at_colon in Heq as [Hm Hs];
      [|apply colon_free_fmt_02d; lia..].
    apply (inj pretty) in Hh.
    apply fmt_02d_inj in Hm; [|lia..]. apply fmt_02d_inj in Hs; [|lia..].
    lia.
Qed.

Lemma app_colon_nonempty a b : a +:+ String ":" b ≠ "".
Proof. by destruct a. Qed.

Lemma format_duration_nonempty z : format_duration (Some z) ≠ "".
Proof.
  unfold format_duration. cbv zeta.
  destruct (_ =? _)%Z; apply app_colon_nonempty.
Qed.

Lemma truthy_default o : Py.truthy o = true → Py.get_default o "" ≠ "".
Proof. by intros (v & -> & Hv)%truthy_inv. Qed.

(** X11.  The duration text of a track is never empty.  It is the
    first non-empty one of the fields [duration], [length] and
    [lengthText]; only when all three are missing or empty is
    [lengthSeconds] formatted, and the dash is shown when that is
    missing too. *)
Theorem duration_text_is_never_empty (t : track) :
  get_duration_text t ≠ ""
  ∧ (∀ d, tr_duration t = Some d → d ≠ "" → get_duration_text t = d)
  ∧ (Py.truthy (tr_duration t) = false →
     ∀ d, tr_length t = Some d → d ≠ "" → get_duration_text t = d)
  ∧ (Py.truthy (tr_duration t) = false → Py.truthy (tr_length t) = false →
     ∀ d, tr_lengthText t = Some d → d ≠ "" → get_duration_text t = d)
  ∧ (Py.truthy (tr_duration t) = false → Py.truthy (tr_length t) = false →
     Py.truthy (tr_lengthText t) = false →
     get_duration_text t
     = match tr_lengthSeconds t with
       | Some sec => format_duration (Some sec)
       | None => DASH
       end).
Proof.
  unfold get_duration_text. split_and!.
  - destruct (Py.truthy (tr_duration t)) eqn:H1; [by apply truthy_default|].
    destruct (Py.truthy (tr_length t)) eqn:H2; [by apply truthy_default|].
    destruct (Py.truthy (tr_lengthText t)) eqn:H3; [by apply truthy_default|].
    destruct (tr_lengthSeconds t); [apply format_duration_nonempty|done].
  - intros d -> Hd. by rewrite truthy_Some, bool_decide_false.
  - intros -> d -> Hd. by rewrite truthy_Some, bool_decide_false.
  - intros -> -> d -> Hd. by rewrite truthy_Some, bool_decide_false.
  - by intros -> -> ->.
Qed.

Lemma named_artists_nil (l : list artist) :
  Forall (λ a, Py.truthy (ar_name a) = false) l →
  omap (λ a, if Py.truthy (ar_name a) then ar_name a else None) l = [].
Proof. induction 1 as [|a l Ha _ IH]; [done|]. cbn. by rewrite Ha. Qed.

(** X12.  When a track has a non-empty list of artists, its artist
    text is made of the non-empty names of that list alone, joined by
    a comma and a blank: the fields [author] and [artistsText] are
    not consulted, even when no artist of the list has a name and the
    text is empty.  They are used, [author] first, only when the list
    is missing or empty. *)
Theorem artist_text_prefers_the_artist_list (t : track) :
  (∀ a l,
      tr_artists t = Some (a :: l) →
      get_artist_text t
      = String.concat ", "
          (omap (λ a, if Py.truthy (ar_name a) then ar_name a else None)
                (a :: l))
      ∧ (Forall (λ a, Py.truthy (ar_name a) = false) (a :: l) →
         get_artist_text t = ""))
  ∧ (tr_artists t = None ∨ tr_artists t = Some [] →
     get_artist_text t
     = match tr_author t with
       | Some s => s
       | None => Py.get_default (tr_artistsText t) ""
       end).
Proof.
  unfold get_artist_text. split.
  - intros a l ->. split.
    + cbv zeta. set (names := omap _ (a :: l)). by destruct names.
    + intros Hall. cbv zeta. by rewrite (named_artists_nil _ Hall).
  - by intros [-> | ->].
Qed.

(** X13.  Identifier extraction and the plan: a non-empty [videoId] is
    the identifier of a track whatever [setVideoId] holds, and
    [setVideoId] is used only when [videoId] is missing or empty.  So
    once the loops have processed a track with a non-empty [videoId],
    a later track with the same [videoId] is never added, whatever the
    two hold as [setVideoId]: the entries to add and the seen set stay
    as they are and the track is skipped, as already in the destination
    when the identifier is in the destination set and as a duplicate
    otherwise. *)
Theorem video_id_prefers_the_primary_field D pre x x' v :
  x ∈ pre →
  tr_videoId x.2 = Some v →
  tr_videoId x'.2 = Some v →
  v ≠ "" →
  let before := plan D pre PreviewWorker.init_locals in
  let after := plan D (pre ++ [x']) PreviewWorker.init_locals in
  track_video_id x.2 = Some v
  ∧ track_video_id x'.2 = Some v
  ∧ PreviewWorker.to_add after = PreviewWorker.to_add before
  ∧ PreviewWorker.seen_ids after = PreviewWorker.seen_ids before
  ∧ (∃ ti, PreviewWorker.skipped after = PreviewWorker.skipped before ++ [ti]
           ∧ clear_reason ti = info_of x'
           ∧ ti_reason ti
             = Some (if decide (v ∈ D) then "Already in destination"
                     else "Duplicate"))
  ∧ (∀ u, Py.truthy (tr_videoId u) = false →
          track_video_id u = tr_setVideoId u).
Proof.
  intros Hx Hv Hv' Hne before after.
  assert (∀ u, tr_videoId u = Some v → track_video_id u = Some v) as Hid.
  { intros u Hu. unfold track_video_id, Py.or.
    by rewrite Hu, truthy_Some, bool_decide_false. }
  pose proof (Hid _ Hv) as Hi. pose proof (Hid _ Hv') as Hi'.
  assert (Hseen : v ∉ D → v ∈ PreviewWorker.seen_ids before).
  { intros HD. apply (inv_seen _ _ _ (plan_invariant D pre)).
    split_and!; [done..|].
    apply list_elem_of_fmap. exists x. by rewrite <-Hi. }
  assert (Hstep : after
                  = apply_verdict
                      (if decide (v ∈ D) then AlreadyInDestination
                       else Duplicate) x' before).
  { unfold after, before. rewrite plan_snoc, plan_step_classify, Hi'.
    f_equal. unfold classify. repeat case_decide; try done.
    exfalso. match goal with Hn : v ∉ PreviewWorker.seen_ids _ |- _ =>
      apply Hn end. by apply Hseen. }
  split_and!; [done|done|..].
  - rewrite Hstep. by case_decide.
  - rewrite Hstep. by case_decide.
  - rewrite Hstep. case_decide; cbn; eexists; split_and!; reflexivity.
  - intros u Ht. unfold track_video_id, Py.or. by rewrite Ht.
Qed.

End DisplayTexts.

(** ** The main window *)

Section WindowFacts.
Context `{Py.Text}.
Import Window.
Implicit Types (items : list list_item) (it : list_item).

Lemma prefix_spec p s :
  String.prefix p s = true ↔ ∃ post, s = p +:+ post.
Proof.
  revert s. induction p as [|a p IH]; intros s;
    cbn [String.prefix String.append].
  { destruct s; split; eauto. }
  destruct s as [|b s]; [split; [done|by intros [? [=]]]|].
  change (String.prefix (String a p) (String b s))
    with (if Ascii.ascii_dec a b then String.prefix p s else false).
  change (String a p +:+ ?x) with (String a (p +:+ x)).
  destruct (Ascii.ascii_dec a b) as [->|Hne].
  - rewrite IH. split; intros [post Hp]; exists post; congruence.
  - split; [done|]. intros [post [= ? _]]. done.
Qed.

Lemma contains_spec needle hay :
  contains needle hay = true ↔ ∃ pre post, hay = pre +:+ needle +:+ post.
Proof.
  induction hay as [|c hay IH]; cbn [contains];
    rewrite orb_true_iff, prefix_spec.
  - split.
    + intros [[post Hp]|?]; [|done]. by exists "", post.
    + intros (pre & post & Hp). left.
      destruct pre; [by exists post|done].
  - rewrite IH. split.
    + intros [[post Hp]|(pre & post & Hp)].
      * by exists "", post.
      * exists (String c pre), post. cbn. by rewrite Hp.
    + intros ([|d pre] & post & Hp).
      * left. by exists post.
      * right. injection Hp as -> Hp. eauto.
Qed.

Lemma rows_filter q items : rows (filter_playlists q items) = rows items.
Proof.
  unfold rows, filter_playlists. cbv zeta.
  rewrite <-list_fmap_compose. by apply list_fmap_ext.
Qed.

Lemma rows_set_all b items : rows (set_all_selected b items) = rows items.
Proof.
  unfold rows, set_all_selected. rewrite <-list_fmap_compose.
  apply list_fmap_ext. intros i it _. cbn. by destruct (it_hidden it).
Qed.

Lemma elem_of_selected d items s :
  s ∈ get_selected_playlists d items ↔
  ∃ it, it ∈ items ∧ it_checked it = true
        ∧ Py.lower (it_text it) ≠ Py.lower (Py.strip d)
        ∧ s = mkSource (it_text it) (it_data it).
Proof.
  unfold get_selected_playlists. cbv zeta. rewrite list_elem_of_omap.
  split.
  - intros (it & Hit & Hs). exists it.
    destruct (it_checked it); [|done].
    destruct (String.eqb_spec (Py.lower (it_text it)) (Py.lower (Py.strip d)));
      [done|].
    cbn in Hs. injection Hs as <-. done.
  - intros (it & Hit & Hc & Hne & ->). exists it. split; [done|].
    rewrite Hc.
    by destruct (String.eqb_spec (Py.lower (it_text it))
                                 (Py.lower (Py.strip d))).
Qed.

Lemma elem_of_loaded pls items0 it :
  it ∈ on_playlists_loaded true pls items0 ↔
  ∃ p id, p ∈ pls ∧ pl_playlistId p = Some id ∧ id ≠ ""
          ∧ it = mkItem (Py.get_default (pl_title p) "Untitled") id
                        false false.
Proof.
  unfold on_playlists_loaded. rewrite list_elem_of_omap. split.
  - intros (p & Hp & Hit). cbv zeta in Hit.
    destruct (Py.truthy (pl_playlistId p)) eqn:Ht; [|done].
    apply truthy_inv in Ht as (id & Hid & Hne). rewrite Hid in Hit.
    injection Hit as <-. eauto 10.
  - intros (p & id & Hp & Hid & Hne & ->). exists p. split; [done|].
    cbv zeta. by rewrite Hid, truthy_Some, bool_decide_false.
Qed.

(** X15.  The sources handed to a preview are playlists of the loaded
    library: each one is a row that is checked, carries the non-empty
    identifier and the title of a listed playlist (["Untitled"] when
    the playlist has none), and has a title that, lowercased, differs
    from the destination title stripped and lowercased; they come in
    the order of the list.  When the listed playlist has a title that
    stripping leaves as it is, it does not match the destination
    title. *)
Theorem selected_sources_are_listed_playlists pls items0 items d s :
  rows items = rows (on_playlists_loaded true pls items0) →
  s ∈ get_selected_playlists d items →
  src_playlistId s ≠ ""
  ∧ (∃ p, p ∈ pls ∧ pl_playlistId p = Some (src_playlistId s)
          ∧ src_title s = Py.get_default (pl_title p) "Untitled"
          ∧ (pl_title p ≠ None →
             Py.strip (src_title s) = src_title s →
             ¬ title_matches d p))
  ∧ Py.lower (src_title s) ≠ Py.lower (Py.strip d)
  ∧ get_selected_playlists d items
    `sublist_of` ((λ it, mkSource (it_text it) (it_data it)) <$> items).
Proof.
  intros Hrows (it & Hit & Hc & Hne & ->)%elem_of_selected. cbn.
  assert ((it_text it, it_data it) ∈ rows items) as Hrow.
  { apply list_elem_of_fmap. eauto. }
  rewrite Hrows in Hrow.
  apply list_elem_of_fmap in Hrow as (it' & Heq & Hit').
  apply elem_of_loaded in Hit' as (p & id & Hp & Hid & Hnid & ->).
  cbn in Heq. injection Heq as Ht Hd.
  split_and!.
  - by rewrite Hd.
  - exists p. split_and!; [done|by rewrite Hd|done|].
    intros Hsome Hs. unfold title_matches.
    destruct (pl_title p) as [t|]; [|done]. cbn in Ht |- *.
    rewrite <-Ht, Hs. exact Hne.
  - done.
  - unfold get_selected_playlists. cbv zeta. clear.
    induction items as [|x items IH]; [done|]. cbn.
    destruct (it_checked x); [|by constructor].
    destruct (negb _); by constructor.
Qed.

(** X16.  Typing in the filter box never changes what will be merged:
    it hides the rows whose lowercased title does not contain the
    lowercased filter text, keeps titles, identifiers and check marks,
    and the selection is read from the check marks alone, hidden rows
    included. *)
Theorem filter_does_not_change_the_selection q d items :
  get_selected_playlists d (filter_playlists q items)
  = get_selected_playlists d items
  ∧ rows (filter_playlists q items) = rows items
  ∧ it_checked <$> filter_playlists q items = it_checked <$> items
  ∧ (∀ i it,
      filter_playlists q items !! i = Some it →
      it_hidden it = false ↔
      ∃ pre post, Py.lower (it_text it) = pre +:+ Py.lower q +:+ post).
Proof.
  split_and!.
  - unfold get_selected_playlists, filter_playlists. cbv zeta.
    induction items as [|x items IH]; [done|]. cbn. by rewrite IH.
  - apply rows_filter.
  - unfold filter_playlists. cbv zeta. rewrite <-list_fmap_compose.
    by apply list_fmap_ext.
  - intros i it. unfold filter_playlists. cbv zeta.
    rewrite list_lookup_fmap.
    destruct (items !! i) as [x|]; [|done]. cbn. intros [= <-]. cbn.
    rewrite negb_false_iff. apply contains_spec.
Qed.

(** X17.  "Select all" and "deselect all" act on the visible rows
    only: a hidden row keeps its check mark, so a checked row that the
    filter hides is still merged after "deselect all"; with no row
    hidden, "deselect all" leaves nothing selected. *)
Theorem select_all_skips_hidden_rows b d items :
  rows (set_all_selected b items) = rows items
  ∧ (∀ it, it ∈ items → it_hidden it = true → it ∈ set_all_selected b items)
  ∧ (∀ it, it ∈ set_all_selected b items → it_hidden it = false →
           it_checked it = b)
  ∧ (∀ it, it ∈ items → it_hidden it = true → it_checked it = true →
           Py.lower (it_text it) ≠ Py.lower (Py.strip d) →
           mkSource (it_text it) (it_data it)
           ∈ get_selected_playlists d (set_all_selected false items))
  ∧ (Forall (λ it, it_hidden it = false) items →
     get_selected_playlists d (set_all_selected false items) = []).
Proof.
  assert (Hin : ∀ it, it ∈ items → it_hidden it = true →
                      it ∈ set_all_selected b items ∧
                      it ∈ set_all_selected false items).
  { intros it Hit Hh. split; apply list_elem_of_fmap; exists it;
      by rewrite Hh. }
  split_and!.
  - apply rows_set_all.
  - intros it Hit Hh. by apply Hin.
  - intros it (x & -> & Hx)%list_elem_of_fmap.
    destruct (it_hidden x) eqn:Hh; [by rewrite Hh|done].
  - intros it Hit Hh Hc Hne. apply elem_of_selected. exists it.
    split_and!; [by apply Hin|done..].
  - intros Hall. clear Hin.
    unfold get_selected_playlists, set_all_selected. cbv zeta.
    induction Hall as [|x items Hx _ IH]; [done|]. cbn. rewrite Hx. cbn.
    exact IH.
Qed.

Lemma video_ids_of_spec (l : list track_info) :
  Forall (λ ti, Py.truthy (ti_video_id ti) = true) l →
  Some <$> video_ids_of l = ti_video_id <$> l.
Proof.
  unfold video_ids_of. induction 1 as [|ti l Hti _ IH]; [done|].
  cbn. rewrite Hti. apply truthy_inv in Hti as (v & Hv & _).
  rewrite Hv. cbn. f_equal. exact IH.
Qed.

(** X18.  The window never starts a worker that has nothing to do: no
    preview without a selected source unless the liked songs are
    included, no publish without a stored plan or with no identifier to
    add.  A publish that is started gets a non-empty list of non-empty
    identifiers, the title and privacy as typed, and the fixed
    description. *)
Theorem window_starts_no_idle_worker (w : t) :
  (preview_merge w = None ↔
   get_selected_playlists (dest_input w) (playlist_list w) = []
   ∧ include_liked w = false)
  ∧ (∀ pw, preview_merge w = Some pw →
           PreviewWorker.sources pw
           = get_selected_playlists (dest_input w) (playlist_list w)
           ∧ PreviewWorker.dest_title pw = dest_input w
           ∧ PreviewWorker.include_liked pw = include_liked w)
  ∧ (preview_data w = None → publish_playlist w = None)
  ∧ (∀ pw, publish_playlist w = Some pw →
           PublishWorker.video_ids pw ≠ []
           ∧ Forall (λ v, v ≠ "") (PublishWorker.video_ids pw)
           ∧ PublishWorker.dest_title pw = dest_input w
           ∧ PublishWorker.privacy pw = privacy_combo w
           ∧ PublishWorker.description pw
             = "Auto-merged playlist from YouTube Music").
Proof.
  split_and!.
  - unfold preview_merge. cbv zeta.
    destruct (get_selected_playlists _ _), (include_liked w); naive_solver.
  - unfold preview_merge. cbv zeta. intros pw.
    destruct (get_selected_playlists _ _), (include_liked w);
      intros [= <-]; done.
  - unfold publish_playlist. by intros ->.
  - intros pw. unfold publish_playlist.
    destruct (preview_data w) as [data|]; [|done].
    destruct (video_ids_of (pd_to_add data)) as [|v vids] eqn:Hv; [done|].
    intros [= <-]. cbn. split_and!; try done.
    rewrite <-Hv. apply Forall_forall. intros u Hu.
    apply elem_of_video_ids_of in Hu. tauto.
Qed.

(** X20.  Loading the library again forgets the selection and the
    filter: after a successful load every row is visible and
    unchecked, whatever the list held before, so nothing is selected;
    the rows are the listed playlists that have an identifier, in the
    order of the listing; and a failed load leaves the list as it
    was. *)
Theorem reloading_forgets_the_selection pls items d :
  let loaded := on_playlists_loaded true pls items in
  get_selected_playlists d loaded = []
  ∧ Forall (λ it, it_checked it = false ∧ it_hidden it = false
                  ∧ it_data it ≠ "") loaded
  ∧ Some <$> (it_data <$> loaded)
    = pl_playlistId <$> filter (λ p, Py.truthy (pl_playlistId p) = true) pls
  ∧ on_playlists_loaded false pls items = items.
Proof.
  intros loaded.
  assert (Hall : Forall (λ it, it_checked it = false ∧ it_hidden it = false
                               ∧ it_data it ≠ "") loaded).
  { apply Forall_forall. intros it Hit.
    apply elem_of_loaded in Hit as (p & id & _ & _ & Hne & ->). done. }
  split_and!; [|done| |done].
  - apply elem_of_nil_inv. intros s Hs.
    apply elem_of_selected in Hs as (it & Hit & Hc & _).
    rewrite Forall_forall in Hall. destruct (Hall it Hit) as [Hc' _].
    congruence.
  - unfold loaded, on_playlists_loaded. clear.
    induction pls as [|p pls IH]; [done|].
    rewrite filter_cons. cbn. cbv zeta.
    destruct (decide _) as [Ht|Ht].
    + rewrite Ht. pose proof Ht as (id & Hid & _)%truthy_inv.
      rewrite Hid. cbn. rewrite Hid. f_equal. exact IH.
    + apply not_true_is_false in Ht. rewrite Ht. exact IH.
Qed.



(** X21.  The exclusion of the destination from the sources compares
    the lowercased title of the row with the destination title
    stripped and lowercased, while the workers strip the title of the
    playlist too.  So a checked row whose title matches the
    destination, as the workers match it, is left out of the sources
    exactly when lowercasing its title and lowercasing its stripped
    title give the same; otherwise, as for a title with blanks around,
    the playlist is kept as a source of its own merge. *)
Theorem padded_destination_row_stays_a_source d items it :
  it ∈ items →
  it_checked it = true →
  title_matches d (mkPlaylist (Some (it_text it)) (Some (it_data it))) →
  mkSource (it_text it) (it_data it) ∈ get_selected_playlists d items
  ↔ Py.lower (it_text it) ≠ Py.lower (Py.strip (it_text it)).
Proof.
  intros Hit Hc Hm. unfold title_matches in Hm.
  cbn [Py.get_default pl_title] in Hm.
  rewrite elem_of_selected, Hm. split.
  - intros (it' & _ & _ & Hne & [= Ht _]). by rewrite Ht.
  - intros Hne. exists it. by split_and!.
Qed.

End WindowFacts.

Section WindowAndPlan.
Context `{Py.Text} {W : Type} (yt : remote W).
Import Window.

(** X19.  From preview to publish: when a preview reports a plan and
    the window stores it, the publish it starts receives exactly the
    identifiers of the entries to add, in their order, none dropped and
    none twice, all outside the destination set of the preview; and no
    publish is started exactly when the plan has nothing to add. *)
Theorem publish_gets_the_ids_of_the_plan self σ data msg (w : t) :
  plan_of yt self σ = Some data →
  let w' := on_preview_done true msg (Some data) w in
  let ids := video_ids_of (pd_to_add data) in
  Some <$> ids = ti_video_id <$> pd_to_add data
  ∧ length ids = length (pd_to_add data)
  ∧ NoDup ids
  ∧ Forall (λ v, v ≠ "" ∧ v ∉ dest_ids yt self σ) ids
  ∧ (publish_playlist w' = None ↔ pd_to_add data = [])
  ∧ (∀ pw, publish_playlist w' = Some pw → PublishWorker.video_ids pw = ids).
Proof.
  intros (dest_id & ->)%plan_of_gathered w' ids.
  change (pd_to_add (report dest_id ?p)) with (PreviewWorker.to_add p) in *.
  set (D := dest_ids yt self σ) in *.
  set (fetched := fetched_sources yt self σ ++ fetched_liked yt self σ) in *.
  pose proof (plan_sound D fetched) as Hsound.
  assert (Htruthy : Forall (λ ti, Py.truthy (ti_video_id ti) = true)
                           (PreviewWorker.to_add
                              (plan D fetched PreviewWorker.init_locals))).
  { apply Forall_forall. intros ti Hti.
    destruct (Hsound ti Hti) as (x & v & _ & _ & Hv & Hne & _).
    by rewrite Hv, truthy_Some, bool_decide_false. }
  pose proof (video_ids_of_spec _ Htruthy) as Hids. fold ids in Hids.
  assert (Hlen : length ids
                 = length (PreviewWorker.to_add
                             (plan D fetched PreviewWorker.init_locals))).
  { by rewrite <-(length_fmap Some ids), Hids, length_fmap. }
  split_and!; [done|done| | | |].
  - apply (NoDup_fmap Some). rewrite Hids.
    rewrite (inv_first_seen _ _ _ (plan_invariant _ _)).
    rewrite <-list_fmap_compose. apply (first_seen_NoDup D []).
  - apply Forall_forall. intros v Hv.
    apply elem_of_video_ids_of in Hv as [Hne (ti & Hv & Hti)%list_elem_of_fmap].
    destruct (Hsound ti Hti) as (x & u & _ & _ & Hu & _ & HD).
    rewrite Hu in Hv. injection Hv as ->. done.
  - rewrite <-(length_zero_iff_nil (PreviewWorker.to_add _)), <-Hlen,
      length_zero_iff_nil.
    unfold publish_playlist, w', on_preview_done. cbn [preview_data].
    change (video_ids_of _) with ids. by destruct ids.
  - intros pw. unfold publish_playlist, w', on_preview_done.
    cbn [preview_data]. change (video_ids_of _) with ids.
    destruct ids; [done|]. by intros [= <-].
Qed.

End WindowAndPlan.
(** ** The extras on concrete runs *)

Section ExtraWitnesses.
Import Fake Scenario Session.
#[local] Existing Instance Py.ascii.

(** X1 on the scenario: two tracks already in the destination, two
    duplicates and one without identifier. *)
Lemma reason_counts_add_up_witness :
  ∃ data,
    plan_of client preview (start library) = Some data
    ∧ ∃ a d n,
        stat "Tracks skipped" (pd_stats data) = Some (SInt (a + d + n))
        ∧ stat "Total tracks processed" (pd_stats data)
          = Some (SInt (length (pd_to_add data) + a + d + n))
        ∧ a = count_skipped "Already in destination" (pd_skipped data)
        ∧ d = count_skipped "Duplicate" (pd_skipped data)
        ∧ n = count_skipped "No video ID" (pd_skipped data).
Proof.
  eexists. split; [vm_compute; reflexivity|].
  edestruct (reason_counts_add_up client preview (start library))
    as (a & d & n & _ & _ & _ & H4 & H5 & H6 & H7 & H8);
    [vm_compute; reflexivity|].
  exists a, d, n.
  split; [exact H4|]. split; [exact H5|]. split; [exact H6|].
  split; [exact H7|exact H8].
Defined.

(** X2 on the liked song [v9] of the scenario. *)
Lemma no_fetched_track_is_lost_witness :
  ∃ data,
    plan_of client preview (start library) = Some data
    ∧ Some "v9" ∈ ti_video_id <$> pd_to_add data.
Proof.
  eexists. split; [vm_compute; reflexivity|].
  edestruct (no_fetched_track_is_lost client preview (start library))
    as [H _]; [vm_compute; reflexivity|].
  apply (H ("Liked Songs", song "v9" "z") "v9").
  - vm_compute. repeat first [constructor 1 | constructor 2].
  - reflexivity.
  - discriminate.
  - compute_done.
Defined.

(** X3 on the first skipped entry of the scenario. *)
Lemma skip_reasons_are_justified_witness :
  ∃ data ti,
    plan_of client preview (start library) = Some data
    ∧ ti ∈ pd_skipped data
    ∧ ∃ x, x ∈ fetched_sources client preview (start library)
               ++ fetched_liked client preview (start library)
           ∧ clear_reason ti = info_of x.
Proof.
  eexists _, _. split; [vm_compute; reflexivity|].
  split; [cbn [pd_skipped]; constructor 1|].
  edestruct (skip_reasons_are_justified client preview (start library))
    as [H _].
  - vm_compute. reflexivity.
  - cbn [pd_skipped]. constructor 1.
  - exact H.
Defined.

(** X4 on the scenario and on its library after the publish. *)
Lemma replanning_after_publish_adds_nothing_witness :
  ∃ data data',
    plan_of client preview (start library) = Some data
    ∧ plan_of client preview (start published) = Some data'
    ∧ pd_to_add data' = []
    ∧ Forall (λ ti, ti_reason ti ≠ Some "Duplicate") (pd_skipped data').
Proof.
  eexists _, _. split; [vm_compute; reflexivity|].
  split; [vm_compute; reflexivity|].
  edestruct (replanning_after_publish_adds_nothing
               client client preview (start library))
    with (self' := preview) (σ' := start published) as (H1 & H2 & _).
  - vm_compute. reflexivity.
  - vm_compute. reflexivity.
  - vm_compute. reflexivity.
  - compute_done.
  - split; [exact H1|exact H2].
Defined.

(** X5 on the destination of the scenario, which holds [v1]. *)
Lemma tracks_of_the_destination_are_not_added_witness :
  ∃ data,
    plan_of client preview (start library) = Some data
    ∧ Some "v1" ∉ ti_video_id <$> pd_to_add data.
Proof.
  edestruct (tracks_of_the_destination_are_not_added client preview
               (start library) library playlists library "PLD"
               (Some [song "v1" "a"]) library)
    as (_ & data & Hp & Hno).
  - vm_compute. reflexivity.
  - vm_compute. reflexivity.
  - vm_compute. reflexivity.
  - discriminate.
  - vm_compute. reflexivity.
  - exists data. split; [exact Hp|].
    apply (Hno (song "v1" "a") "v1");
      [constructor 1|reflexivity|discriminate].
Defined.

(** X7 on the scenario: the run succeeds and reports its plan. *)
Lemma preview_ends_with_one_done_signal_witness :
  ∃ σ' ss ok msg data,
    PreviewWorker.run client preview (start library) = (Ok (), σ')
    ∧ signals σ' = ss ++ [PreviewDone ok msg data]
    ∧ Forall (λ s, is_status s = true) ss
    ∧ (ok = true ↔ is_Some data).
Proof.
  destruct (preview_ends_with_one_done_signal client preview (start library))
    as (σ' & ss & ok & msg & data & H1 & H2 & H3 & H4 & _).
  exists σ', ss, ok, msg, data.
  split; [exact H1|]. split; [exact H2|]. split; [exact H3|exact H4].
Defined.

(** X9 on a publish whose second add-items call raises. *)
Lemma publish_ends_with_one_done_signal_witness :
  ∃ σ' ss ok msg url,
    PublishWorker.run client publish (start second_batch_fails) = (Ok (), σ')
    ∧ signals σ' = ss ++ [PublishDone ok msg url]
    ∧ Forall (λ s, is_done s = false) ss
    ∧ (ok = false → url = "").
Proof.
  destruct (publish_ends_with_one_done_signal client publish
              (start second_batch_fails))
    as (σ' & ss & ok & msg & url & k & H1 & H2 & H3 & _ & _ & _ & H7 & _).
  exists σ', ss, ok, msg, url.
  split; [exact H1|]. split; [exact H2|]. split; [exact H3|exact H7].
Defined.

(** X10 on one hour, two minutes and five seconds. *)
Lemma format_duration_is_injective_witness :
  format_duration (Some 3725%Z) = "1:02:05"
  ∧ format_duration (Some (62 * 60 + 5)%Z) = "1:02:05"
  ∧ 3725%Z = (62 * 60 + 5)%Z.
Proof.
  split; [vm_compute; reflexivity|]. split; [vm_compute; reflexivity|].
  apply (format_duration_is_injective 3725 (62 * 60 + 5)).
  - lia.
  - lia.
  - vm_compute. reflexivity.
Defined.

(** X11 on a track with a duration text and on one with seconds
    only. *)
Lemma duration_text_is_never_empty_witness :
  get_duration_text credited = "3:05"
  ∧ get_duration_text timed = "1:02:05".
Proof.
  split.
  - destruct (duration_text_is_never_empty credited) as (_ & H & _).
    apply (H "3:05"); [reflexivity|discriminate].
  - destruct (duration_text_is_never_empty timed) as (_ & _ & _ & _ & H).
    rewrite H; [vm_compute; reflexivity|reflexivity..].
Defined.

(** X12 on a track with listed artists and an author. *)
Lemma artist_text_prefers_the_artist_list_witness :
  get_artist_text credited = "Ann, Bo"
  ∧ get_artist_text timed = "Cy".
Proof.
  split.
  - destruct (artist_text_prefers_the_artist_list credited) as [H _].
    destruct (H _ _ eq_refl) as [-> _]. vm_compute. reflexivity.
  - destruct (artist_text_prefers_the_artist_list timed) as [_ H].
    rewrite H; [reflexivity|by left].
Defined.

(** X13 on the scenario: after ["Road trip"], the track [v2] of
    ["Gym"] is a duplicate. *)
Lemma video_id_prefers_the_primary_field_witness :
  let pre := [("Road trip", song "v1" "a"); ("Road trip", song "v2" "b")] in
  let x' := ("Gym", song "v2" "b") in
  PreviewWorker.to_add (plan {["v1"]} (pre ++ [x']) PreviewWorker.init_locals)
  = PreviewWorker.to_add (plan {["v1"]} pre PreviewWorker.init_locals)
  ∧ ∃ ti,
      PreviewWorker.skipped
        (plan {["v1"]} (pre ++ [x']) PreviewWorker.init_locals)
      = PreviewWorker.skipped (plan {["v1"]} pre PreviewWorker.init_locals)
          ++ [ti]
      ∧ ti_reason ti = Some "Duplicate".
Proof.
  intros pre x'.
  destruct (video_id_prefers_the_primary_field {["v1"]} pre
              ("Road trip", song "v2" "b") x' "v2")
    as (_ & _ & H3 & _ & (ti & H5 & _ & H7) & _).
  - constructor 2. constructor 1.
  - reflexivity.
  - reflexivity.
  - discriminate.
  - split; [exact H3|]. exists ti. split; [exact H5|].
    rewrite H7. reflexivity.
Defined.

(** X15 on the checked list: ["Road trip"] is a source, and its
    playlist does not match the destination. *)
Lemma selected_sources_are_listed_playlists_witness :
  let s := mkSource "Road trip" "PLX" in
  s ∈ Window.get_selected_playlists "Merged" checked
  ∧ src_playlistId s ≠ ""
  ∧ (∃ p, p ∈ playlists ∧ pl_playlistId p = Some "PLX"
          ∧ src_title s = Py.get_default (pl_title p) "Untitled")
  ∧ Py.lower (src_title s) ≠ Py.lower (Py.strip "Merged").
Proof.
  intros s.
  assert (Hs : s ∈ Window.get_selected_playlists "Merged" checked)
    by (vm_compute; constructor 1).
  split; [exact Hs|].
  destruct (selected_sources_are_listed_playlists playlists [] checked
              "Merged" s) as (H1 & (p & Hp & Hid & Ht & _) & H3 & _).
  - vm_compute. reflexivity.
  - exact Hs.
  - split; [exact H1|]. split; [|exact H3]. exists p. by split_and!.
Defined.

(** X16 on the checked list and the filter ["r"]: ["Gym"] is hidden
    and still selected. *)
Lemma filter_does_not_change_the_selection_witness :
  Window.get_selected_playlists "Merged" (Window.filter_playlists "r" checked)
  = [mkSource "Road trip" "PLX"; mkSource "Gym" "PLY"]
  ∧ ∃ pre post, Py.lower "Road trip" = pre +:+ Py.lower "r" +:+ post.
Proof.
  destruct (filter_does_not_change_the_selection "r" "Merged" checked)
    as (H1 & _ & _ & H4).
  split.
  - rewrite H1. vm_compute. reflexivity.
  - apply (H4 0%nat (Window.mkItem "Road trip" "PLX" true false));
      vm_compute; reflexivity.
Defined.

(** X17 on the checked list: after "deselect all" the hidden ["Gym"]
    is still a source. *)
Lemma select_all_skips_hidden_rows_witness :
  mkSource "Gym" "PLY"
  ∈ Window.get_selected_playlists "Merged"
      (Window.set_all_selected false checked).
Proof.
  destruct (select_all_skips_hidden_rows false "Merged" checked)
    as (_ & _ & _ & H & _).
  apply (H (Window.mkItem "Gym" "PLY" true true)).
  - vm_compute. repeat first [constructor 1 | constructor 2].
  - reflexivity.
  - reflexivity.
  - vm_compute. discriminate.
Defined.

(** X18 on the window of the session: a preview is started, a publish
    is not. *)
Lemma window_starts_no_idle_worker_witness :
  (∃ pw, Window.preview_merge window = Some pw
         ∧ PreviewWorker.sources pw
           = [mkSource "Road trip" "PLX"; mkSource "Gym" "PLY"])
  ∧ Window.publish_playlist window = None.
Proof.
  destruct (window_starts_no_idle_worker window) as (_ & H2 & H3 & _).
  split.
  - eexists. split; [vm_compute; reflexivity|].
    edestruct H2 as (-> & _); [vm_compute; reflexivity|].
    vm_compute. reflexivity.
  - apply H3. reflexivity.
Defined.

(** X19 on the scenario: the publish gets [v2], [v3] and [v9]. *)
Lemma publish_gets_the_ids_of_the_plan_witness :
  ∃ data pw,
    plan_of client preview (start library) = Some data
    ∧ Window.publish_playlist
        (Window.on_preview_done true "Preview generated successfully"
                                (Some data) window) = Some pw
    ∧ PublishWorker.video_ids pw = Window.video_ids_of (pd_to_add data)
    ∧ NoDup (PublishWorker.video_ids pw).
Proof.
  eexists _, _. split; [vm_compute; reflexivity|].
  split; [vm_compute; reflexivity|].
  edestruct (publish_gets_the_ids_of_the_plan client preview (start library))
    with (msg := "Preview generated successfully") (w := window)
    as (_ & _ & H3 & _ & _ & H6); [vm_compute; reflexivity|].
  split.
  - apply H6. vm_compute. reflexivity.
  - exact H3.
Defined.


(** X21 on a checked row titled [" merged "] and the destination
    ["Merged"]. *)
Lemma padded_destination_row_stays_a_source_witness :
  mkSource " merged " "PLD" ∈ Window.get_selected_playlists "Merged" padded
  ∧ PreviewWorker.find_dest "Merged" playlists = Some "PLD".
Proof.
  split; [|vm_compute; reflexivity].
  apply (padded_destination_row_stays_a_source "Merged" padded
           (Window.mkItem " merged " "PLD" true false)).
  - constructor 1.
  - reflexivity.
  - vm_compute. reflexivity.
  - vm_compute. discriminate.
Defined.

End ExtraWitnesses.
